(** * Tetracubed Fox: the API client and the status reconciler

    A shallow embedding of [src/api-client.js] and of the parts of
    [src/index.js] that load and save the configuration, set the
    notification channel and reconcile the server status.

    JavaScript values are an inductive type with the language's truthiness,
    string conversion and property access written out.  Everything the code
    asks of its surroundings (the clock, axios, the Minecraft status query,
    the file system, Discord) is an event of a finite interaction tree; a
    [world] scripts the answers, and running a program against a world gives
    the trace of events together with the result. *)

From Stdlib Require Import ZArith NArith List String Ascii Bool Lia.
From Stdlib Require Import DecimalString DecimalZ DecimalPos.
Import ListNotations.

Local Open Scope Z_scope.
Local Open Scope list_scope.
Local Open Scope string_scope.

(** ** JavaScript values *)

(** Numbers are the integers: the clock readings and the integers of a JSON
    document, printed in plain decimal.  An object is the list of its own
    enumerable properties in the order they were set, each key once.
    Strings are sequences of bytes. *)
#[warnings="-register-all"]
Inductive value : Type :=
| JUndefined
| JNull
| JBool (b : bool)
| JNum (n : Z)
| JStr (s : string)
| JArr (xs : list value)
| JObj (fields : list (string * value)).

(** Induction that reaches inside arrays and objects. *)
Section value_induction.
Variable P : value -> Prop.
Hypothesis Hundef : P JUndefined.
Hypothesis Hnull : P JNull.
Hypothesis Hbool : forall b, P (JBool b).
Hypothesis Hnum : forall n, P (JNum n).
Hypothesis Hstr : forall s, P (JStr s).
Hypothesis Harr : forall xs, Forall P xs -> P (JArr xs).
Hypothesis Hobj : forall fs, Forall (fun kv => P (snd kv)) fs -> P (JObj fs).

Fixpoint value_nested_ind (v : value) : P v :=
  match v with
  | JUndefined => Hundef
  | JNull => Hnull
  | JBool b => Hbool b
  | JNum n => Hnum n
  | JStr s => Hstr s
  | JArr xs =>
      Harr xs
        ((fix all (l : list value) : Forall P l :=
            match l with
            | [] => Forall_nil P
            | x :: l' => Forall_cons x (value_nested_ind x) (all l')
            end) xs)
  | JObj fs =>
      Hobj fs
        ((fix all (l : list (string * value))
            : Forall (fun kv => P (snd kv)) l :=
            match l with
            | [] => Forall_nil _
            | kv :: l' =>
                Forall_cons kv (value_nested_ind (snd kv)) (all l')
            end) fs)
  end.
End value_induction.

Definition string_nonempty (s : string) : bool :=
  match s with EmptyString => false | String _ _ => true end.

(** [ToBoolean]: what [!v], [a || b] and [if (v)] look at. *)
Definition truthy (v : value) : bool :=
  match v with
  | JUndefined | JNull => false
  | JBool b => b
  | JNum n => negb (Z.eqb n 0)
  | JStr s => string_nonempty s
  | JArr _ | JObj _ => true
  end.

(** [a || b] *)
Definition js_or (a b : value) : value := if truthy a then a else b.

Definition nullish (v : value) : bool :=
  match v with JUndefined | JNull => true | _ => false end.

Definition string_of_Z (n : Z) : string :=
  NilZero.string_of_int (Z.to_int n).

(** [ToString], as a template literal and [new Error(v)] apply it. *)
Fixpoint to_string (v : value) : string :=
  match v with
  | JUndefined => "undefined"
  | JNull => "null"
  | JBool true => "true"
  | JBool false => "false"
  | JNum n => string_of_Z n
  | JStr s => s
  | JArr xs =>
      (fix join (l : list value) : string :=
         match l with
         | [] => ""
         | x :: l' =>
             let sx := match x with
                       | JUndefined | JNull => ""
                       | _ => to_string x
                       end in
             match l' with
             | [] => sx
             | _ :: _ => sx ++ "," ++ join l'
             end
         end) xs
  | JObj _ => "[object Object]"
  end.

Fixpoint assoc (k : string) (fs : list (string * value)) : option value :=
  match fs with
  | [] => None
  | (k', v) :: fs' => if String.eqb k k' then Some v else assoc k fs'
  end.

(** An [Error] instance: the message, and the [code] and [response] that
    Node and axios attach ([JUndefined] when absent). *)
Record js_error : Type := mkError {
  message : string;
  code : value;
  response : value
}.

(** [new Error(v)] *)
Definition new_Error (v : value) : js_error :=
  mkError (to_string v) JUndefined JUndefined.

Definition TypeError_read (v : value) (k : string) : js_error :=
  mkError ("Cannot read properties of " ++ to_string v
           ++ " (reading '" ++ k ++ "')") JUndefined JUndefined.

Inductive completion (A : Type) : Type :=
| Normal (a : A)
| Thrown (e : js_error).
Arguments Normal {A} a.
Arguments Thrown {A} e.

(** [v.k] for the property names the program reads, none of which is a
    built-in property of a string, number, boolean or array: reading from
    [undefined] or [null] throws, from an object it looks the key up, from
    any other value it gives [undefined]. *)
Definition get_prop (v : value) (k : string) : completion value :=
  match v with
  | JUndefined | JNull => Thrown (TypeError_read v k)
  | JObj fs => Normal (match assoc k fs with Some x => x | None => JUndefined end)
  | _ => Normal JUndefined
  end.

(** [v?.k] *)
Definition opt_prop (v : value) (k : string) : value :=
  match get_prop v k with
  | Normal x => x
  | Thrown _ => JUndefined
  end.

(** The error as [console.error] prints it. *)
Definition error_value (e : js_error) : value :=
  JObj [("message", JStr (message e)); ("code", code e);
        ("response", response e)].

(** [s.includes(sub)] *)
Fixpoint prefix_of (p s : string) : bool :=
  match p, s with
  | EmptyString, _ => true
  | String a p', String b s' => Ascii.eqb a b && prefix_of p' s'
  | String _ _, EmptyString => false
  end.

Fixpoint includes (s sub : string) : bool :=
  prefix_of sub s
  || match s with
     | EmptyString => false
     | String _ s' => includes s' sub
     end.

(** ** What the program asks of its surroundings *)

(** An axios call resolves with [response.data] or rejects with an error. *)
Inductive http_outcome : Type :=
| HttpOk (data : value)
| HttpErr (e : js_error).

Inductive request_body : Type :=
| FormParams (params : list (string * string))
| JsonBody (v : value).

(** The answer of [status()] of minecraft-server-util, by its declared
    type. *)
Record GameServerStatus : Type := mkStatus {
  motd_clean : option string;
  players_online : Z;
  players_max : Z;
  players_sample : option (list string);
  version_name : string;
  version_protocol : Z
}.

Inductive status_outcome : Type :=
| StatusOk (st : GameServerStatus)
| StatusErr (e : js_error).

Record embed_field : Type := mkField {
  field_name : string;
  field_value : string;
  field_inline : bool
}.

(** An [EmbedBuilder] after its setters ran; [setTimestamp()] is left out. *)
Record Embed : Type := mkEmbed {
  color : string;
  title : string;
  description : string;
  fields : list embed_field
}.

(** How a write ends.  [fs.writeFileSync] opens the file with flag ['w'],
    which creates or empties it, and writes then: [WriteErr] is a call that
    threw before the file was opened, so that the file is as it was;
    [WriteCut] is a call that threw afterwards, and [kept] is what the file
    holds then (nothing, or the part that was written).  A send to a channel
    ends in the same ways: it resolves or it throws, and [kept] says nothing
    there. *)
Inductive write_outcome : Type :=
| WriteOk
| WriteErr (e : js_error)
| WriteCut (e : js_error) (kept : string).

Inductive read_outcome : Type :=
| ReadOk (text : string)
| ReadErr (e : js_error).

Inductive fetch_outcome : Type :=
| FetchOk (channel_present text_based : bool)
| FetchErr (e : js_error).

Inductive event : Type -> Type :=
| DateNow : event Z
| AxiosPost (url : string) (body : request_body)
            (headers : list (string * string)) (timeout : option Z)
  : event http_outcome
| AxiosGet (url : string) (headers : list (string * string))
  : event http_outcome
| ConsoleError (label : string) (detail : value) : event unit
| McStatus (host : value) (port : Z) (timeout : Z) : event status_outcome
| DeferReply : event unit
| EditReply (e : Embed) : event unit
| Reply (e : Embed) : event unit
| ReplyContent (content : string) (ephemeral : bool) : event unit
| SetPresence (activity : string) (activity_type : Z) (status : string)
  : event unit
| ExistsSync (path : string) : event bool
| ReadFileSync (path : string) : event read_outcome
| WriteFileSync (path : string) (text : string) : event write_outcome
| ChannelsFetch (id : value) : event fetch_outcome
| ChannelSend (id : value) (e : Embed) : event write_outcome.

Inductive prog (A : Type) : Type :=
| Ret (a : A)
| Vis (X : Type) (e : event X) (k : X -> prog A).
Arguments Ret {A} a.
Arguments Vis {A X} e k.

Fixpoint pbind {A B : Type} (p : prog A) (f : A -> prog B) : prog B :=
  match p with
  | Ret a => f a
  | Vis e k => Vis e (fun x => pbind (k x) f)
  end.

Definition trigger {X : Type} (e : event X) : prog X := Vis e Ret.

(** One observed step: the event and the answer it got. *)
Inductive obs : Type :=
| Obs (X : Type) (e : event X) (x : X).
Arguments Obs {X} e x.

(** The scripted surroundings: the answer to the [i]-th event of a run, for
    each kind of answer. *)
Record world : Type := mkWorld {
  now_at : nat -> Z;
  http_at : nat -> http_outcome;
  status_at : nat -> status_outcome;
  exists_at : nat -> bool;
  read_at : nat -> read_outcome;
  write_at : nat -> write_outcome;
  fetch_at : nat -> fetch_outcome
}.

Definition answer (w : world) (i : nat) {X : Type} (e : event X) : X :=
  match e in event T return T with
  | DateNow => now_at w i
  | AxiosPost _ _ _ _ => http_at w i
  | AxiosGet _ _ => http_at w i
  | ConsoleError _ _ => tt
  | McStatus _ _ _ => status_at w i
  | DeferReply => tt
  | EditReply _ => tt
  | Reply _ => tt
  | ReplyContent _ _ => tt
  | SetPresence _ _ _ => tt
  | ExistsSync _ => exists_at w i
  | ReadFileSync _ => read_at w i
  | WriteFileSync _ _ => write_at w i
  | ChannelsFetch _ => fetch_at w i
  | ChannelSend _ _ => write_at w i
  end.

(** Running a program from step [i]: the trace and the result. *)
Fixpoint run {A : Type} (w : world) (i : nat) (p : prog A) : list obs * A :=
  match p with
  | Ret a => ([], a)
  | Vis e k =>
      let x := answer w i e in
      let r := run w (S i) (k x) in
      (Obs e x :: fst r, snd r)
  end.

(** ** Stateful, throwing computations over the events *)

Definition js (S A : Type) : Type := S -> prog (completion A * S).

Definition ret {S A : Type} (a : A) : js S A := fun s => Ret (Normal a, s).

Definition throw {S A : Type} (e : js_error) : js S A :=
  fun s => Ret (Thrown e, s).

Definition bind {S A B : Type} (m : js S A) (f : A -> js S B) : js S B :=
  fun s =>
    pbind (m s) (fun r =>
      match r with
      | (Normal a, s') => f a s'
      | (Thrown e, s') => Ret (Thrown e, s')
      end).

(** [try { body } catch (error) { handler }] *)
Definition try_catch {S A : Type} (body : js S A)
    (handler : js_error -> js S A) : js S A :=
  fun s =>
    pbind (body s) (fun r =>
      match r with
      | (Normal a, s') => Ret (Normal a, s')
      | (Thrown e, s') => handler e s'
      end).

Definition perform {S X : Type} (e : event X) : js S X :=
  fun s => pbind (trigger e) (fun x => Ret (Normal x, s)).

Definition get {S : Type} : js S S := fun s => Ret (Normal s, s).

Definition put {S : Type} (s' : S) : js S unit := fun _ => Ret (Normal tt, s').

(** A completed evaluation as a computation. *)
Definition of_completion {S A : Type} (c : completion A) : js S A :=
  match c with
  | Normal a => ret a
  | Thrown e => throw e
  end.

(** An awaited call that resolves or rejects. *)
Definition await_http {S : Type} (e : event http_outcome) : js S value :=
  bind (perform e) (fun r =>
    match r with
    | HttpOk d => ret d
    | HttpErr err => throw err
    end).

Declare Scope js_scope.
Delimit Scope js_scope with js.
Notation "x <- m ;; k" := (bind m (fun x => k))
  (at level 61, m at next level, right associativity) : js_scope.
Notation "m ;;; k" := (bind m (fun _ => k))
  (at level 61, right associativity) : js_scope.
Local Open Scope js_scope.

(** ** src/api-client.js *)

Record Session : Type := mkSession {
  baseURL : string;
  username : string;
  password : string;
  accessToken : value;
  tokenExpiry : option Z
}.

(** [constructor(baseURL, username, password)] *)
Definition new_client (b u p : string) : Session :=
  mkSession b u p JNull None.

Definition set_token (tok : value) (expiry : Z) (s : Session) : Session :=
  mkSession (baseURL s) (username s) (password s) tok (Some expiry).

(** [25 * 60 * 1000] *)
Definition REFRESH_AFTER_MS : Z := 25 * 60 * 1000.

Definition AUTH_FAILED : string := "Failed to authenticate with Tetracubed API".

(** [error.response?.data || error.message] *)
Definition error_detail (error : js_error) : value :=
  js_or (opt_prop (response error) "data") (JStr (message error)).

(** [error.response?.data?.detail || fallback] *)
Definition detail_or (error : js_error) (fallback : string) : value :=
  js_or (opt_prop (opt_prop (response error) "data") "detail") (JStr fallback).

Definition authenticate : js Session bool :=
  try_catch
    (s <- get ;;
     data <- await_http
       (AxiosPost (baseURL s ++ "/token")
          (FormParams [("username", username s); ("password", password s)])
          [("Content-Type", "application/x-www-form-urlencoded")] None) ;;
     tok <- of_completion (get_prop data "access_token") ;;
     now <- perform DateNow ;;
     put (set_token tok (now + REFRESH_AFTER_MS) s) ;;;
     ret true)
    (fun error =>
       perform (ConsoleError "Authentication failed:" (error_detail error)) ;;;
       throw (new_Error (JStr AUTH_FAILED))).

(** [Date.now() >= this.tokenExpiry]; a [null] expiry compares as [0]. *)
Definition expired (now : Z) (expiry : option Z) : bool :=
  match expiry with
  | Some e => Z.leb e now
  | None => Z.leb 0 now
  end.

(** The clock is read only when a token is held, as [||] evaluates. *)
Definition ensureAuthenticated : js Session unit :=
  s <- get ;;
  if negb (truthy (accessToken s)) then
    authenticate ;;; ret tt
  else
    now <- perform DateNow ;;
    if expired now (tokenExpiry s) then authenticate ;;; ret tt
    else ret tt.

Definition bearer (s : Session) : list (string * string) :=
  [("Authorization", "Bearer " ++ to_string (accessToken s))].

Definition startServer : js Session value :=
  ensureAuthenticated ;;;
  try_catch
    (s <- get ;;
     await_http (AxiosPost (baseURL s ++ "/tetracubed/start")
                   (JsonBody (JObj [])) (bearer s) (Some 900000)))
    (fun error =>
       perform (ConsoleError "Start server failed:" (error_detail error)) ;;;
       throw (new_Error (detail_or error "Failed to start server"))).

Definition stopServer : js Session value :=
  ensureAuthenticated ;;;
  try_catch
    (s <- get ;;
     await_http (AxiosPost (baseURL s ++ "/tetracubed/stop")
                   (JsonBody (JObj [])) (bearer s) (Some 900000)))
    (fun error =>
       perform (ConsoleError "Stop server failed:" (error_detail error)) ;;;
       throw (new_Error (detail_or error "Failed to stop server"))).

Definition getResources : js Session value :=
  ensureAuthenticated ;;;
  try_catch
    (s <- get ;;
     await_http (AxiosGet (baseURL s ++ "/tetracubed/resources") (bearer s)))
    (fun error =>
       perform (ConsoleError "Get resources failed:" (error_detail error)) ;;;
       throw (new_Error (detail_or error "Failed to get resources"))).

(** ** Reading traces *)

Definition event_url {X : Type} (e : event X) : option string :=
  match e with
  | AxiosPost url _ _ _ => Some url
  | AxiosGet url _ => Some url
  | _ => None
  end.

(** A request to [url], whatever the answer. *)
Definition is_request (url : string) (o : obs) : bool :=
  match o with
  | Obs e _ =>
      match event_url e with
      | Some u => String.eqb u url
      | None => false
      end
  end.

(** The calls of [authenticate] in a trace are its requests to the token
    endpoint of the client's base URL. *)
Definition authenticate_calls (b : string) (tr : list obs) : nat :=
  List.length (List.filter (is_request (b ++ "/token")) tr).

(** The clock reading a trace starts with, if it starts with one. *)
Definition clock_reading (tr : list obs) : option Z :=
  match tr with
  | Obs e x :: _ =>
      match e in event T return T -> option Z with
      | DateNow => fun z => Some z
      | _ => fun _ => None
      end x
  | [] => None
  end.

(** The answer a request to [url] got in a trace: the first one. *)
Fixpoint http_answer (url : string) (tr : list obs) : option http_outcome :=
  match tr with
  | [] => None
  | Obs e x :: tr' =>
      match e in event T return T -> option http_outcome with
      | AxiosPost u _ _ _ =>
          fun r => if String.eqb u url then Some r else http_answer url tr'
      | AxiosGet u _ =>
          fun r => if String.eqb u url then Some r else http_answer url tr'
      | _ => fun _ => http_answer url tr'
      end x
  end.

(** What [console.error] was given under a label. *)
Fixpoint logged (label : string) (tr : list obs) : list value :=
  match tr with
  | [] => []
  | Obs e _ :: tr' =>
      match e with
      | ConsoleError l d =>
          if String.eqb l label then d :: logged label tr' else logged label tr'
      | _ => logged label tr'
      end
  end.

(** ** Sequences of client operations *)

Inductive api_op : Type := OpStart | OpStop | OpGetResources.

Definition call (op : api_op) : js Session value :=
  match op with
  | OpStart => startServer
  | OpStop => stopServer
  | OpGetResources => getResources
  end.

Definition op_path (op : api_op) : string :=
  match op with
  | OpStart => "/tetracubed/start"
  | OpStop => "/tetracubed/stop"
  | OpGetResources => "/tetracubed/resources"
  end.

Definition op_fallback (op : api_op) : string :=
  match op with
  | OpStart => "Failed to start server"
  | OpStop => "Failed to stop server"
  | OpGetResources => "Failed to get resources"
  end.

(** One entry per operation: the session it found, its trace, the session
    it left.  The operations are awaited one after the other, and one that
    throws does not stop the next. *)
Fixpoint run_ops (w : world) (i : nat) (s : Session) (ops : list api_op)
  : list (Session * list obs * Session) :=
  match ops with
  | [] => []
  | op :: rest =>
      let r := run w i (call op s) in
      let s' := snd (snd r) in
      (s, fst r, s') :: run_ops w (i + List.length (fst r)) s' rest
  end.

Definition final_session (s : Session)
    (log : list (Session * list obs * Session)) : Session :=
  List.last (List.map snd log) s.

(** The request of an operation, after the guard. *)
Definition op_request (op : api_op) : js Session value :=
  match op with
  | OpStart =>
      try_catch
        (s <- get ;;
         await_http (AxiosPost (baseURL s ++ "/tetracubed/start")
                       (JsonBody (JObj [])) (bearer s) (Some 900000)))
        (fun error =>
           perform (ConsoleError "Start server failed:" (error_detail error)) ;;;
           throw (new_Error (detail_or error "Failed to start server")))
  | OpStop =>
      try_catch
        (s <- get ;;
         await_http (AxiosPost (baseURL s ++ "/tetracubed/stop")
                       (JsonBody (JObj [])) (bearer s) (Some 900000)))
        (fun error =>
           perform (ConsoleError "Stop server failed:" (error_detail error)) ;;;
           throw (new_Error (detail_or error "Failed to stop server")))
  | OpGetResources =>
      try_catch
        (s <- get ;;
         await_http (AxiosGet (baseURL s ++ "/tetracubed/resources") (bearer s)))
        (fun error =>
           perform (ConsoleError "Get resources failed:" (error_detail error)) ;;;
           throw (new_Error (detail_or error "Failed to get resources")))
  end.

Definition op_event (op : api_op) (s : Session) : event http_outcome :=
  match op with
  | OpStart => AxiosPost (baseURL s ++ "/tetracubed/start")
                 (JsonBody (JObj [])) (bearer s) (Some 900000)
  | OpStop => AxiosPost (baseURL s ++ "/tetracubed/stop")
                (JsonBody (JObj [])) (bearer s) (Some 900000)
  | OpGetResources => AxiosGet (baseURL s ++ "/tetracubed/resources") (bearer s)
  end.

Definition op_label (op : api_op) : string :=
  match op with
  | OpStart => "Start server failed:"
  | OpStop => "Stop server failed:"
  | OpGetResources => "Get resources failed:"
  end.

(** The guard of [ensureAuthenticated]:
    [!this.accessToken || Date.now() >= this.tokenExpiry]. *)
Definition token_held (s : Session) : bool := truthy (accessToken s).

(** The completion of [await f(); ] whose value is dropped. *)
Definition discard {A : Type} (r : completion A * Session)
  : completion unit * Session :=
  match r with
  | (Normal _, s) => (Normal tt, s)
  | (Thrown e, s) => (Thrown e, s)
  end.

(** The token request of [authenticate]. *)
Definition token_event (s : Session) : event http_outcome :=
  AxiosPost (baseURL s ++ "/token")
    (FormParams [("username", username s); ("password", password s)])
    [("Content-Type", "application/x-www-form-urlencoded")] None.

(** [accessToken] and [tokenExpiry] are set together: a token is there
    exactly when an expiry is. *)
Definition paired (s : Session) : bool :=
  Bool.eqb (negb (nullish (accessToken s)))
           (match tokenExpiry s with Some _ => true | None => false end).

(** Worlds and sessions to evaluate the client on. *)
Definition quiet_world : world :=
  mkWorld (fun _ => 0) (fun _ => HttpOk JNull)
    (fun _ => StatusErr (mkError "" JUndefined JUndefined))
    (fun _ => false) (fun _ => ReadOk "") (fun _ => WriteOk)
    (fun _ => FetchOk false false).

Definition with_http (h : nat -> http_outcome) (w : world) : world :=
  mkWorld (now_at w) h (status_at w) (exists_at w) (read_at w) (write_at w)
    (fetch_at w).

Definition with_clock (c : nat -> Z) (w : world) : world :=
  mkWorld c (http_at w) (status_at w) (exists_at w) (read_at w) (write_at w)
    (fetch_at w).

Definition token_response (tok : value) : http_outcome :=
  HttpOk (JObj [("access_token", tok); ("token_type", JStr "bearer")]).

Definition example_client : Session :=
  new_client "https://api.example" "fox" "secret".

(** A token endpoint that answers 200 with [{"access_token": null}]. *)
Definition null_token_world : world :=
  with_clock (fun _ => 0)
    (with_http (fun _ => token_response JNull) quiet_world).

(** A session holding a token whose expiry has long passed, and a control
    plane that refuses every request. *)
Definition stale_client : Session :=
  mkSession "https://api.example" "fox" "secret" (JStr "old") (Some 5).

Definition axios_error (msg : string) (status_data : value) : js_error :=
  mkError msg (JStr "ERR_BAD_REQUEST") (JObj [("data", status_data)]).

Definition failing_world (e : js_error) : world :=
  with_clock (fun _ => 1000) (with_http (fun _ => HttpErr e) quiet_world).

(** ** JSON text *)

Definition dquote : ascii := "034"%char.
Definition backslash : ascii := "092"%char.
Definition LF : ascii := "010"%char.

Definition hex_digit (n : N) : ascii :=
  match n with
  | 0 => "0" | 1 => "1" | 2 => "2" | 3 => "3" | 4 => "4" | 5 => "5"
  | 6 => "6" | 7 => "7" | 8 => "8" | 9 => "9" | 10 => "a" | 11 => "b"
  | 12 => "c" | 13 => "d" | 14 => "e" | _ => "f"
  end%N%char.

Definition hex_value (c : ascii) : option N :=
  let n := N_of_ascii c in
  if (N.leb 48 n && N.leb n 57)%N then Some (n - 48)%N
  else if (N.leb 97 n && N.leb n 102)%N then Some (n - 87)%N
  else if (N.leb 65 n && N.leb n 70)%N then Some (n - 55)%N
  else None.

(** [QuoteJSONString], one character at a time. *)
Definition quote_char (c : ascii) : string :=
  let n := N_of_ascii c in
  if Ascii.eqb c dquote then String backslash (String dquote "")
  else if Ascii.eqb c backslash then String backslash (String backslash "")
  else if N.eqb n 8 then String backslash "b"
  else if N.eqb n 9 then String backslash "t"
  else if N.eqb n 10 then String backslash "n"
  else if N.eqb n 12 then String backslash "f"
  else if N.eqb n 13 then String backslash "r"
  else if N.ltb n 32 then
    String backslash
      (String "u" (String "0" (String "0"
         (String (hex_digit (n / 16)%N) (String (hex_digit (n mod 16)%N) "")))))
  else String c "".

Fixpoint quote_body (s : string) : string :=
  match s with
  | EmptyString => String dquote ""
  | String c s' => quote_char c ++ quote_body s'
  end.

Definition quote (s : string) : string := String dquote (quote_body s).

Definition gap : string := "  ".

Fixpoint indent (n : nat) : string :=
  match n with
  | O => ""
  | S n' => gap ++ indent n'
  end.

Definition is_undefined (v : value) : bool :=
  match v with JUndefined => true | _ => false end.

(** [JSON.stringify(v, null, 2)] at nesting depth [n], for a [v] that is not
    [undefined]: a property whose value is [undefined] is left out, an
    [undefined] array element is written [null]. *)
Definition wrap (opening closing : string) (n : nat) (items : list string)
  : string :=
  match items with
  | [] => opening ++ closing
  | _ :: _ =>
      opening ++ String LF (indent (S n))
      ++ String.concat ("," ++ String LF (indent (S n))) items
      ++ String LF (indent n) ++ closing
  end.

Fixpoint stringify_at (n : nat) (v : value) : string :=
  match v with
  | JUndefined | JNull => "null"
  | JBool true => "true"
  | JBool false => "false"
  | JNum z => string_of_Z z
  | JStr s => quote s
  | JArr xs =>
      wrap "[" "]" n
        ((fix items (l : list value) : list string :=
            match l with
            | [] => []
            | x :: l' => stringify_at (S n) x :: items l'
            end) xs)
  | JObj fs =>
      wrap "{" "}" n
        ((fix members (l : list (string * value)) : list string :=
            match l with
            | [] => []
            | (k, x) :: l' =>
                if is_undefined x then members l'
                else (quote k ++ ": " ++ stringify_at (S n) x) :: members l'
            end) fs)
  end.

Definition JSON_stringify (v : value) : string := stringify_at 0 v.

(** [JSON.parse] on the integers, which are the numbers of the model.
    [None] is its answer in two cases: for a text that is not JSON, where
    [JSON.parse] throws its [SyntaxError], and for JSON that holds a number
    with a fraction or an exponent, which has no place among the integers;
    [JSON_valid], further down, tells the two apart.  An integer is kept as
    it is written, which is what [JSON.parse] does up to 2^53 - 1
    ([safe_integer], further down). *)

Definition is_ws (c : ascii) : bool :=
  let n := N_of_ascii c in
  N.eqb n 32 || N.eqb n 9 || N.eqb n 10 || N.eqb n 13.

Fixpoint skip_ws (s : string) : string :=
  match s with
  | EmptyString => EmptyString
  | String c s' => if is_ws c then skip_ws s' else s
  end.

Definition unescape (e : ascii) : option ascii :=
  if Ascii.eqb e dquote then Some dquote
  else if Ascii.eqb e backslash then Some backslash
  else if Ascii.eqb e "/" then Some "/"%char
  else if Ascii.eqb e "b" then Some "008"%char
  else if Ascii.eqb e "f" then Some "012"%char
  else if Ascii.eqb e "n" then Some "010"%char
  else if Ascii.eqb e "r" then Some "013"%char
  else if Ascii.eqb e "t" then Some "009"%char
  else None.

Definition hex4 (a b c d : ascii) : option N :=
  match hex_value a, hex_value b, hex_value c, hex_value d with
  | Some x, Some y, Some z, Some t => Some (((x * 16 + y) * 16 + z) * 16 + t)%N
  | _, _, _, _ => None
  end.

(** The bytes that stand for one UTF-16 code unit. *)
Definition utf8_of_code (n : N) : string :=
  if N.ltb n 128 then String (ascii_of_N n) ""
  else if N.ltb n 2048 then
    String (ascii_of_N (192 + n / 64))
      (String (ascii_of_N (128 + n mod 64)) "")
  else
    String (ascii_of_N (224 + n / 4096))
      (String (ascii_of_N (128 + (n / 64) mod 64))
         (String (ascii_of_N (128 + n mod 64)) "")).

Definition prepend (p : string) (r : option (string * string))
  : option (string * string) :=
  match r with
  | Some (str, rest) => Some (p ++ str, rest)
  | None => None
  end.

(** After the opening quote: the string and what follows its closing
    quote. *)
Fixpoint parse_string_body (s : string) : option (string * string) :=
  match s with
  | EmptyString => None
  | String c rest =>
      if Ascii.eqb c dquote then Some ("", rest)
      else if Ascii.eqb c backslash then
        match rest with
        | EmptyString => None
        | String e rest' =>
            match unescape e with
            | Some c' => prepend (String c' "") (parse_string_body rest')
            | None =>
                if Ascii.eqb e "u" then
                  match rest' with
                  | String h1 (String h2 (String h3 (String h4 rest''))) =>
                      match hex4 h1 h2 h3 h4 with
                      | Some n =>
                          prepend (utf8_of_code n) (parse_string_body rest'')
                      | None => None
                      end
                  | _ => None
                  end
                else None
            end
        end
      else if N.ltb (N_of_ascii c) 32 then None
      else prepend (String c "") (parse_string_body rest)
  end.

Definition is_digit (c : ascii) : bool :=
  (N.leb 48 (N_of_ascii c) && N.leb (N_of_ascii c) 57)%N.

Fixpoint span_digits (s : string) : string * string :=
  match s with
  | EmptyString => ("", "")
  | String c s' =>
      if is_digit c then (String c (fst (span_digits s')), snd (span_digits s'))
      else ("", s)
  end.

(** No digits, or a leading zero before more digits, is no number. *)
Definition canonical (ds : string) : bool :=
  match ds with
  | EmptyString => false
  | String c EmptyString => true
  | String c (String _ _) => negb (Ascii.eqb c "0")
  end.

Definition starts_fraction (s : string) : bool :=
  match s with
  | EmptyString => false
  | String c _ => Ascii.eqb c "." || Ascii.eqb c "e" || Ascii.eqb c "E"
  end.

Definition parse_number (s : string) : option (value * string) :=
  let sign := match s with
              | String c _ => Ascii.eqb c "-"
              | EmptyString => false
              end in
  let s1 := match s with
            | String c s' => if Ascii.eqb c "-" then s' else s
            | EmptyString => s
            end in
  let ds := fst (span_digits s1) in
  let rest := snd (span_digits s1) in
  if canonical ds && negb (starts_fraction rest) then
    match NilZero.int_of_string (if sign then String "-" ds else ds) with
    | Some i => Some (JNum (Z.of_int i), rest)
    | None => None
    end
  else None.

Fixpoint strip_prefix (p s : string) : option string :=
  match p with
  | EmptyString => Some s
  | String a p' =>
      match s with
      | String b s' => if Ascii.eqb a b then strip_prefix p' s' else None
      | EmptyString => None
      end
  end.

Definition literal (word : string) (v : value) (s : string)
  : option (value * string) :=
  match strip_prefix word s with
  | Some rest => Some (v, rest)
  | None => None
  end.

(** [obj[k] = v] on the list of properties: an existing key keeps its place. *)
Fixpoint set_field (k : string) (v : value) (fs : list (string * value))
  : list (string * value) :=
  match fs with
  | [] => [(k, v)]
  | (k', v') :: fs' =>
      if String.eqb k k' then (k, v) :: fs' else (k', v') :: set_field k v fs'
  end.

Fixpoint parse_value (fuel : nat) (s : string) : option (value * string) :=
  match fuel with
  | O => None
  | S f =>
      match skip_ws s with
      | EmptyString => None
      | String c rest =>
          if Ascii.eqb c dquote then
            match parse_string_body rest with
            | Some (str, r) => Some (JStr str, r)
            | None => None
            end
          else if Ascii.eqb c "{" then
            match skip_ws rest with
            | String c' r =>
                if Ascii.eqb c' "}" then Some (JObj [], r)
                else parse_members f [] rest
            | EmptyString => None
            end
          else if Ascii.eqb c "[" then
            match skip_ws rest with
            | String c' r =>
                if Ascii.eqb c' "]" then Some (JArr [], r)
                else parse_elements f [] rest
            | EmptyString => None
            end
          else if Ascii.eqb c "n" then literal "null" JNull (String c rest)
          else if Ascii.eqb c "t" then literal "true" (JBool true) (String c rest)
          else if Ascii.eqb c "f" then
            literal "false" (JBool false) (String c rest)
          else parse_number (String c rest)
      end
  end

with parse_members (fuel : nat) (acc : list (string * value)) (s : string)
  : option (value * string) :=
  match fuel with
  | O => None
  | S f =>
      match skip_ws s with
      | EmptyString => None
      | String c rest =>
          if Ascii.eqb c dquote then
            match parse_string_body rest with
            | None => None
            | Some (k, r1) =>
                match skip_ws r1 with
                | EmptyString => None
                | String c1 r2 =>
                    if Ascii.eqb c1 ":" then
                      match parse_value f r2 with
                      | None => None
                      | Some (v, r3) =>
                          match skip_ws r3 with
                          | EmptyString => None
                          | String c3 r4 =>
                              if Ascii.eqb c3 "," then
                                parse_members f (set_field k v acc) r4
                              else if Ascii.eqb c3 "}" then
                                Some (JObj (set_field k v acc), r4)
                              else None
                          end
                      end
                    else None
                end
            end
          else None
      end
  end

with parse_elements (fuel : nat) (acc : list value) (s : string)
  : option (value * string) :=
  match fuel with
  | O => None
  | S f =>
      match parse_value f s with
      | None => None
      | Some (v, r) =>
          match skip_ws r with
          | EmptyString => None
          | String c r' =>
              if Ascii.eqb c "," then parse_elements f (acc ++ [v])%list r'
              else if Ascii.eqb c "]" then Some (JArr (acc ++ [v])%list, r')
              else None
          end
      end
  end.

(** Each step of fuel is paid for by a character read: twice the length
    of the text is fuel enough. *)
Definition JSON_parse (s : string) : option value :=
  match parse_value (2 * String.length s + 2) s with
  | Some (v, rest) =>
      match skip_ws rest with
      | EmptyString => Some v
      | String _ _ => None
      end
  | None => None
  end.

(** A value [JSON.parse] can give: no [undefined] inside, and no key twice
    in an object. *)
Fixpoint has_key (k : string) (fs : list (string * value)) : bool :=
  match fs with
  | [] => false
  | (k', _) :: fs' => String.eqb k k' || has_key k fs'
  end.

Fixpoint json_ok (v : value) : bool :=
  match v with
  | JUndefined => false
  | JNull | JBool _ | JNum _ | JStr _ => true
  | JArr xs =>
      (fix all (l : list value) : bool :=
         match l with
         | [] => true
         | x :: l' => json_ok x && all l'
         end) xs
  | JObj fs =>
      (fix all (l : list (string * value)) : bool :=
         match l with
         | [] => true
         | (k, x) :: l' => negb (has_key k l') && json_ok x && all l'
         end) fs
  end.

(** The fuel that parsing the text of a value takes. *)
Fixpoint need (v : value) : nat :=
  match v with
  | JArr xs =>
      S ((fix go (l : list value) : nat :=
            match l with
            | [] => O
            | x :: l' => S (Nat.max (need x) (go l'))
            end) xs)
  | JObj fs =>
      S ((fix go (l : list (string * value)) : nat :=
            match l with
            | [] => O
            | (_, x) :: l' => S (Nat.max (need x) (go l'))
            end) fs)
  | _ => 1%nat
  end.

(** Notions the proofs about the JSON text use. *)

Definition delim (rest : string) : bool :=
  match rest with
  | EmptyString => true
  | String c _ => Ascii.eqb c "," || Ascii.eqb c LF
  end.

Definition member_text (n : nat) (kv : string * value) : string :=
  quote (fst kv) ++ ": " ++ stringify_at n (snd kv).

Definition values_ok (fs : list (string * value)) : bool :=
  forallb (fun kv => json_ok (snd kv)) fs.

Fixpoint distinct_keys (fs : list (string * value)) : bool :=
  match fs with
  | [] => true
  | (k, _) :: fs' => negb (has_key k fs') && distinct_keys fs'
  end.

Fixpoint need_items (l : list value) : nat :=
  match l with
  | [] => O
  | x :: l' => S (Nat.max (need x) (need_items l'))
  end.

Fixpoint need_members (l : list (string * value)) : nat :=
  match l with
  | [] => O
  | kv :: l' => S (Nat.max (need (snd kv)) (need_members l'))
  end.

Definition roundtrips (v : value) : Prop :=
  json_ok v = true ->
  forall (n : nat) (rest : string) (fuel : nat),
    delim rest = true -> (need v <= fuel)%nat ->
    parse_value fuel (stringify_at n v ++ rest) = Some (v, rest).

Definition fresh_keys (acc l : list (string * value)) : bool :=
  forallb (fun kv => negb (has_key (fst kv) acc)) l.

(** ** src/index.js: configuration *)

(** [process.env], as far as the program reads it.  The three API settings
    are checked at startup, the others may be missing. *)
Record process_env : Type := mkEnv {
  API_BASE_URL : string;
  API_USERNAME : string;
  API_PASSWORD : string;
  NOTIFICATION_CHANNEL_ID : option string;
  ALLOWED_ROLE_ID : option string;
  ADMIN_USER_IDS : option string;
  SERVER_HOSTNAME : option string
}.

(** [process.env.NAME] *)
Definition env_var (o : option string) : value :=
  match o with
  | Some s => JStr s
  | None => JUndefined
  end.

(** The module's state: [apiClient] and [config]; [config] is always an
    object and is kept as the list of its properties. *)
Record Bot : Type := mkBot {
  apiClient : Session;
  config : list (string * value)
}.

(** [await apiClient.method()] *)
Definition on_client {A : Type} (m : js Session A) : js Bot A :=
  fun b =>
    pbind (m (apiClient b)) (fun r => Ret (fst r, mkBot (snd r) (config b))).

Fixpoint indexed (i : nat) (xs : list value) : list (string * value) :=
  match xs with
  | [] => []
  | x :: xs' => (string_of_Z (Z.of_nat i), x) :: indexed (S i) xs'
  end.

Fixpoint characters (s : string) : list value :=
  match s with
  | EmptyString => []
  | String c s' => JStr (String c "") :: characters s'
  end.

(** [{ ...target, ...src }]: the own enumerable properties of [src], in
    order, set on a copy of [target]. *)
Definition spread (target : list (string * value)) (src : value)
  : list (string * value) :=
  let props := match src with
               | JObj fs => fs
               | JArr xs => indexed 0 xs
               | JStr s => indexed 0 (characters s)
               | _ => []
               end in
  List.fold_left (fun acc kv => set_field (fst kv) (snd kv) acc) props target.

(** The [SyntaxError] of [JSON.parse]; the wording of its message is the
    engine's. *)
Definition SyntaxError : js_error :=
  mkError "Unexpected token in JSON" JUndefined JUndefined.

(** ** src/index.js: what the handlers share *)

(** What the handlers read of an interaction. *)
Record Interaction : Type := mkInteraction {
  user_id : string;
  member_roles : list string;
  is_administrator : bool;
  channel_id : string
}.

Fixpoint split_on (sep : ascii) (s : string) : list string :=
  match s with
  | EmptyString => [""]
  | String c s' =>
      if Ascii.eqb c sep then "" :: split_on sep s'
      else match split_on sep s' with
           | [] => [String c ""]
           | w :: ws => String c w :: ws
           end
  end.

Definition offlineEmbed : Embed :=
  mkEmbed "#ff0000" "🔴 Server Offline"
    "The Tetracubed server is not currently running."
    [mkField "Status" "Infrastructure not provisioned" false;
     mkField "Tip" "Use `/start` to launch the server" false].

Definition onlineEmbed (serverAddress : value) (st : GameServerStatus)
    (responseTime : Z) : Embed :=
  mkEmbed "#00ff00" "🟢 Server Online"
    (match motd_clean st with
     | Some m => if string_nonempty m then m else "Minecraft Server"
     | None => "Minecraft Server"
     end)
    ([mkField "Address" ("`" ++ to_string serverAddress ++ "`") true;
      mkField "Players"
        (string_of_Z (players_online st) ++ "/"
         ++ string_of_Z (players_max st)) true;
      mkField "Response Time" (string_of_Z responseTime ++ "ms") true;
      mkField "Version"
        (if string_nonempty (version_name st) then version_name st
         else "Unknown") true;
      mkField "Protocol" (string_of_Z (version_protocol st)) true]
     ++ match players_sample st with
        | Some names =>
            if Z.ltb 0 (players_online st) then
              [mkField "Online Players" (String.concat ", " names) false]
            else []
        | None => []
        end)%list.

(** The [catch] block of [handlePingServer], up to the embed. *)
Definition errorEmbed (error : js_error) : Embed :=
  let isTimeout :=
    includes (message error) "timeout"
    || match code error with
       | JStr c => String.eqb c "ETIMEDOUT"
       | _ => false
       end in
  let isRefused :=
    match code error with
    | JStr c => String.eqb c "ECONNREFUSED"
    | _ => false
    end in
  let errorMessage :=
    if isTimeout then
      "Connection timed out. The server may be starting up or experiencing issues."
    else if isRefused then
      "Connection refused. The Minecraft server process may not be running yet."
    else "Unable to connect to the Minecraft server." in
  let statusText :=
    if isTimeout then "Starting up or not responding"
    else if isRefused then "Server process not started"
    else "Server may be starting up or offline" in
  mkEmbed "#ffaa00" "⚠️ Cannot Reach Server" errorMessage
    [mkField "Status" statusText false;
     mkField "Tip"
       "Infrastructure may be up but Minecraft server is still loading. Try again in 1-2 minutes."
       false].

(** [result.outputs?.public_ip] *)
Definition public_ip_of (result : value) : completion value :=
  match get_prop result "outputs" with
  | Normal outputs => Normal (opt_prop outputs "public_ip")
  | Thrown e => Thrown e
  end.

Definition await_status (host : value) (timeout : Z)
  : js Bot GameServerStatus :=
  r <- perform (McStatus host 25565 timeout) ;;
  match r with
  | StatusOk st => ret st
  | StatusErr e => throw e
  end.

Section Bot.
Variable env : process_env.
(** [path.join(__dirname, '..', 'config.json')] *)
Variable configPath : string.

(** [{ notificationChannelId: process.env.NOTIFICATION_CHANNEL_ID || null }] *)
Definition default_config : list (string * value) :=
  [("notificationChannelId",
    js_or (env_var (NOTIFICATION_CHANNEL_ID env)) JNull)].

(** The [try] block that runs when the module is loaded, on [config]. *)
Definition load_config : js (list (string * value)) unit :=
  try_catch
    (present <- perform (ExistsSync configPath) ;;
     if (present : bool) then
       r <- perform (ReadFileSync configPath) ;;
       text <- match r with
               | ReadOk text => ret text
               | ReadErr e => throw e
               end ;;
       fileConfig <- match JSON_parse text with
                     | Some v => ret v
                     | None => throw SyntaxError
                     end ;;
       config <- get ;;
       put (spread config fileConfig)
     else ret tt)
    (fun error =>
       perform (ConsoleError "Error loading config file:"
                  (JStr (message error)))).

(** The bot as the module leaves it once loaded. *)
Definition start_bot : prog Bot :=
  pbind (load_config default_config) (fun r =>
    Ret (mkBot (new_client (API_BASE_URL env) (API_USERNAME env)
                  (API_PASSWORD env))
               (snd r))).

Definition saveConfig : js Bot unit :=
  try_catch
    (b <- get ;;
     r <- perform (WriteFileSync configPath (JSON_stringify (JObj (config b)))) ;;
     match r with
     | WriteOk => ret tt
     | WriteErr e => throw e
     | WriteCut e _ => throw e
     end)
    (fun error =>
       perform (ConsoleError "Error saving config file:"
                  (JStr (message error)))).

Definition sendNotification (embed : Embed) : js Bot unit :=
  b <- get ;;
  let channelId :=
    js_or (match assoc "notificationChannelId" (config b) with
           | Some v => v
           | None => JUndefined
           end)
          (env_var (NOTIFICATION_CHANNEL_ID env)) in
  if negb (truthy channelId) then ret tt
  else
    try_catch
      (r <- perform (ChannelsFetch channelId) ;;
       match r with
       | FetchErr e => throw e
       | FetchOk present text_based =>
           if present && text_based then
             sent <- perform (ChannelSend channelId embed) ;;
             match sent with
             | WriteOk => ret tt
             | WriteErr e => throw e
             | WriteCut e _ => throw e
             end
           else ret tt
       end)
      (fun error =>
         perform (ConsoleError "Failed to send notification:"
                    (JStr (message error)))).

Definition hasPermission (interaction : Interaction) : bool :=
  if truthy (env_var (ALLOWED_ROLE_ID env)) then
    existsb (String.eqb (to_string (env_var (ALLOWED_ROLE_ID env))))
      (member_roles interaction)
  else if truthy (env_var (ADMIN_USER_IDS env)) then
    existsb (String.eqb (user_id interaction))
      (split_on "," (to_string (env_var (ADMIN_USER_IDS env))))
  else is_administrator interaction.

Definition handleSetNotificationChannel (interaction : Interaction)
  : js Bot unit :=
  if negb (hasPermission interaction) then
    perform (ReplyContent "You do not have permission to use this command."
               true)
  else
    b <- get ;;
    put (mkBot (apiClient b)
           (set_field "notificationChannelId"
              (JStr (channel_id interaction)) (config b))) ;;;
    saveConfig ;;;
    perform (Reply
      (mkEmbed "#00ff00" "✅ Notification Channel Set"
         ("Server notifications will now be posted to <#"
          ++ channel_id interaction ++ ">")
         [mkField "Channel" ("<#" ++ channel_id interaction ++ ">") true;
          mkField "Set By" ("<@" ++ user_id interaction ++ ">") true])) ;;;
    sendNotification
      (mkEmbed "#0099ff" "🔔 Notifications Enabled"
         "This channel will receive server start/stop notifications." []).

(** ** src/index.js: the status reconciler *)

(** [process.env.SERVER_HOSTNAME || result.outputs.public_ip] *)
Definition server_address (public_ip : value) : value :=
  js_or (env_var (SERVER_HOSTNAME env)) public_ip.

Definition handlePingServer : js Bot unit :=
  perform DeferReply ;;;
  try_catch
    (result <- on_client getResources ;;
     public_ip <- of_completion (public_ip_of result) ;;
     if negb (truthy public_ip) then perform (EditReply offlineEmbed)
     else
       let serverAddress := server_address public_ip in
       startTime <- perform DateNow ;;
       serverStatus <- await_status serverAddress 5000 ;;
       endTime <- perform DateNow ;;
       perform (EditReply
                  (onlineEmbed serverAddress serverStatus
                     (endTime - startTime))))
    (fun error =>
       perform (ConsoleError "Error pinging Minecraft server:"
                  (error_value error)) ;;;
       perform (EditReply (errorEmbed error))).

Definition updateBotStatus : js Bot unit :=
  try_catch
    (result <- on_client getResources ;;
     public_ip <- of_completion (public_ip_of result) ;;
     if negb (truthy public_ip) then
       perform (SetPresence "🔴 Server Offline" 3 "idle")
     else
       let serverAddress := server_address public_ip in
       try_catch
         (serverStatus <- await_status serverAddress 3000 ;;
          perform (SetPresence
                     ("🟢 " ++ string_of_Z (players_online serverStatus)
                      ++ "/" ++ string_of_Z (players_max serverStatus)
                      ++ " players") 3 "online"))
         (fun _ => perform (SetPresence "🟡 Server Starting..." 3 "dnd")))
    (fun error =>
       perform (ConsoleError "Error updating bot status:"
                  (JStr (message error)))).
End Bot.

(** ** The presentation state *)

Inductive presentation : Type := Offline | Starting | Online.

(** The state an embed of the on-demand path shows, by its title. *)
Definition embed_state (e : Embed) : option presentation :=
  if String.eqb (title e) "🔴 Server Offline" then Some Offline
  else if String.eqb (title e) "⚠️ Cannot Reach Server" then Some Starting
  else if String.eqb (title e) "🟢 Server Online" then Some Online
  else None.

(** The state a presence of the periodic path shows, by its status. *)
Definition presence_state (status : string) : option presentation :=
  if String.eqb status "idle" then Some Offline
  else if String.eqb status "dnd" then Some Starting
  else if String.eqb status "online" then Some Online
  else None.

(** The states a trace shows, in order: each edited reply and each
    presence. *)
Fixpoint shown (tr : list obs) : list (option presentation) :=
  match tr with
  | [] => []
  | Obs e _ :: tr' =>
      match e with
      | EditReply em => embed_state em :: shown tr'
      | SetPresence _ _ st => presence_state st :: shown tr'
      | _ => shown tr'
      end
  end.

(** The hint of an embed: its [Status] field. *)
Definition hint (e : Embed) : option string :=
  match List.find (fun f => String.eqb (field_name f) "Status") (fields e) with
  | Some f => Some (field_value f)
  | None => None
  end.

Fixpoint replies (tr : list obs) : list Embed :=
  match tr with
  | [] => []
  | Obs e _ :: tr' =>
      match e with
      | EditReply em => em :: replies tr'
      | _ => replies tr'
      end
  end.

(** The game-protocol queries of a trace: host, port and timeout. *)
Fixpoint queries (tr : list obs) : list (value * Z * Z) :=
  match tr with
  | [] => []
  | Obs e _ :: tr' =>
      match e with
      | McStatus host port timeout => (host, port, timeout) :: queries tr'
      | _ => queries tr'
      end
  end.

(** The answer the first game-protocol query of a trace got. *)
Fixpoint query_answer (tr : list obs) : option status_outcome :=
  match tr with
  | [] => None
  | Obs e x :: tr' =>
      match e in event T return T -> option status_outcome with
      | McStatus _ _ _ => fun r => Some r
      | _ => fun _ => query_answer tr'
      end x
  end.

(** What was written to a file, with the answer, in order. *)
Fixpoint writes (path : string) (tr : list obs)
  : list (string * write_outcome) :=
  match tr with
  | [] => []
  | Obs e x :: tr' =>
      match e in event T return T -> list (string * write_outcome) with
      | WriteFileSync p text =>
          fun r => if String.eqb p path then (text, r) :: writes path tr'
                   else writes path tr'
      | _ => fun _ => writes path tr'
      end x
  end.

(** ** The file system behind the events *)

(** The files: what each path holds, if anything. *)
Definition disk : Type := string -> option string.

Definition write_file (d : disk) (path text : string) : disk :=
  fun p => if String.eqb p path then Some text else d p.

(** The files after a trace: each write that succeeded is there, a write
    that failed before its file was opened left the file as it was, and one
    that failed afterwards left what the answer says. *)
Fixpoint disk_after (tr : list obs) (d : disk) : disk :=
  match tr with
  | [] => d
  | Obs e x :: tr' =>
      match e in event T return T -> disk with
      | WriteFileSync p text =>
          fun r => match r with
                   | WriteOk => disk_after tr' (write_file d p text)
                   | WriteErr _ => disk_after tr' d
                   | WriteCut _ kept => disk_after tr' (write_file d p kept)
                   end
      | _ => fun _ => disk_after tr' d
      end x
  end.

(** A world whose file system, at the two steps with which a load starts,
    answers from the files [d]. *)
Definition reads_disk (d : disk) (path : string) (w : world) (i : nat)
  : Prop :=
  match d path with
  | Some text => exists_at w i = true /\ read_at w (S i) = ReadOk text
  | None => exists_at w i = false
  end.

(** The configurations the bot can hold: the one loaded at startup, and
    what the configuration command makes of one it can hold. *)
Inductive config_reachable (env : process_env) (configPath : string)
  : list (string * value) -> Prop :=
| config_loaded (w : world) (i : nat) :
    config_reachable env configPath
      (config (snd (run w i (start_bot env configPath))))
| config_set (cfg : list (string * value)) (s : Session) (w : world)
    (i : nat) (interaction : Interaction) :
    config_reachable env configPath cfg ->
    config_reachable env configPath
      (config (snd (snd (run w i
         (handleSetNotificationChannel env configPath interaction
            (mkBot s cfg)))))).

(** ** The reconciler once [getResources] has completed *)

(** Traces of the API client: the clock, axios and [console.error]. *)
Definition client_obs (o : obs) : bool :=
  match o with
  | Obs e _ =>
      match e with
      | DateNow | AxiosPost _ _ _ _ | AxiosGet _ _ | ConsoleError _ _ => true
      | _ => false
      end
  end.

(** The [catch] block of [handlePingServer], from step [j]. *)
Definition ping_failed (error : js_error) (b : Bot)
  : list obs * (completion unit * Bot) :=
  ([Obs (ConsoleError "Error pinging Minecraft server:" (error_value error)) tt;
    Obs (EditReply (errorEmbed error)) tt],
   (Normal tt, b)).

(** [handlePingServer] from the completion of [getResources], at step
    [j]. *)
Definition ping_after (env : process_env) (w : world) (j : nat) (b : Bot)
    (got : completion value) : list obs * (completion unit * Bot) :=
  match got with
  | Thrown e => ping_failed e b
  | Normal result =>
      match public_ip_of result with
      | Thrown e => ping_failed e b
      | Normal public_ip =>
          if negb (truthy public_ip) then
            ([Obs (EditReply offlineEmbed) tt], (Normal tt, b))
          else
            let query := McStatus (server_address env public_ip) 25565 5000 in
            match status_at w (S j) with
            | StatusErr e =>
                (Obs DateNow (now_at w j) :: Obs query (StatusErr e)
                   :: fst (ping_failed e b),
                 snd (ping_failed e b))
            | StatusOk st =>
                ([Obs DateNow (now_at w j); Obs query (StatusOk st);
                  Obs DateNow (now_at w (S (S j)));
                  Obs (EditReply
                         (onlineEmbed (server_address env public_ip) st
                            (now_at w (S (S j)) - now_at w j))) tt],
                 (Normal tt, b))
            end
      end
  end.

(** [updateBotStatus] from the completion of [getResources], at step [j]. *)
Definition status_after (env : process_env) (w : world) (j : nat) (b : Bot)
    (got : completion value) : list obs * (completion unit * Bot) :=
  let failed (e : js_error) :=
    ([Obs (ConsoleError "Error updating bot status:" (JStr (message e))) tt],
     (@Normal unit tt, b)) in
  match got with
  | Thrown e => failed e
  | Normal result =>
      match public_ip_of result with
      | Thrown e => failed e
      | Normal public_ip =>
          if negb (truthy public_ip) then
            ([Obs (SetPresence "🔴 Server Offline" 3 "idle") tt],
             (Normal tt, b))
          else
            let query := McStatus (server_address env public_ip) 25565 3000 in
            match status_at w j with
            | StatusErr e =>
                ([Obs query (StatusErr e);
                  Obs (SetPresence "🟡 Server Starting..." 3 "dnd") tt],
                 (Normal tt, b))
            | StatusOk st =>
                ([Obs query (StatusOk st);
                  Obs (SetPresence
                         ("🟢 " ++ string_of_Z (players_online st) ++ "/"
                          ++ string_of_Z (players_max st) ++ " players")
                         3 "online") tt],
                 (Normal tt, b))
            end
      end
  end.

(** ** What a resource snapshot says *)

(** The [public_ip] entry of the outputs of a snapshot: there is one when
    the snapshot is an object whose [outputs] is an object with that key. *)
Definition public_ip_entry (result : value) : option value :=
  match result with
  | JObj fs =>
      match assoc "outputs" fs with
      | Some (JObj outputs) => assoc "public_ip" outputs
      | _ => None
      end
  | _ => None
  end.

(** The URL of [getResources] for a bot. *)
Definition resources_url (b : Bot) : string :=
  baseURL (apiClient b) ++ "/tetracubed/resources".

(** ** Bots and worlds to evaluate the reconciler on *)

Definition example_env (hostname : option string) : process_env :=
  mkEnv "https://api.example" "fox" "secret" (Some "999") None None hostname.

(** A bot that holds a token good until 5000. *)
Definition example_bot : Bot :=
  mkBot (set_token (JStr "abc") 5000 example_client)
        [("notificationChannelId", JStr "999")].

Definition provisioned (ip : string) : value :=
  JObj [("stack_name", JStr "tetracubed");
        ("outputs", JObj [("public_ip", JStr ip);
                          ("ecs_cluster_name", JStr "cluster")])].

Definition unprovisioned : value :=
  JObj [("message", JStr "No resources found")].

Definition refused : js_error :=
  mkError "connect ECONNREFUSED 1.2.3.4:25565" (JStr "ECONNREFUSED")
    JUndefined.

(** What [status] of minecraft-server-util rejects with when the time it
    was given runs out: an [Error] with this message and no code. *)
Definition timed_out : js_error :=
  mkError "Server is offline or unreachable" JUndefined JUndefined.

(** The clock stands at 1000, the control plane answers every request with
    [snapshot], the game server answers every query with [answer]. *)
Definition reconciler_world (snapshot : value) (answer : status_outcome)
  : world :=
  mkWorld (fun _ => 1000) (fun _ => HttpOk snapshot) (fun _ => answer)
    (fun _ => false) (fun _ => ReadOk "") (fun _ => WriteOk)
    (fun _ => FetchOk true true).

Definition with_files (present : bool) (content : read_outcome) (w : world)
  : world :=
  mkWorld (now_at w) (http_at w) (status_at w) (fun _ => present)
    (fun _ => content) (write_at w) (fetch_at w).

Definition an_admin (channel : string) : Interaction :=
  mkInteraction "42" [] true channel.

(** ** More readings of traces *)

(** The headers of the first request to [url] in a trace. *)
Fixpoint request_headers (url : string) (tr : list obs)
  : option (list (string * string)) :=
  match tr with
  | [] => None
  | Obs e _ :: tr' =>
      match e with
      | AxiosPost u _ hs _ =>
          if String.eqb u url then Some hs else request_headers url tr'
      | AxiosGet u hs =>
          if String.eqb u url then Some hs else request_headers url tr'
      | _ => request_headers url tr'
      end
  end.

(** How many requests a trace makes to [url]. *)
Definition requests_to (url : string) (tr : list obs) : nat :=
  List.length (List.filter (is_request url) tr).

(** A request that posts a form: the body of [authenticate], with the
    password in it. *)
Definition posts_form (o : obs) : bool :=
  match o with
  | Obs e _ =>
      match e with
      | AxiosPost _ (FormParams _) _ _ => true
      | _ => false
      end
  end.

(** The token requests of a whole log. *)
Fixpoint authenticate_calls_of_log (b : string)
    (log : list (Session * list obs * Session)) : nat :=
  match log with
  | [] => O
  | (_, tr, _) :: log' =>
      (authenticate_calls b tr + authenticate_calls_of_log b log')%nat
  end.

(** The channels a trace fetched, and what it sent to which channel. *)
Fixpoint fetches (tr : list obs) : list value :=
  match tr with
  | [] => []
  | Obs e _ :: tr' =>
      match e with
      | ChannelsFetch id => id :: fetches tr'
      | _ => fetches tr'
      end
  end.

Fixpoint sends (tr : list obs) : list (value * Embed) :=
  match tr with
  | [] => []
  | Obs e _ :: tr' =>
      match e with
      | ChannelSend id em => (id, em) :: sends tr'
      | _ => sends tr'
      end
  end.

(** [config.notificationChannelId || process.env.NOTIFICATION_CHANNEL_ID] *)
Definition notification_channel (env : process_env) (b : Bot) : value :=
  js_or (match assoc "notificationChannelId" (config b) with
         | Some v => v
         | None => JUndefined
         end)
        (env_var (NOTIFICATION_CHANNEL_ID env)).

(** The keys of the properties a list holds, in order. *)
Definition keys (fs : list (string * value)) : list string :=
  List.map fst fs.

(** A world whose file system answers from the files [d], at every step. *)
Definition world_of_disk (d : disk) (path : string) (w : world) : world :=
  with_files (match d path with Some _ => true | None => false end)
    (match d path with
     | Some text => ReadOk text
     | None => ReadErr (mkError "ENOENT" (JStr "ENOENT") JUndefined)
     end) w.

Definition no_files : disk := fun _ => None.

Definition with_writes (o : nat -> write_outcome) (w : world) : world :=
  mkWorld (now_at w) (http_at w) (status_at w) (exists_at w) (read_at w) o
    (fetch_at w).

Definition with_fetch (o : nat -> fetch_outcome) (w : world) : world :=
  mkWorld (now_at w) (http_at w) (status_at w) (exists_at w) (read_at w)
    (write_at w) o.

Definition disk_full : js_error :=
  mkError "ENOSPC: no space left on device, write" (JStr "ENOSPC") JUndefined.

(** The embeds a trace replied with ([interaction.reply], not an edit). *)
Fixpoint announced (tr : list obs) : list Embed :=
  match tr with
  | [] => []
  | Obs e _ :: tr' =>
      match e with
      | Reply em => em :: announced tr'
      | _ => announced tr'
      end
  end.

(** No element of the list holds the separator. *)
Fixpoint free_of (sep : ascii) (s : string) : bool :=
  match s with
  | EmptyString => true
  | String c s' => negb (Ascii.eqb c sep) && free_of sep s'
  end.

(** The presences a trace set: activity, activity type and status. *)
Fixpoint presences (tr : list obs) : list (string * Z * string) :=
  match tr with
  | [] => []
  | Obs e _ :: tr' =>
      match e with
      | SetPresence activity type status =>
          (activity, type, status) :: presences tr'
      | _ => presences tr'
      end
  end.

(** The value of the field of an embed with a given name. *)
Definition field_of (name : string) (e : Embed) : option string :=
  match List.find (fun f => String.eqb (field_name f) name) (fields e) with
  | Some f => Some (field_value f)
  | None => None
  end.

Definition answered (players : Z) (sample : option (list string))
  : GameServerStatus :=
  mkStatus (Some "A Minecraft Server") players 20 sample "1.20.4" 765.

(** The labels of the lines a trace logged with [console.error]. *)
Fixpoint labels (tr : list obs) : list string :=
  match tr with
  | [] => []
  | Obs e _ :: tr' =>
      match e with
      | ConsoleError l _ => l :: labels tr'
      | _ => labels tr'
      end
  end.

(** ** src/index.js: the start and stop commands *)

(** The embeds of [handleStart] and [handleStop]; as everywhere, an embed
    is kept by its colour, title, description and fields: the footer of the
    two progress embeds and the timestamps are not part of [Embed]. *)
Definition startEmbed (user : string) : Embed :=
  mkEmbed "#ffaa00" "⏳ Starting Tetracubed Server"
    "Please wait while the server provisions..."
    [mkField "Status" "🔄 Provisioning AWS infrastructure" false;
     mkField "Estimated Time" "10-15 minutes" true;
     mkField "Started By" ("<@" ++ user ++ ">") true].

Definition startedEmbed (serverAddress : value) (user : string) : Embed :=
  mkEmbed "#00ff00" "✅ Server Started Successfully!"
    ("**The Minecraft server is now online!**" ++ String LF (String LF
       ("Connect using: `" ++ to_string serverAddress ++ "`")))
    [mkField "🌐 Server Address"
       ("`" ++ to_string (js_or serverAddress (JStr "N/A")) ++ "`") true;
     mkField "👤 Started By" ("<@" ++ user ++ ">") true;
     mkField "⏱️ Time Taken" "~10-15 min" true;
     mkField "📋 Next Steps"
       ("• Open Minecraft" ++ String LF
          ("• Go to Multiplayer" ++ String LF
             ("• Add Server with the address above" ++ String LF
                "• Join and play!"))) false].

Definition stopEmbed (user : string) : Embed :=
  mkEmbed "#ffaa00" "⏳ Stopping Tetracubed Server"
    "Please wait while the server shuts down safely..."
    [mkField "Status" "🔄 Saving world data and deprovisioning" false;
     mkField "Estimated Time" "5-10 minutes" true;
     mkField "Stopped By" ("<@" ++ user ++ ">") true].

Definition stoppedEmbed (user : string) : Embed :=
  mkEmbed "#ff6600" "✅ Server Stopped Successfully"
    ("**The Minecraft server has been shut down.**" ++ String LF (String LF
       "World data has been safely saved to S3."))
    [mkField "💾 Status" "World data backed up" true;
     mkField "👤 Stopped By" ("<@" ++ user ++ ">") true;
     mkField "⏱️ Time Taken" "~5-10 min" true;
     mkField "🔄 Restart" "Use `/start` when you want to play again" false].

Section Commands.
Variable env : process_env.

(** [process.env.SERVER_HOSTNAME || result.public_ip]: the result is read
    only when no hostname is configured. *)
Definition started_address (result : value) : completion value :=
  if truthy (env_var (SERVER_HOSTNAME env)) then
    Normal (env_var (SERVER_HOSTNAME env))
  else get_prop result "public_ip".

Definition handleStart (interaction : Interaction) : js Bot unit :=
  if negb (hasPermission env interaction) then
    perform (ReplyContent "You do not have permission to use this command."
               true)
  else
    perform DeferReply ;;;
    perform (EditReply (startEmbed (user_id interaction))) ;;;
    result <- on_client startServer ;;
    serverAddress <- of_completion (started_address result) ;;
    let successEmbed := startedEmbed serverAddress (user_id interaction) in
    perform (EditReply successEmbed) ;;;
    sendNotification env successEmbed.

Definition handleStop (interaction : Interaction) : js Bot unit :=
  if negb (hasPermission env interaction) then
    perform (ReplyContent "You do not have permission to use this command."
               true)
  else
    perform DeferReply ;;;
    perform (EditReply (stopEmbed (user_id interaction))) ;;;
    _ <- on_client stopServer ;;
    let successEmbed := stoppedEmbed (user_id interaction) in
    perform (EditReply successEmbed) ;;;
    sendNotification env successEmbed.
End Commands.

(** The two commands that change the server, and what tells them apart. *)
Inductive power_command : Type := CmdStart | CmdStop.

Definition command_op (c : power_command) : api_op :=
  match c with
  | CmdStart => OpStart
  | CmdStop => OpStop
  end.

Definition handle_power (env : process_env) (c : power_command)
  : Interaction -> js Bot unit :=
  match c with
  | CmdStart => handleStart env
  | CmdStop => handleStop env
  end.

Definition progress_embed (c : power_command) (user : string) : Embed :=
  match c with
  | CmdStart => startEmbed user
  | CmdStop => stopEmbed user
  end.

(** The URL a command posts to, for a bot. *)
Definition command_url (c : power_command) (b : Bot) : string :=
  baseURL (apiClient b) ++ op_path (command_op c).

Definition started (ip : string) : value :=
  JObj [("message", JStr "Server started"); ("public_ip", JStr ip)].

(** ** The reconciler, from the call of [getResources] on *)

(** What [getResources] returns when the bot calls it at step [i], and the
    steps the call takes. *)
Definition resources_got (w : world) (i : nat) (b : Bot) : completion value :=
  fst (snd (run w i (getResources (apiClient b)))).

Definition resources_steps (w : world) (i : nat) (b : Bot) : nat :=
  List.length (fst (run w i (getResources (apiClient b)))).

(** The step at which a run of [handlePingServer] from step [i] queries the
    game server: the reply is deferred, [getResources] runs, the clock is
    read, and the query follows.  [updateBotStatus] queries right after
    [getResources]. *)
Definition ping_query_step (w : world) (i : nat) (b : Bot) : nat :=
  S (S i + resources_steps w (S i) b).

Definition status_query_step (w : world) (i : nat) (b : Bot) : nat :=
  (i + resources_steps w i b)%nat.

(** The three hints of the [catch] block of [handlePingServer]. *)
Definition timeout_hint : string := "Starting up or not responding".
Definition refused_hint : string := "Server process not started".
Definition generic_hint : string := "Server may be starting up or offline".

(** Errors of the game-protocol query: a name that does not resolve, and a
    connection attempt the operating system gave up on. *)
Definition not_found : js_error :=
  mkError "getaddrinfo ENOTFOUND mc.example" (JStr "ENOTFOUND") JUndefined.

Definition connect_timed_out : js_error :=
  mkError "connect ETIMEDOUT 1.2.3.4:25565" (JStr "ETIMEDOUT") JUndefined.

Definition empty_outputs : value :=
  JObj [("stack_name", JStr "tetracubed"); ("outputs", JObj [])].

Definition null_public_ip : value :=
  JObj [("outputs", JObj [("public_ip", JNull)])].

(** ** JSON text: the grammar, and the values the model holds exactly *)

(** The grammar of JSON, numbers with their fractions and exponents
    included: what is left of the text after one value, if the text starts
    with one.  [JSON.parse] throws its [SyntaxError] exactly on the texts
    that are not one value between white space. *)
Definition valid_exponent (s : string) : option string :=
  match s with
  | EmptyString => Some s
  | String c r =>
      if Ascii.eqb c "e" || Ascii.eqb c "E" then
        let r1 := match r with
                  | String d r' =>
                      if Ascii.eqb d "+" || Ascii.eqb d "-" then r' else r
                  | EmptyString => r
                  end in
        match fst (span_digits r1) with
        | EmptyString => None
        | String _ _ => Some (snd (span_digits r1))
        end
      else Some s
  end.

Definition valid_number (s : string) : option string :=
  let s1 := match s with
            | String c s' => if Ascii.eqb c "-" then s' else s
            | EmptyString => s
            end in
  let ds := fst (span_digits s1) in
  let rest := snd (span_digits s1) in
  if canonical ds then
    match rest with
    | EmptyString => Some rest
    | String c r =>
        if Ascii.eqb c "." then
          match fst (span_digits r) with
          | EmptyString => None
          | String _ _ => valid_exponent (snd (span_digits r))
          end
        else valid_exponent rest
    end
  else None.

Fixpoint valid_value (fuel : nat) (s : string) : option string :=
  match fuel with
  | O => None
  | S f =>
      match skip_ws s with
      | EmptyString => None
      | String c rest =>
          if Ascii.eqb c dquote then
            match parse_string_body rest with
            | Some (_, r) => Some r
            | None => None
            end
          else if Ascii.eqb c "{" then
            match skip_ws rest with
            | String c' r =>
                if Ascii.eqb c' "}" then Some r else valid_members f rest
            | EmptyString => None
            end
          else if Ascii.eqb c "[" then
            match skip_ws rest with
            | String c' r =>
                if Ascii.eqb c' "]" then Some r else valid_elements f rest
            | EmptyString => None
            end
          else if Ascii.eqb c "n" then strip_prefix "null" (String c rest)
          else if Ascii.eqb c "t" then strip_prefix "true" (String c rest)
          else if Ascii.eqb c "f" then strip_prefix "false" (String c rest)
          else valid_number (String c rest)
      end
  end

with valid_members (fuel : nat) (s : string) : option string :=
  match fuel with
  | O => None
  | S f =>
      match skip_ws s with
      | EmptyString => None
      | String c rest =>
          if Ascii.eqb c dquote then
            match parse_string_body rest with
            | None => None
            | Some (_, r1) =>
                match skip_ws r1 with
                | EmptyString => None
                | String c1 r2 =>
                    if Ascii.eqb c1 ":" then
                      match valid_value f r2 with
                      | None => None
                      | Some r3 =>
                          match skip_ws r3 with
                          | EmptyString => None
                          | String c3 r4 =>
                              if Ascii.eqb c3 "," then valid_members f r4
                              else if Ascii.eqb c3 "}" then Some r4
                              else None
                          end
                      end
                    else None
                end
            end
          else None
      end
  end

with valid_elements (fuel : nat) (s : string) : option string :=
  match fuel with
  | O => None
  | S f =>
      match valid_value f s with
      | None => None
      | Some r =>
          match skip_ws r with
          | EmptyString => None
          | String c r' =>
              if Ascii.eqb c "," then valid_elements f r'
              else if Ascii.eqb c "]" then Some r'
              else None
          end
      end
  end.

Definition JSON_valid (s : string) : bool :=
  match valid_value (2 * String.length s + 2) s with
  | Some rest =>
      match skip_ws rest with
      | EmptyString => true
      | String _ _ => false
      end
  | None => false
  end.

(** The values on which the model and [JSON.parse], [JSON.stringify] and
    the order of keys agree to the letter: integers that a double holds
    exactly and prints in full, text in ASCII, and no key made of digits
    alone (such keys are enumerated first, in numeric order). *)
Definition safe_integer (z : Z) : bool := Z.leb (Z.abs z) 9007199254740991.

Fixpoint ascii_text (s : string) : bool :=
  match s with
  | EmptyString => true
  | String c s' => N.ltb (N_of_ascii c) 128 && ascii_text s'
  end.

Fixpoint digits_only (s : string) : bool :=
  match s with
  | EmptyString => true
  | String c s' => is_digit c && digits_only s'
  end.

Definition plain_key (k : string) : bool :=
  ascii_text k && negb (string_nonempty k && digits_only k).

Fixpoint plain (v : value) : bool :=
  match v with
  | JUndefined => false
  | JNull | JBool _ => true
  | JNum z => safe_integer z
  | JStr s => ascii_text s
  | JArr xs =>
      (fix all (l : list value) : bool :=
         match l with
         | [] => true
         | x :: l' => plain x && all l'
         end) xs
  | JObj fs =>
      (fix all (l : list (string * value)) : bool :=
         match l with
         | [] => true
         | (k, x) :: l' => plain_key k && plain x && all l'
         end) fs
  end.

(** A write of the configuration that is cut short and leaves the file
    empty, and a configuration file with more in it than the channel. *)
Definition cut_short : write_outcome := WriteCut disk_full "".

Definition file_with_prefix : string :=
  JSON_stringify (JObj [("notificationChannelId", JStr "123");
                        ("prefix", JStr "!")]).

(** A file the process may not open for writing. *)
Definition read_only : js_error :=
  mkError "EACCES: permission denied, open 'config.json'" (JStr "EACCES")
    JUndefined.

Definition saved_before : disk :=
  write_file no_files "config.json" file_with_prefix.

(** * Properties *)

(** ** Strings and URLs *)

Lemma append_inj_l (b x y : string) : b ++ x = b ++ y -> x = y.
Proof.
  induction b as [|c b IH]; simpl; intros H.
  - exact H.
  - injection H as H. exact (IH H).
Qed.

Lemma op_url_not_token (b : string) (op : api_op) :
  String.eqb (b ++ op_path op) (b ++ "/token") = false.
Proof.
  apply String.eqb_neq. intros H. apply append_inj_l in H.
  destruct op; discriminate H.
Qed.

(** ** The API client, one call at a time *)

Lemma authenticate_outcome (w : world) (i : nat) (s : Session) :
  let r := run w i (authenticate s) in
  (exists d tok,
      http_at w i = HttpOk d /\ get_prop d "access_token" = Normal tok /\
      fst r = [Obs (AxiosPost (baseURL s ++ "/token")
                      (FormParams [("username", username s);
                                   ("password", password s)])
                      [("Content-Type", "application/x-www-form-urlencoded")]
                      None) (HttpOk d);
               Obs DateNow (now_at w (S i))] /\
      snd r = (Normal true,
               set_token tok (now_at w (S i) + REFRESH_AFTER_MS) s))
  \/
  (exists ans error,
      http_at w i = ans /\
      fst r = [Obs (AxiosPost (baseURL s ++ "/token")
                      (FormParams [("username", username s);
                                   ("password", password s)])
                      [("Content-Type", "application/x-www-form-urlencoded")]
                      None) ans;
               Obs (ConsoleError "Authentication failed:" (error_detail error))
                   tt] /\
      (ans = HttpErr error \/
       exists d, ans = HttpOk d /\
                 get_prop d "access_token" = Thrown error) /\
      snd r = (Thrown (new_Error (JStr AUTH_FAILED)), s)).
Proof.
  cbn. destruct (http_at w i) as [d|error] eqn:Hh.
  - destruct (get_prop d "access_token") as [tok|error] eqn:Hg; cbn.
    + left. exists d, tok. rewrite Hg. cbn. auto.
    + right. exists (HttpOk d), error. rewrite Hg. cbn.
      repeat split; eauto.
  - right. exists (HttpErr error), error. cbn. repeat split; auto.
Qed.

Lemma run_pbind {A B : Type} (w : world) (p : prog A) (f : A -> prog B) :
  forall i,
    run w i (pbind p f) =
    (fst (run w i p)
       ++ fst (run w (i + List.length (fst (run w i p))) (f (snd (run w i p)))),
     snd (run w (i + List.length (fst (run w i p))) (f (snd (run w i p)))))%list.
Proof.
  induction p as [a|X e k IH]; intros i; cbn [pbind run fst snd].
  - cbn. rewrite Nat.add_0_r. destruct (run w i (f a)); reflexivity.
  - rewrite IH. cbn [List.length app]. rewrite Nat.add_succ_r. reflexivity.
Qed.

Lemma run_bind {S A B : Type} (w : world) (m : js S A) (f : A -> js S B)
    (s : S) (i : nat) :
  run w i (bind m f s) =
  match snd (run w i (m s)) with
  | (Normal a, s') =>
      (fst (run w i (m s))
         ++ fst (run w (i + List.length (fst (run w i (m s)))) (f a s')),
       snd (run w (i + List.length (fst (run w i (m s)))) (f a s')))%list
  | (Thrown e, s') => (fst (run w i (m s)), (Thrown e, s'))
  end.
Proof.
  unfold bind. rewrite run_pbind.
  destruct (snd (run w i (m s))) as [[a|e] s']; cbn.
  - reflexivity.
  - rewrite app_nil_r. reflexivity.
Qed.

Lemma call_guarded (op : api_op) :
  call op = (ensureAuthenticated ;;; op_request op).
Proof. destruct op; reflexivity. Qed.

Lemma op_request_outcome (w : world) (i : nat) (op : api_op) (s : Session) :
  run w i (op_request op s) =
  match http_at w i with
  | HttpOk d => ([Obs (op_event op s) (HttpOk d)], (Normal d, s))
  | HttpErr error =>
      ([Obs (op_event op s) (HttpErr error);
        Obs (ConsoleError (op_label op) (error_detail error)) tt],
       (Thrown (new_Error (detail_or error (op_fallback op))), s))
  end.
Proof.
  destruct op; cbn; destruct (http_at w i); reflexivity.
Qed.

(** The guard with a held, unexpired token: one clock reading, nothing
    else. *)
Lemma ensure_fresh (w : world) (i : nat) (s : Session) :
  token_held s = true ->
  expired (now_at w i) (tokenExpiry s) = false ->
  run w i (ensureAuthenticated s) = ([Obs DateNow (now_at w i)], (Normal tt, s)).
Proof.
  unfold token_held. intros Ht He. cbn. rewrite Ht. cbn. rewrite He.
  reflexivity.
Qed.

Lemma run_discard (w : world) (i : nat) (s : Session) :
  run w i ((authenticate ;;; ret tt) s) =
  (fst (run w i (authenticate s)), discard (snd (run w i (authenticate s)))).
Proof.
  rewrite run_bind.
  destruct (snd (run w i (authenticate s))) as [[a|e] s']; cbn -[authenticate].
  - rewrite app_nil_r. reflexivity.
  - reflexivity.
Qed.

Lemma ensure_no_token (w : world) (i : nat) (s : Session) :
  token_held s = false ->
  run w i (ensureAuthenticated s) =
  (fst (run w i (authenticate s)), discard (snd (run w i (authenticate s)))).
Proof.
  intros Ht. rewrite <- run_discard.
  change (ensureAuthenticated s) with
    ((if negb (token_held s) then authenticate ;;; ret tt
      else (now <- perform DateNow ;;
            if expired now (tokenExpiry s) then authenticate ;;; ret tt
            else ret tt)) s).
  rewrite Ht. reflexivity.
Qed.

Lemma ensure_expired (w : world) (i : nat) (s : Session) :
  token_held s = true ->
  expired (now_at w i) (tokenExpiry s) = true ->
  run w i (ensureAuthenticated s) =
  (Obs DateNow (now_at w i) :: fst (run w (S i) (authenticate s)),
   discard (snd (run w (S i) (authenticate s)))).
Proof.
  intros Ht He.
  change (ensureAuthenticated s) with
    ((if negb (token_held s) then authenticate ;;; ret tt
      else (now <- perform DateNow ;;
            if expired now (tokenExpiry s) then authenticate ;;; ret tt
            else ret tt)) s).
  rewrite Ht. cbn [negb]. rewrite run_bind.
  change (run w i (perform DateNow s))
    with ([Obs DateNow (now_at w i)], (@Normal Z (now_at w i), s)).
  cbn [fst snd List.length]. rewrite He, Nat.add_1_r, run_discard.
  reflexivity.
Qed.

Lemma call_run (w : world) (i : nat) (op : api_op) (s : Session) :
  run w i (call op s) =
  match snd (run w i (ensureAuthenticated s)) with
  | (Normal _, s') =>
      (fst (run w i (ensureAuthenticated s))
         ++ fst (run w (i + List.length (fst (run w i (ensureAuthenticated s))))
                   (op_request op s')),
       snd (run w (i + List.length (fst (run w i (ensureAuthenticated s))))
              (op_request op s')))%list
  | (Thrown e, s') => (fst (run w i (ensureAuthenticated s)), (Thrown e, s'))
  end.
Proof. rewrite call_guarded. apply run_bind. Qed.

Lemma authenticate_calls_app (b : string) (t1 t2 : list obs) :
  authenticate_calls b (t1 ++ t2)%list
  = (authenticate_calls b t1 + authenticate_calls b t2)%nat.
Proof.
  unfold authenticate_calls. rewrite filter_app, length_app. reflexivity.
Qed.

Lemma authenticate_calls_request (w : world) (i : nat) (op : api_op)
    (s : Session) :
  authenticate_calls (baseURL s) (fst (run w i (op_request op s))) = 0%nat.
Proof.
  rewrite op_request_outcome.
  pose proof (op_url_not_token (baseURL s) op) as H.
  destruct (http_at w i); destruct op; unfold authenticate_calls;
    cbn in H |- *; rewrite H; reflexivity.
Qed.

Lemma authenticate_trace (w : world) (i : nat) (s : Session) :
  exists x o,
    fst (run w i (authenticate s)) = [Obs (token_event s) x; o]
    /\ is_request (baseURL s ++ "/token") o = false.
Proof.
  destruct (authenticate_outcome w i s) as
    [(d & tok & _ & _ & Htr & _) | (ans & error & _ & Htr & _ & _)];
    cbn zeta in Htr; rewrite Htr; eexists _, _; split; reflexivity.
Qed.

Lemma authenticate_state (w : world) (i : nat) (s : Session) :
  let s' := snd (snd (run w i (authenticate s))) in
  baseURL s' = baseURL s /\ username s' = username s
  /\ password s' = password s.
Proof.
  destruct (authenticate_outcome w i s) as
    [(d & tok & _ & _ & _ & Hr) | (ans & error & _ & _ & _ & Hr)];
    cbn zeta in Hr |- *; rewrite Hr; cbn; auto.
Qed.

Lemma discard_state {A : Type} (r : completion A * Session) :
  snd (discard r) = snd r.
Proof. destruct r as [[a|e] s]; reflexivity. Qed.

(** An operation that finds no token: the token request comes first, and it
    is the only one. *)
Lemma call_without_token (w : world) (i : nat) (op : api_op) (s : Session) :
  token_held s = false ->
  exists x rest,
    fst (run w i (call op s)) = Obs (token_event s) x :: rest
    /\ authenticate_calls (baseURL s) rest = 0%nat.
Proof.
  intros Ht. rewrite call_run, (ensure_no_token w i s Ht).
  destruct (authenticate_trace w i s) as (x & o & Htr & Ho).
  pose proof (authenticate_state w i s) as (Hb & _).
  cbn zeta in Hb. cbn [fst snd]. rewrite Htr.
  destruct (snd (run w i (authenticate s))) as [[a|e] s'];
    cbn [discard fst snd app] in *; exists x; eexists; (split; [reflexivity|]).
  - change (o :: ?t) with ([o] ++ t)%list.
    rewrite authenticate_calls_app, <- Hb, authenticate_calls_request.
    unfold authenticate_calls. cbn. rewrite Hb, Ho. reflexivity.
  - unfold authenticate_calls. cbn. rewrite Ho. reflexivity.
Qed.

(** An operation that finds a held token the clock has not yet caught up
    with: no token request at all. *)
Lemma call_with_fresh_token (w : world) (i : nat) (op : api_op)
    (s : Session) :
  token_held s = true ->
  expired (now_at w i) (tokenExpiry s) = false ->
  fst (run w i (call op s))
  = Obs DateNow (now_at w i) :: fst (run w (S i) (op_request op s))
  /\ snd (run w i (call op s)) = snd (run w (S i) (op_request op s))
  /\ authenticate_calls (baseURL s) (fst (run w i (call op s))) = 0%nat.
Proof.
  intros Ht He. rewrite call_run, (ensure_fresh w i s Ht He).
  cbn [fst snd List.length app]. rewrite Nat.add_1_r.
  repeat split.
  change (?o :: ?t) with ([o] ++ t)%list.
  rewrite authenticate_calls_app, authenticate_calls_request. reflexivity.
Qed.

(** An operation that finds a held token at or past its expiry: the clock is
    read, then one token request follows. *)
Lemma call_with_expired_token (w : world) (i : nat) (op : api_op)
    (s : Session) :
  token_held s = true ->
  expired (now_at w i) (tokenExpiry s) = true ->
  exists x rest,
    fst (run w i (call op s))
    = Obs DateNow (now_at w i) :: Obs (token_event s) x :: rest
    /\ authenticate_calls (baseURL s) rest = 0%nat.
Proof.
  intros Ht He. rewrite call_run, (ensure_expired w i s Ht He).
  destruct (authenticate_trace w (S i) s) as (x & o & Htr & Ho).
  pose proof (authenticate_state w (S i) s) as (Hb & _).
  cbn zeta in Hb. cbn [fst snd]. rewrite Htr.
  destruct (snd (run w (S i) (authenticate s))) as [[a|e] s'];
    cbn [discard fst snd app] in *; exists x; eexists; (split; [reflexivity|]).
  - change (o :: ?t) with ([o] ++ t)%list.
    rewrite authenticate_calls_app, <- Hb, authenticate_calls_request.
    unfold authenticate_calls. cbn. rewrite Hb, Ho. reflexivity.
  - unfold authenticate_calls. cbn. rewrite Ho. reflexivity.
Qed.

Lemma http_answer_app (url : string) (t1 t2 : list obs) :
  http_answer url (t1 ++ t2)%list =
  match http_answer url t1 with
  | Some r => Some r
  | None => http_answer url t2
  end.
Proof.
  induction t1 as [|[X e x] t1 IH]; [reflexivity|].
  destruct e; cbn; try exact IH; destruct (String.eqb url0 url); auto.
Qed.

Lemma token_url_not_op (b : string) (op : api_op) :
  String.eqb (b ++ "/token") (b ++ op_path op) = false.
Proof. rewrite String.eqb_sym. apply op_url_not_token. Qed.

Lemma authenticate_no_op_answer (w : world) (i : nat) (op : api_op)
    (s : Session) :
  http_answer (baseURL s ++ op_path op) (fst (run w i (authenticate s))) = None.
Proof.
  pose proof (token_url_not_op (baseURL s) op) as H.
  destruct (authenticate_outcome w i s) as
    [(d & tok & _ & _ & Htr & _) | (ans & error & _ & Htr & _ & _)];
    cbn zeta in Htr; rewrite Htr; cbn; rewrite H; reflexivity.
Qed.

Lemma authenticate_thrown (w : world) (i : nat) (s : Session) (e : js_error)
    (s' : Session) :
  snd (run w i (authenticate s)) = (Thrown e, s') ->
  e = new_Error (JStr AUTH_FAILED) /\ s' = s.
Proof.
  destruct (authenticate_outcome w i s) as
    [(d & tok & _ & _ & _ & Hr) | (ans & error & _ & _ & _ & Hr)];
    cbn zeta in Hr; rewrite Hr; intros H; inversion H; auto.
Qed.

(** The shape of every call: what the guard did, then either the request of
    the operation or the error of a failed authentication. *)
Lemma call_shape (w : world) (i : nat) (op : api_op) (s : Session) :
  exists pre,
    http_answer (baseURL s ++ op_path op) pre = None
    /\ ((exists j s1,
            baseURL s1 = baseURL s
            /\ fst (run w i (call op s))
               = (pre ++ fst (run w j (op_request op s1)))%list
            /\ snd (run w i (call op s)) = snd (run w j (op_request op s1)))
        \/ (fst (run w i (call op s)) = pre
            /\ snd (run w i (call op s))
               = (Thrown (new_Error (JStr AUTH_FAILED)), s))).
Proof.
  rewrite call_run.
  destruct (token_held s) eqn:Ht;
    [destruct (expired (now_at w i) (tokenExpiry s)) eqn:He|].
  - rewrite (ensure_expired w i s Ht He). cbn [fst snd].
    exists (Obs DateNow (now_at w i) :: fst (run w (S i) (authenticate s))).
    split; [cbn; apply authenticate_no_op_answer|].
    pose proof (authenticate_state w (S i) s) as (Hb & _). cbn zeta in Hb.
    destruct (snd (run w (S i) (authenticate s))) as [[a|e] s'] eqn:Hr;
      cbn [discard snd] in *.
    + left. eexists _, s'. repeat split. exact Hb.
    + right. apply authenticate_thrown in Hr as [-> ->]. split; reflexivity.
  - rewrite (ensure_fresh w i s Ht He). cbn [fst snd].
    exists [Obs DateNow (now_at w i)]. split; [reflexivity|].
    left. eexists _, s. repeat split.
  - rewrite (ensure_no_token w i s Ht). cbn [fst snd].
    exists (fst (run w i (authenticate s))).
    split; [apply authenticate_no_op_answer|].
    pose proof (authenticate_state w i s) as (Hb & _). cbn zeta in Hb.
    destruct (snd (run w i (authenticate s))) as [[a|e] s'] eqn:Hr;
      cbn [discard snd] in *.
    + left. eexists _, s'. repeat split. exact Hb.
    + right. apply authenticate_thrown in Hr as [-> ->]. split; reflexivity.
Qed.

Lemma op_request_answer (w : world) (i : nat) (op : api_op) (s : Session) :
  http_answer (baseURL s ++ op_path op) (fst (run w i (op_request op s)))
  = Some (http_at w i).
Proof.
  rewrite op_request_outcome.
  destruct (http_at w i); destruct op; cbn; rewrite String.eqb_refl;
    reflexivity.
Qed.

(** ** Sequences of calls *)

Lemma ensure_state (w : world) (i : nat) (s : Session) :
  baseURL (snd (snd (run w i (ensureAuthenticated s)))) = baseURL s.
Proof.
  destruct (token_held s) eqn:Ht;
    [destruct (expired (now_at w i) (tokenExpiry s)) eqn:He|].
  - rewrite (ensure_expired w i s Ht He). cbn [snd].
    rewrite discard_state. apply authenticate_state.
  - rewrite (ensure_fresh w i s Ht He). reflexivity.
  - rewrite (ensure_no_token w i s Ht). cbn [snd].
    rewrite discard_state. apply authenticate_state.
Qed.

Lemma op_request_state (w : world) (i : nat) (op : api_op) (s : Session) :
  snd (snd (run w i (op_request op s))) = s.
Proof. rewrite op_request_outcome. destruct (http_at w i); reflexivity. Qed.

Lemma call_state (w : world) (i : nat) (op : api_op) (s : Session) :
  baseURL (snd (snd (run w i (call op s)))) = baseURL s.
Proof.
  rewrite call_run. pose proof (ensure_state w i s) as H.
  destruct (snd (run w i (ensureAuthenticated s))) as [[a|e] s'];
    cbn [snd] in *; [rewrite op_request_state|]; exact H.
Qed.

(** Every entry of a log is one call, on a session of the same base URL. *)
Lemma run_ops_entry (ops : list api_op) :
  forall (w : world) (i : nat) (s s0 s1 : Session) (tr : list obs),
    In (s0, tr, s1) (run_ops w i s ops) ->
    exists j op,
      baseURL s0 = baseURL s
      /\ tr = fst (run w j (call op s0))
      /\ s1 = snd (snd (run w j (call op s0))).
Proof.
  induction ops as [|op ops IH]; intros w i s s0 s1 tr Hin; [destruct Hin|].
  cbn [run_ops] in Hin. destruct Hin as [Heq | Hin].
  - inversion Heq; subst. exists i, op. auto.
  - apply IH in Hin as (j & op' & Hb & Htr & Hs).
    exists j, op'. rewrite Hb, call_state. auto.
Qed.

Lemma clock_reading_fresh (w : world) (i : nat) (op : api_op) (s : Session) :
  token_held s = true ->
  clock_reading (fst (run w i (call op s))) = Some (now_at w i).
Proof.
  intros Ht. destruct (expired (now_at w i) (tokenExpiry s)) eqn:He.
  - destruct (call_with_expired_token w i op s Ht He) as (x & rest & -> & _).
    reflexivity.
  - destruct (call_with_fresh_token w i op s Ht He) as (-> & _).
    reflexivity.
Qed.

(** C1. Over every sequence of client operations, run from a fresh client:
    an operation that finds [accessToken] null (the first one always does)
    makes exactly one [authenticate] call, and makes it before anything
    else, its own request included; an operation that finds a token held and
    reads the clock strictly before the stored [tokenExpiry] makes none. *)
Theorem ensureAuthenticated_authenticate_calls
    (w : world) (b u p : string) (ops : list api_op) :
  let log := run_ops w 0 (new_client b u p) ops in
  (forall s tr s',
      List.hd_error log = Some (s, tr, s') -> accessToken s = JNull)
  /\ (forall s tr s',
         In (s, tr, s') log -> accessToken s = JNull ->
         authenticate_calls b tr = 1%nat
         /\ exists x rest,
              tr = Obs (token_event s) x :: rest
              /\ authenticate_calls b rest = 0%nat)
  /\ (forall s tr s' now expiry,
         In (s, tr, s') log ->
         token_held s = true -> tokenExpiry s = Some expiry ->
         clock_reading tr = Some now -> now < expiry ->
         authenticate_calls b tr = 0%nat).
Proof.
  cbn zeta. split; [|split].
  - destruct ops as [|op ops]; cbn; intros s tr s' H; inversion H.
    reflexivity.
  - intros s tr s' Hin Hnull.
    apply run_ops_entry in Hin as (j & op & Hb & -> & _). cbn in Hb.
    assert (Ht : token_held s = false) by (unfold token_held; now rewrite Hnull).
    destruct (call_without_token w j op s Ht) as (x & rest & Htr & Hrest).
    rewrite Hb in Hrest. rewrite Htr. split.
    + unfold authenticate_calls in *. cbn [filter is_request token_event event_url].
      rewrite Hb, String.eqb_refl. cbn [List.length]. now rewrite Hrest.
    + exists x, rest. auto.
  - intros s tr s' now expiry Hin Ht Hexp Hclock Hlt.
    apply run_ops_entry in Hin as (j & op & Hb & -> & _). cbn in Hb.
    rewrite (clock_reading_fresh w j op s Ht) in Hclock.
    injection Hclock as Hnow.
    assert (He : expired (now_at w j) (tokenExpiry s) = false).
    { rewrite Hexp, Hnow. cbn. apply Z.leb_gt. exact Hlt. }
    destruct (call_with_fresh_token w j op s Ht He) as (_ & _ & H0).
    now rewrite Hb in H0.
Qed.

Lemma ensureAuthenticated_authenticate_calls_witness :
  let w := with_clock (fun _ => 1000)
             (with_http (fun _ => token_response (JStr "abc")) quiet_world) in
  let log := run_ops w 0 example_client [OpGetResources; OpStart] in
  let first := List.nth 0 log (example_client, [], example_client) in
  let second := List.nth 1 log (example_client, [], example_client) in
  authenticate_calls "https://api.example" (snd (fst first)) = 1%nat
  /\ tokenExpiry (fst (fst second)) = Some 1501000
  /\ authenticate_calls "https://api.example" (snd (fst second)) = 0%nat.
Proof.
  intros w log first second.
  destruct (ensureAuthenticated_authenticate_calls w
              "https://api.example" "fox" "secret" [OpGetResources; OpStart])
    as (_ & Hone & Hzero).
  split; [|split].
  - apply (Hone (fst (fst first)) (snd (fst first)) (snd first)).
    + left. reflexivity.
    + reflexivity.
  - reflexivity.
  - apply (Hzero (fst (fst second)) (snd (fst second)) (snd second)
             1000 1501000).
    + right. left. reflexivity.
    + reflexivity.
    + reflexivity.
    + reflexivity.
    + reflexivity.
Defined.

(** What a call leaves behind: the session it found, or that session with
    the token of a successful token answer and a new expiry. *)
Lemma call_post (w : world) (i : nat) (op : api_op) (s : Session) :
  let r := run w i (call op s) in
  snd (snd r) = s
  \/ exists d tok t,
       http_answer (baseURL s ++ "/token") (fst r) = Some (HttpOk d)
       /\ get_prop d "access_token" = Normal tok
       /\ snd (snd r) = set_token tok t s.
Proof.
  assert (Hauth : forall j pre,
    http_answer (baseURL s ++ "/token") pre = None ->
    let r := run w j (authenticate s) in
    snd (snd r) = s
    \/ exists d tok t,
         http_answer (baseURL s ++ "/token") (pre ++ fst r)%list
           = Some (HttpOk d)
         /\ get_prop d "access_token" = Normal tok
         /\ snd (snd r) = set_token tok t s).
  { intros j pre Hpre.
    destruct (authenticate_outcome w j s) as
      [(d & tok & _ & Hg & Htr & Hr) | (ans & error & _ & _ & _ & Hr)];
      cbn zeta in *; rewrite Hr; [right|left; reflexivity].
    exists d, tok, (now_at w (S j) + REFRESH_AFTER_MS).
    rewrite http_answer_app, Hpre, Htr. cbn.
    rewrite String.eqb_refl. auto. }
  cbn zeta. rewrite call_run.
  destruct (token_held s) eqn:Ht;
    [destruct (expired (now_at w i) (tokenExpiry s)) eqn:He|].
  - rewrite (ensure_expired w i s Ht He). cbn [fst snd].
    destruct (Hauth (S i) [Obs DateNow (now_at w i)] eq_refl)
      as [Hs | (d & tok & t & Ha & Hg & Hs)];
      destruct (snd (run w (S i) (authenticate s))) as [[a|e] s1];
      cbn [discard fst snd] in *; rewrite ?op_request_state; auto;
      right; exists d, tok, t; repeat split; auto.
    change (?o :: ?t ++ ?t')%list with ((o :: t) ++ t')%list.
    rewrite http_answer_app. cbn [app] in Ha. now rewrite Ha.
  - rewrite (ensure_fresh w i s Ht He). cbn [fst snd].
    rewrite op_request_state. auto.
  - rewrite (ensure_no_token w i s Ht). cbn [fst snd].
    destruct (Hauth i [] eq_refl)
      as [Hs | (d & tok & t & Ha & Hg & Hs)];
      destruct (snd (run w i (authenticate s))) as [[a|e] s1];
      cbn [discard fst snd app] in *; rewrite ?op_request_state; auto;
      right; exists d, tok, t; repeat split; auto.
    rewrite http_answer_app. now rewrite Ha.
Qed.

Lemma get_prop_opt (d tok : value) (k : string) :
  get_prop d k = Normal tok -> opt_prop d k = tok.
Proof. unfold opt_prop. now intros ->. Qed.

Lemma run_ops_paired (b : string) (ops : list api_op) :
  forall (w : world) (i : nat) (s : Session),
    baseURL s = b -> paired s = true ->
    (forall s0 tr s1 d,
        In (s0, tr, s1) (run_ops w i s ops) ->
        http_answer (b ++ "/token") tr = Some (HttpOk d) ->
        nullish (opt_prop d "access_token") = false) ->
    forall s0 tr s1,
      In (s0, tr, s1) (run_ops w i s ops) ->
      paired s0 = true /\ paired s1 = true
      /\ (tokenExpiry s0 <> None -> tokenExpiry s1 <> None).
Proof.
  induction ops as [|op ops IH]; intros w i s Hb Hp Hok s0 tr s1 Hin;
    [destruct Hin|].
  assert (Hstep : paired (snd (snd (run w i (call op s)))) = true
                  /\ (tokenExpiry s <> None ->
                      tokenExpiry (snd (snd (run w i (call op s)))) <> None)).
  { destruct (call_post w i op s) as [Hs | (d & tok & t & Ha & Hg & Hs)];
      cbn zeta in *; rewrite Hs; [auto|].
    rewrite Hb in Ha.
    specialize (Hok s _ _ d (or_introl eq_refl) Ha).
    rewrite (get_prop_opt _ _ _ Hg) in Hok.
    unfold paired. cbn. rewrite Hok. split; [reflexivity|discriminate]. }
  cbn [run_ops] in Hin. destruct Hin as [Heq | Hin].
  - inversion Heq; subst. destruct Hstep. auto.
  - eapply IH;
      [| |intros s0' tr' s1' d' Hin' Ha';
           apply (Hok s0' tr' s1' d'); [right; exact Hin'|exact Ha']
       |exact Hin].
    + rewrite call_state. exact Hb.
    + apply Hstep.
Qed.

(** C2, as the code has it.  Over every sequence of client operations run
    from a fresh client, provided every successful answer of the token
    endpoint carries an [access_token] that is neither null nor missing:
    each operation finds and leaves a session in which [accessToken] is
    there exactly when [tokenExpiry] is, and no operation clears an expiry
    once set.  The code stores the answer's [access_token] unchecked. *)
Theorem session_fields_paired (w : world) (b u p : string)
    (ops : list api_op) :
  let log := run_ops w 0 (new_client b u p) ops in
  (forall s tr s' d,
      In (s, tr, s') log ->
      http_answer (b ++ "/token") tr = Some (HttpOk d) ->
      nullish (opt_prop d "access_token") = false) ->
  paired (new_client b u p) = true
  /\ forall s tr s',
       In (s, tr, s') log ->
       paired s = true /\ paired s' = true
       /\ (tokenExpiry s <> None -> tokenExpiry s' <> None).
Proof.
  cbn zeta. intros Hok. split; [reflexivity|].
  apply (run_ops_paired b ops w 0%nat (new_client b u p)); auto.
Qed.

Lemma session_fields_paired_witness :
  let w := with_clock (fun _ => 1000)
             (with_http (fun _ => token_response (JStr "abc")) quiet_world) in
  let log := run_ops w 0 example_client [OpGetResources; OpStop] in
  let first := List.nth 0 log (example_client, [], example_client) in
  let second := List.nth 1 log (example_client, [], example_client) in
  paired (snd first) = true /\ paired (snd second) = true.
Proof.
  intros w log first second.
  destruct (session_fields_paired w "https://api.example" "fox" "secret"
              [OpGetResources; OpStop]) as (_ & H).
  - intros s0 tr0 s1 d [Heq | [Heq | []]] Ha;
      inversion Heq; subst; vm_compute in Ha; inversion Ha; reflexivity.
  - split.
    + apply (H (fst (fst first)) (snd (fst first)) (snd first)).
      left. reflexivity.
    + apply (H (fst (fst second)) (snd (fst second)) (snd second)).
      right. left. reflexivity.
Defined.

(** C2, as stated, fails: a token endpoint that answers 200 with
    [{"access_token": null}] leaves [tokenExpiry] set and [accessToken]
    null. *)
Lemma session_fields_paired_counterexample :
  let log := run_ops null_token_world 0 example_client [OpGetResources] in
  let s := final_session example_client log in
  accessToken s = JNull /\ tokenExpiry s = Some 1500000
  /\ paired s = false.
Proof. repeat split. Qed.

Lemma authenticate_calls_token (s : Session) (x : http_outcome)
    (rest : list obs) :
  authenticate_calls (baseURL s) (Obs (token_event s) x :: rest)
  = S (authenticate_calls (baseURL s) rest).
Proof.
  unfold authenticate_calls. cbn. rewrite String.eqb_refl. reflexivity.
Qed.

(** C6. A successful [authenticate] reads the clock once, after the token
    answer, and sets [tokenExpiry] to that reading plus 1500000 ms, which is
    25 minutes and not the 1800000 ms of the token's nominal life; any
    operation that then finds the clock at that reading plus 1500001 ms or
    later authenticates again, once. *)
Theorem authenticate_sets_expiry (w : world) (i : nat) (s s' : Session)
    (a : bool) :
  snd (run w i (authenticate s)) = (Normal a, s') ->
  exists d t,
    fst (run w i (authenticate s))
    = [Obs (token_event s) (HttpOk d); Obs DateNow t]
    /\ tokenExpiry s' = Some (t + 1500000)
    /\ 1500000 = 25 * 60 * 1000
    /\ tokenExpiry s' <> Some (t + 1800000)
    /\ forall (w' : world) (j : nat) (op : api_op),
         t + 1500001 <= now_at w' j ->
         authenticate_calls (baseURL s') (fst (run w' j (call op s'))) = 1%nat.
Proof.
  destruct (authenticate_outcome w i s) as
    [(d & tok & _ & _ & Htr & Hr) | (ans & error & _ & _ & _ & Hr)];
    cbn zeta in *; rewrite Hr; intros H; inversion H; subst; clear H.
  exists d, (now_at w (S i)). rewrite Htr.
  split; [reflexivity|]. split; [reflexivity|]. split; [reflexivity|].
  split; [cbn; intros H; injection H; lia|].
  intros w' j op Hlate.
  set (s' := set_token tok (now_at w (S i) + REFRESH_AFTER_MS) s).
  destruct (token_held s') eqn:Ht.
  - assert (He : expired (now_at w' j) (tokenExpiry s') = true).
    { cbn. apply Z.leb_le. unfold REFRESH_AFTER_MS. lia. }
    destruct (call_with_expired_token w' j op s' Ht He)
      as (x & rest & -> & Hrest).
    change (Obs DateNow ?n :: ?t) with ([Obs DateNow n] ++ t)%list.
    rewrite authenticate_calls_app, authenticate_calls_token, Hrest.
    reflexivity.
  - destruct (call_without_token w' j op s' Ht) as (x & rest & -> & Hrest).
    rewrite authenticate_calls_token, Hrest. reflexivity.
Qed.

Lemma authenticate_sets_expiry_witness :
  let w := with_clock (fun i => Z.of_nat i * 100)
             (with_http (fun _ => token_response (JStr "abc")) quiet_world) in
  let late := with_clock (fun _ => 1500101) w in
  exists s',
    snd (run w 0 (authenticate example_client)) = (Normal true, s')
    /\ tokenExpiry s' = Some 1500100
    /\ authenticate_calls "https://api.example"
         (fst (run late 0 (call OpGetResources s'))) = 1%nat.
Proof.
  intros w late.
  exists (set_token (JStr "abc") 1500100 example_client).
  split; [reflexivity|].
  destruct (authenticate_sets_expiry w 0 example_client
              (set_token (JStr "abc") 1500100 example_client) true eq_refl)
    as (d & t & _ & Hexp & _ & _ & Hlate).
  split; [reflexivity|].
  apply (Hlate late 0%nat OpGetResources).
  cbn in Hexp |- *. injection Hexp as Hexp. lia.
Defined.

(** C10. A failed [authenticate] leaves the session as it found it: when
    the token request throws the call fails, and whenever the call fails
    [accessToken] and [tokenExpiry] are what they were, so a held token,
    expired or not, is neither cleared nor replaced. *)
Theorem authenticate_failure_keeps_session (w : world) (i : nat)
    (s : Session) :
  (forall error,
      http_at w i = HttpErr error ->
      exists e, snd (run w i (authenticate s)) = (Thrown e, s))
  /\ (forall e s',
         snd (run w i (authenticate s)) = (Thrown e, s') ->
         s' = s /\ accessToken s' = accessToken s
         /\ tokenExpiry s' = tokenExpiry s).
Proof.
  split.
  - intros error Hh. cbn. rewrite Hh. eexists. reflexivity.
  - intros e s' H. apply authenticate_thrown in H as [_ ->]. auto.
Qed.

Lemma authenticate_failure_keeps_session_witness :
  let w := failing_world (axios_error "Request failed with status code 401"
                            (JObj [("detail", JStr "Incorrect password")])) in
  snd (snd (run w 0 (authenticate stale_client))) = stale_client
  /\ accessToken (snd (snd (run w 0 (authenticate stale_client))))
     = JStr "old".
Proof.
  intros w.
  destruct (authenticate_failure_keeps_session w 0 stale_client) as (Hthrows & Hkeeps).
  destruct (Hthrows _ eq_refl) as (e & He).
  destruct (Hkeeps e _ He) as (Hs & Htok & _).
  split; [exact Hs|exact Htok].
Defined.

Lemma message_detail_or (error : js_error) (fallback : string) :
  let detail := opt_prop (opt_prop (response error) "data") "detail" in
  message (new_Error (detail_or error fallback))
  = if truthy detail then to_string detail else fallback.
Proof. cbn zeta. unfold detail_or, js_or. now destruct (truthy _). Qed.

(** ** JSON text: what is written parses back *)

Lemma append_assoc (a b c : string) : (a ++ b) ++ c = a ++ (b ++ c).
Proof. induction a as [|x a IH]; cbn; [reflexivity|now rewrite IH]. Qed.

Lemma skip_ws_indent (n : nat) (s : string) :
  skip_ws (indent n ++ s) = skip_ws s.
Proof. induction n as [|n IH]; cbn; [reflexivity|exact IH]. Qed.

Lemma skip_ws_line (n : nat) (s : string) :
  skip_ws (String LF (indent n) ++ s) = skip_ws s.
Proof. cbn. apply skip_ws_indent. Qed.

Lemma quote_char_parse (c : ascii) (s : string) :
  parse_string_body (quote_char c ++ s)
  = prepend (String c "") (parse_string_body s).
Proof.
  destruct c as [[] [] [] [] [] [] [] []]; reflexivity.
Qed.

Lemma parse_quote_body (s rest : string) :
  parse_string_body (quote_body s ++ rest) = Some (s, rest).
Proof.
  induction s as [|c s IH]; cbn [quote_body].
  - reflexivity.
  - rewrite append_assoc, quote_char_parse, IH. reflexivity.
Qed.

Lemma delim_cases (rest : string) :
  delim rest = true ->
  rest = "" \/ (exists r, rest = String "," r) \/ (exists r, rest = String LF r).
Proof.
  destruct rest as [|c r]; [auto|]. cbn. intros H.
  apply orb_true_iff in H as [H|H]; apply Ascii.eqb_eq in H; subst; eauto.
Qed.

Lemma span_digits_uint (d : Decimal.uint) (rest : string) :
  delim rest = true ->
  span_digits (NilEmpty.string_of_uint d ++ rest)
  = (NilEmpty.string_of_uint d, rest).
Proof.
  intros Hd. induction d; cbn; try (rewrite IHd; reflexivity).
  destruct (delim_cases rest Hd) as [-> | [[r ->] | [r ->]]]; reflexivity.
Qed.

Lemma nzhead_head (d : Decimal.uint) :
  match Decimal.nzhead d with Decimal.D0 _ => False | _ => True end.
Proof. induction d; cbn; auto. Qed.

Lemma canonical_unorm (d : Decimal.uint) :
  canonical (NilEmpty.string_of_uint (Decimal.unorm d)) = true.
Proof.
  unfold Decimal.unorm. pose proof (nzhead_head d) as H.
  destruct (Decimal.nzhead d) as [|u|u|u|u|u|u|u|u|u|u]; try reflexivity;
    try (destruct H); cbn; destruct (NilEmpty.string_of_uint u); reflexivity.
Qed.

Lemma unorm_to_uint (p : positive) :
  Decimal.unorm (Pos.to_uint p) = Pos.to_uint p.
Proof.
  rewrite <- DecimalPos.Unsigned.to_of, DecimalPos.Unsigned.of_to.
  reflexivity.
Qed.

Lemma uint_head (d : Decimal.uint) :
  d <> Decimal.Nil ->
  exists c t, NilEmpty.string_of_uint d = String c t
              /\ is_digit c = true /\ Ascii.eqb c "-" = false.
Proof.
  destruct d; [now intros []| ..]; intros _; eexists _, _; cbn; auto.
Qed.

Lemma parse_number_uint (d : Decimal.uint) (rest : string) :
  d <> Decimal.Nil -> Decimal.unorm d = d -> delim rest = true ->
  parse_number (NilEmpty.string_of_uint d ++ rest)
  = Some (JNum (Z.of_int (Decimal.Pos d)), rest)
  /\ parse_number (String "-" (NilEmpty.string_of_uint d ++ rest))
     = Some (JNum (Z.of_int (Decimal.Neg d)), rest).
Proof.
  intros Hnil Hnorm Hd.
  assert (Hfrac : starts_fraction rest = false).
  { destruct (delim_cases rest Hd) as [-> | [[r ->] | [r ->]]]; reflexivity. }
  assert (Hcan : canonical (NilEmpty.string_of_uint d) = true).
  { rewrite <- Hnorm at 1. apply canonical_unorm. }
  assert (Hpos : NilZero.int_of_string (NilEmpty.string_of_uint d)
                 = Some (Decimal.Pos d)).
  { pose proof (NilZero.isi (Decimal.Pos d)) as H. cbn in H.
    destruct d; try (now destruct Hnil); apply H; congruence. }
  assert (Hneg : NilZero.int_of_string
                   (String "-" (NilEmpty.string_of_uint d))
                 = Some (Decimal.Neg d)).
  { pose proof (NilZero.isi (Decimal.Neg d)) as H. cbn in H.
    destruct d; try (now destruct Hnil); apply H; congruence. }
  pose proof (span_digits_uint d rest Hd) as Hspan.
  destruct (uint_head d Hnil) as (c & t & Hs & Hdig & Hminus).
  rewrite Hs in *. cbn [append] in *.
  split; unfold parse_number.
  - rewrite Hminus, Hspan. cbn [fst snd].
    rewrite Hcan, Hfrac, Hpos. reflexivity.
  - cbn [Ascii.eqb Bool.eqb]. cbn match.
    rewrite Hspan. cbn [fst snd].
    rewrite Hcan, Hfrac, Hneg. reflexivity.
Qed.

Lemma parse_number_Z (z : Z) (rest : string) :
  delim rest = true ->
  parse_number (string_of_Z z ++ rest) = Some (JNum z, rest).
Proof.
  intros Hd. rewrite <- (DecimalZ.of_to z) at 2.
  unfold string_of_Z. destruct z as [|p|p]; cbn [Z.to_int].
  - apply (parse_number_uint Decimal.zero rest); [discriminate|reflexivity|auto].
  - pose proof (DecimalPos.Unsigned.to_uint_nonnil p) as Hn.
    replace (NilZero.string_of_int (Decimal.Pos (Pos.to_uint p)))
      with (NilEmpty.string_of_uint (Pos.to_uint p))
      by (cbn; destruct (Pos.to_uint p); [now destruct Hn|reflexivity..]).
    apply parse_number_uint; auto using unorm_to_uint.
  - pose proof (DecimalPos.Unsigned.to_uint_nonnil p) as Hn.
    replace (NilZero.string_of_int (Decimal.Neg (Pos.to_uint p)))
      with (String "-" (NilEmpty.string_of_uint (Pos.to_uint p)))
      by (cbn; destruct (Pos.to_uint p); [now destruct Hn|reflexivity..]).
    apply parse_number_uint; auto using unorm_to_uint.
Qed.

Lemma skip_ws_blank (pre s : string) :
  skip_ws pre = "" -> skip_ws (pre ++ s) = skip_ws s.
Proof.
  induction pre as [|c pre IH]; cbn; [reflexivity|].
  destruct (is_ws c); [exact IH|discriminate].
Qed.

Lemma parse_value_blank (fuel : nat) (pre s : string) :
  skip_ws pre = "" -> parse_value fuel (pre ++ s) = parse_value fuel s.
Proof.
  intros H. destruct fuel as [|f]; [reflexivity|].
  cbn [parse_value]. rewrite (skip_ws_blank pre s H). reflexivity.
Qed.

Lemma blank_indent (n : nat) : skip_ws (indent n) = "".
Proof. induction n as [|n IH]; cbn; [reflexivity|exact IH]. Qed.

Lemma blank_line (n : nat) : skip_ws (String LF (indent n)) = "".
Proof. cbn. apply blank_indent. Qed.

Lemma stringify_arr (n : nat) (xs : list value) :
  stringify_at n (JArr xs)
  = wrap "[" "]" n (List.map (stringify_at (S n)) xs).
Proof.
  reflexivity.
Qed.

Lemma json_ok_defined (v : value) : json_ok v = true -> is_undefined v = false.
Proof. destruct v; [discriminate|reflexivity..]. Qed.

Lemma stringify_obj (n : nat) (fs : list (string * value)) :
  values_ok fs = true ->
  stringify_at n (JObj fs) = wrap "{" "}" n (List.map (member_text (S n)) fs).
Proof.
  intros H. cbn [stringify_at]. f_equal.
  induction fs as [|[k x] fs IH]; [reflexivity|].
  cbn in H. apply andb_true_iff in H as [Hx Hfs].
  rewrite (json_ok_defined x Hx), (IH Hfs). reflexivity.
Qed.

Lemma json_ok_arr (xs : list value) :
  json_ok (JArr xs) = forallb json_ok xs.
Proof.
  reflexivity.
Qed.

Lemma json_ok_obj (fs : list (string * value)) :
  json_ok (JObj fs) = distinct_keys fs && values_ok fs.
Proof.
  cbn [json_ok]. unfold values_ok.
  induction fs as [|[k x] fs IH]; cbn; [reflexivity|]. rewrite IH.
  destruct (has_key k fs), (json_ok x), (distinct_keys fs); reflexivity.
Qed.

Lemma need_arr (xs : list value) : need (JArr xs) = S (need_items xs).
Proof.
  reflexivity.
Qed.

Lemma need_obj (fs : list (string * value)) :
  need (JObj fs) = S (need_members fs).
Proof.
  cbn [need]. f_equal.
  induction fs as [|[k x] fs IH]; cbn; [reflexivity|now rewrite IH].
Qed.

Lemma set_field_new (k : string) (v : value) (acc : list (string * value)) :
  has_key k acc = false -> set_field k v acc = (acc ++ [(k, v)])%list.
Proof.
  induction acc as [|[k' v'] acc IH]; cbn; [reflexivity|].
  intros H. apply orb_false_iff in H as [Hk Hacc].
  rewrite Hk, (IH Hacc). reflexivity.
Qed.

Lemma has_key_app (k : string) (a b : list (string * value)) :
  has_key k (a ++ b)%list = has_key k a || has_key k b.
Proof.
  induction a as [|[k' v'] a IH]; cbn; [reflexivity|].
  rewrite IH. apply orb_assoc.
Qed.

Lemma string_of_Z_head (z : Z) :
  exists c t, string_of_Z z = String c t
              /\ (is_digit c = true \/ c = "-"%char).
Proof.
  unfold string_of_Z.
  destruct z as [|p|p]; cbn [Z.to_int NilZero.string_of_int].
  - eexists _, _. split; [reflexivity|]. left. reflexivity.
  - pose proof (DecimalPos.Unsigned.to_uint_nonnil p) as Hn.
    destruct (uint_head _ Hn) as (c & t & Hs & Hd & _).
    exists c, t. split; [|auto].
    rewrite <- Hs. cbn. destruct (Pos.to_uint p); [now destruct Hn|reflexivity..].
  - eexists _, _. split; [reflexivity|]. right. reflexivity.
Qed.

Lemma number_dispatch (c : ascii) (t : string) (f : nat) :
  is_digit c = true \/ c = "-"%char ->
  parse_value (S f) (String c t) = parse_number (String c t)
  /\ is_ws c = false /\ Ascii.eqb c "]" = false /\ Ascii.eqb c "}" = false.
Proof.
  intros H.
  destruct c as [[] [] [] [] [] [] [] []];
    try (exfalso; destruct H as [H|H]; discriminate H);
    repeat split.
Qed.

Lemma value_head (n : nat) (v : value) :
  exists c t, stringify_at n v = String c t
              /\ is_ws c = false
              /\ Ascii.eqb c "]" = false /\ Ascii.eqb c "}" = false.
Proof.
  destruct v as [| |[]|z|s|xs|fs]; try (eexists _, _; repeat split; fail).
  - destruct (string_of_Z_head z) as (c & t & Hs & Hc).
    exists c, t. split; [exact Hs|].
    apply (number_dispatch c t 0 Hc).
  - rewrite stringify_arr. destruct xs; eexists _, _; repeat split.
  - cbn [stringify_at].
    match goal with |- context [wrap _ _ _ ?l] => destruct l end;
      eexists _, _; repeat split.
Qed.

Lemma concat_cons (sep x : string) (y : string) (l : list string) :
  String.concat sep (x :: y :: l) = x ++ sep ++ String.concat sep (y :: l).
Proof. reflexivity. Qed.

Lemma parse_elements_more (f : nat) (acc : list value) (s : string)
    (v : value) (r : string) :
  parse_value f s = Some (v, String "," r) ->
  parse_elements (S f) acc s = parse_elements f (acc ++ [v])%list r.
Proof. intros H. cbn [parse_elements]. rewrite H. reflexivity. Qed.

Lemma parse_elements_last (f : nat) (acc : list value) (s : string)
    (v : value) (n : nat) (rest : string) :
  parse_value f s = Some (v, String LF (indent n) ++ "]" ++ rest) ->
  parse_elements (S f) acc s = Some (JArr (acc ++ [v])%list, rest).
Proof.
  intros H. cbn [parse_elements]. rewrite H, skip_ws_line. reflexivity.
Qed.

(** The elements of an array, from the first one on. *)
Lemma elements_loop (n : nat) (rest : string) (l : list value) :
  Forall roundtrips l ->
  forall (x : value) (acc : list value) (pre : string) (fuel : nat),
    roundtrips x ->
    json_ok x = true -> forallb json_ok l = true ->
    (need_items (x :: l) <= fuel)%nat ->
    skip_ws pre = "" ->
    parse_elements fuel acc
      (pre ++ String.concat ("," ++ String LF (indent (S n)))
                (List.map (stringify_at (S n)) (x :: l))
           ++ String LF (indent n) ++ "]" ++ rest)
    = Some (JArr (acc ++ x :: l)%list, rest).
Proof.
  induction 1 as [|y l Hy Hl IH];
    intros x acc pre fuel Hx Hokx Hokl Hfuel Hpre;
    (destruct fuel as [|f]; [cbn in Hfuel; lia|]);
    cbn [need_items] in Hfuel.
  - apply (parse_elements_last f acc _ x n rest).
    rewrite parse_value_blank by exact Hpre.
    apply (Hx Hokx); [reflexivity|lia].
  - cbn in Hokl. apply andb_true_iff in Hokl as [Hoky Hokl].
    rewrite (parse_elements_more f acc _ x
               (String LF (indent (S n))
                ++ String.concat ("," ++ String LF (indent (S n)))
                     (List.map (stringify_at (S n)) (y :: l))
                ++ String LF (indent n) ++ "]" ++ rest)).
    + rewrite (IH y (acc ++ [x])%list (String LF (indent (S n))) f Hy Hoky Hokl)
        by (apply blank_line || (cbn [need_items]; lia)).
      rewrite <- app_assoc. reflexivity.
    + rewrite parse_value_blank by exact Hpre.
      cbn [List.map]. rewrite concat_cons, !append_assoc.
      apply (Hx Hokx); [reflexivity|lia].
Qed.

Lemma parse_members_value (f : nat) (acc : list (string * value))
    (pre k s : string) :
  skip_ws pre = "" ->
  parse_members (S f) acc (pre ++ quote k ++ ": " ++ s)
  = match parse_value f s with
    | None => None
    | Some (v, r3) =>
        match skip_ws r3 with
        | EmptyString => None
        | String c3 r4 =>
            if Ascii.eqb c3 "," then parse_members f (set_field k v acc) r4
            else if Ascii.eqb c3 "}" then Some (JObj (set_field k v acc), r4)
            else None
        end
    end.
Proof.
  intros Hpre. cbn [parse_members]. rewrite (skip_ws_blank pre _ Hpre).
  change (quote k ++ ": " ++ s)
    with (String dquote (quote_body k ++ String ":" (" " ++ s))).
  change (skip_ws (String dquote ?y)) with (String dquote y).
  cbv beta iota. change (Ascii.eqb dquote dquote) with true. cbv iota.
  rewrite parse_quote_body.
  change (skip_ws (String ":" ?y)) with (String ":" y).
  cbv beta iota. change (Ascii.eqb ":" ":") with true. cbv iota.
  rewrite (parse_value_blank f " " s eq_refl). reflexivity.
Qed.

Lemma parse_members_more (f : nat) (acc : list (string * value))
    (pre k s : string) (v : value) (r : string) :
  skip_ws pre = "" ->
  parse_value f s = Some (v, String "," r) ->
  parse_members (S f) acc (pre ++ quote k ++ ": " ++ s)
  = parse_members f (set_field k v acc) r.
Proof.
  intros Hpre H. rewrite (parse_members_value f acc pre k s Hpre), H.
  reflexivity.
Qed.

Lemma parse_members_last (f : nat) (acc : list (string * value))
    (pre k s : string) (v : value) (n : nat) (rest : string) :
  skip_ws pre = "" ->
  parse_value f s = Some (v, String LF (indent n) ++ "}" ++ rest) ->
  parse_members (S f) acc (pre ++ quote k ++ ": " ++ s)
  = Some (JObj (set_field k v acc), rest).
Proof.
  intros Hpre H. rewrite (parse_members_value f acc pre k s Hpre), H.
  rewrite skip_ws_line. reflexivity.
Qed.

Lemma has_key_false (k : string) (l : list (string * value)) :
  has_key k l = false ->
  forallb (fun kv => negb (String.eqb (fst kv) k)) l = true.
Proof.
  induction l as [|[k' v'] l IH]; cbn; [reflexivity|].
  intros H. apply orb_false_iff in H as [Hk Hl].
  rewrite String.eqb_sym, Hk. cbn. exact (IH Hl).
Qed.

Lemma fresh_keys_step (k : string) (v : value)
    (acc l : list (string * value)) :
  fresh_keys acc l = true -> has_key k l = false ->
  fresh_keys (acc ++ [(k, v)])%list l = true.
Proof.
  unfold fresh_keys. intros Hacc Hk. apply has_key_false in Hk.
  induction l as [|[k' v'] l IH]; cbn in *; [reflexivity|].
  apply andb_true_iff in Hacc as [Ha Hacc].
  apply andb_true_iff in Hk as [Hk' Hk].
  rewrite has_key_app. cbn.
  apply negb_true_iff in Ha, Hk'. rewrite Ha, Hk'. cbn. auto.
Qed.

(** The members of an object, from the first one on. *)
Lemma members_loop (n : nat) (rest : string) (l : list (string * value)) :
  Forall (fun kv => roundtrips (snd kv)) l ->
  forall (kx : string * value) (acc : list (string * value)) (pre : string)
         (fuel : nat),
    roundtrips (snd kx) ->
    values_ok (kx :: l) = true -> distinct_keys (kx :: l) = true ->
    fresh_keys acc (kx :: l) = true ->
    (need_members (kx :: l) <= fuel)%nat ->
    skip_ws pre = "" ->
    parse_members fuel acc
      (pre ++ String.concat ("," ++ String LF (indent (S n)))
                (List.map (member_text (S n)) (kx :: l))
           ++ String LF (indent n) ++ "}" ++ rest)
    = Some (JObj (acc ++ kx :: l)%list, rest).
Proof.
  induction 1 as [|ky l Hy Hl IH];
    intros [k x] acc pre fuel Hx Hok Hdist Hfresh Hfuel Hpre;
    (destruct fuel as [|f]; [cbn in Hfuel; lia|]);
    cbn [need_members snd] in Hfuel;
    cbn in Hok; apply andb_true_iff in Hok as [Hokx Hokl];
    cbn [distinct_keys] in Hdist; apply andb_true_iff in Hdist as [Hk Hdist];
    apply negb_true_iff in Hk;
    cbn [fresh_keys forallb fst] in Hfresh;
    apply andb_true_iff in Hfresh as [Hka Hfresh];
    apply negb_true_iff in Hka;
    cbn [snd] in Hx.
  - cbn [List.map String.concat]. unfold member_text. cbn [fst snd].
    rewrite !append_assoc.
    rewrite (parse_members_last f acc pre k _ x n rest Hpre).
    + now rewrite (set_field_new k x acc Hka).
    + apply (Hx Hokx); [reflexivity|lia].
  - cbn [List.map]. rewrite concat_cons. unfold member_text at 1.
    cbn [fst snd]. rewrite !append_assoc.
    rewrite (parse_members_more f acc pre k _ x
               (String LF (indent (S n))
                ++ String.concat ("," ++ String LF (indent (S n)))
                     (List.map (member_text (S n)) (ky :: l))
                ++ String LF (indent n) ++ "}" ++ rest) Hpre).
    + rewrite (set_field_new k x acc Hka).
      rewrite (IH ky (acc ++ [(k, x)])%list (String LF (indent (S n))) f Hy
                 Hokl Hdist (fresh_keys_step k x acc (ky :: l) Hfresh Hk))
        by (apply blank_line || (cbn [need_members]; lia)).
      rewrite <- app_assoc. reflexivity.
    + apply (Hx Hokx); [reflexivity|lia].
Qed.

Lemma skip_ws_head (c : ascii) (t : string) :
  is_ws c = false -> skip_ws (String c t) = String c t.
Proof. intros H. cbn [skip_ws]. now rewrite H. Qed.

Lemma parse_value_arr (f : nat) (y : string) (c : ascii) (r : string) :
  skip_ws y = String c r -> Ascii.eqb c "]" = false ->
  parse_value (S f) (String "[" y) = parse_elements f [] y.
Proof.
  intros Hy Hc. cbn [parse_value].
  change (skip_ws (String "[" y)) with (String "[" y). cbv beta iota.
  change (Ascii.eqb "[" dquote) with false.
  change (Ascii.eqb "[" "{") with false.
  change (Ascii.eqb "[" "[") with true. cbv iota.
  rewrite Hy, Hc. reflexivity.
Qed.

Lemma parse_value_obj (f : nat) (y : string) (c : ascii) (r : string) :
  skip_ws y = String c r -> Ascii.eqb c "}" = false ->
  parse_value (S f) (String "{" y) = parse_members f [] y.
Proof.
  intros Hy Hc. cbn [parse_value].
  change (skip_ws (String "{" y)) with (String "{" y). cbv beta iota.
  change (Ascii.eqb "{" dquote) with false.
  change (Ascii.eqb "{" "{") with true. cbv iota.
  rewrite Hy, Hc. reflexivity.
Qed.

Lemma append_nil_r (s : string) : s ++ "" = s.
Proof. induction s as [|c s IH]; cbn; [reflexivity|now rewrite IH]. Qed.

Lemma fresh_keys_nil (l : list (string * value)) : fresh_keys [] l = true.
Proof. induction l as [|kv l IH]; [reflexivity|exact IH]. Qed.

(** Every value without [undefined] and without a repeated key parses back
    from its text, whatever follows the text and however deep it sits. *)
Lemma stringify_roundtrips (v : value) : roundtrips v.
Proof.
  induction v as [| |b|z|s|xs IH|fs IH] using value_nested_ind;
    intros Hok n rest fuel Hd Hfuel;
    try discriminate Hok;
    (destruct fuel as [|f]; [cbn in Hfuel; lia|]).
  - reflexivity.
  - destruct b; reflexivity.
  - destruct (string_of_Z_head z) as (c & t & Hs & Hc).
    pose proof (parse_number_Z z rest Hd) as Hnum.
    cbn [stringify_at]. rewrite Hs in *. cbn [append] in *.
    destruct (number_dispatch c (t ++ rest) f Hc) as (-> & _).
    exact Hnum.
  - cbn [stringify_at parse_value]. unfold quote.
    change (skip_ws (String dquote ?y ++ rest)) with (String dquote (y ++ rest)).
    cbv beta iota. change (Ascii.eqb dquote dquote) with true. cbv iota.
    rewrite parse_quote_body. reflexivity.
  - rewrite stringify_arr. destruct xs as [|x l]; [reflexivity|].
    rewrite json_ok_arr in Hok. cbn in Hok.
    apply andb_true_iff in Hok as [Hokx Hokl].
    rewrite need_arr in Hfuel. apply le_S_n in Hfuel.
    inversion IH as [|? ? Hx Hl]; subst.
    cbn [List.map]. unfold wrap. rewrite !append_assoc.
    change ("[" ++ ?y) with (String "[" y).
    destruct (value_head (S n) x) as (c & t & Hs & Hws & Hc & _).
    rewrite (parse_value_arr f _ c
               (t ++ match l with
                     | [] => ""
                     | _ :: _ =>
                         ("," ++ String LF (indent (S n)))
                         ++ String.concat ("," ++ String LF (indent (S n)))
                              (List.map (stringify_at (S n)) l)
                     end ++ String LF (indent n) ++ "]" ++ rest)).
    + exact (elements_loop n rest l Hl x [] (String LF (indent (S n))) f
               Hx Hokx Hokl Hfuel (blank_line (S n))).
    + rewrite skip_ws_line. cbn [List.map].
      destruct l as [|y l]; cbn [String.concat List.map];
        rewrite ?append_assoc, Hs; cbn [append];
        now rewrite (skip_ws_head c _ Hws).
    + exact Hc.
  - rewrite json_ok_obj in Hok. apply andb_true_iff in Hok as [Hdist Hvals].
    rewrite (stringify_obj n fs Hvals).
    destruct fs as [|[k x] l]; [reflexivity|].
    rewrite need_obj in Hfuel. apply le_S_n in Hfuel.
    inversion IH as [|? ? Hx Hl]; subst.
    unfold wrap. cbn [List.map]. rewrite !append_assoc.
    change ("{" ++ ?y) with (String "{" y).
    rewrite (parse_value_obj f _ dquote
               (quote_body k ++ ": " ++ stringify_at (S n) x
                ++ match l with
                   | [] => ""
                   | _ :: _ =>
                       ("," ++ String LF (indent (S n)))
                       ++ String.concat ("," ++ String LF (indent (S n)))
                            (List.map (member_text (S n)) l)
                   end ++ String LF (indent n) ++ "}" ++ rest)).
    + exact (members_loop n rest l Hl (k, x) [] (String LF (indent (S n))) f
               Hx Hvals Hdist (fresh_keys_nil _) Hfuel (blank_line (S n))).
    + rewrite skip_ws_line.
      destruct l as [|y l]; cbn [String.concat List.map];
        unfold member_text at 1, quote; cbn [fst snd];
        rewrite ?append_assoc; reflexivity.
    + reflexivity.
Qed.

Lemma length_append (a b : string) :
  String.length (a ++ b) = (String.length a + String.length b)%nat.
Proof. induction a as [|c a IH]; cbn; [reflexivity|now rewrite IH]. Qed.

Lemma need_items_length (pr : value -> string) (sep : string)
    (l : list value) :
  Forall (fun x => (need x <= String.length (pr x))%nat) l ->
  (1 <= String.length sep)%nat ->
  forall x, (need x <= String.length (pr x))%nat ->
    (need_items (x :: l)
     <= S (String.length (String.concat sep (List.map pr (x :: l)))))%nat.
Proof.
  intros Hl Hsep. induction Hl as [|y l Hy Hl IH]; intros x Hx.
  - cbn. lia.
  - specialize (IH y Hy). cbn [List.map] in *. rewrite concat_cons.
    rewrite !length_append. cbn [need_items] in *. lia.
Qed.

Lemma need_members_length (pr : string * value -> string) (sep : string)
    (l : list (string * value)) :
  Forall (fun kv => (need (snd kv) <= String.length (pr kv))%nat) l ->
  (1 <= String.length sep)%nat ->
  forall kx, (need (snd kx) <= String.length (pr kx))%nat ->
    (need_members (kx :: l)
     <= S (String.length (String.concat sep (List.map pr (kx :: l)))))%nat.
Proof.
  intros Hl Hsep. induction Hl as [|y l Hy Hl IH]; intros x Hx.
  - cbn. lia.
  - specialize (IH y Hy). cbn [List.map] in *. rewrite concat_cons.
    rewrite !length_append. cbn [need_members] in *. lia.
Qed.

Lemma wrap_length (o c : string) (n : nat) (x : string) (l : list string) :
  (String.length o + String.length c + 2
   + String.length (String.concat ("," ++ String LF (indent (S n))) (x :: l))
   <= String.length (wrap o c n (x :: l)))%nat.
Proof.
  unfold wrap. rewrite !length_append. cbn [String.length]. lia.
Qed.

Lemma Forall_json_ok {A : Type} (get : A -> value) (Q : A -> Prop)
    (l : list A) :
  Forall (fun a => json_ok (get a) = true -> Q a) l ->
  forallb (fun a => json_ok (get a)) l = true ->
  Forall Q l.
Proof.
  induction 1 as [|a l Ha _ IH]; cbn; intros Hok; constructor;
    apply andb_true_iff in Hok as [Hoka Hokl]; auto.
Qed.

Lemma need_le_length (v : value) :
  json_ok v = true ->
  forall n, (need v <= String.length (stringify_at n v))%nat.
Proof.
  induction v as [| |b|z|s|xs IH|fs IH] using value_nested_ind;
    intros Hok n; try discriminate Hok.
  - cbn. lia.
  - destruct b; cbn; lia.
  - destruct (string_of_Z_head z) as (c & t & Hs & _).
    cbn [stringify_at need]. rewrite Hs. cbn. lia.
  - cbn. lia.
  - rewrite stringify_arr, need_arr. rewrite json_ok_arr in Hok.
    assert (Hall : Forall (fun y => (need y
                     <= String.length (stringify_at (S n) y))%nat) xs).
    { apply (Forall_json_ok (fun y => y)); [|exact Hok].
      eapply Forall_impl; [|exact IH]. cbn. auto. }
    destruct xs as [|x l]; [cbn; lia|].
    inversion Hall as [|? ? Hx Hl]; subst.
    cbn [List.map].
    pose proof (wrap_length "[" "]" n (stringify_at (S n) x)
                  (List.map (stringify_at (S n)) l)) as Hw.
    pose proof (need_items_length (stringify_at (S n))
                  ("," ++ String LF (indent (S n))) l Hl
                  ltac:(cbn; lia) x Hx) as Hn.
    cbn [List.map String.length] in *. lia.
  - rewrite json_ok_obj in Hok. apply andb_true_iff in Hok as [_ Hvals].
    rewrite (stringify_obj n fs Hvals), need_obj.
    assert (Hall : Forall (fun kv => (need (snd kv)
                     <= String.length (member_text (S n) kv))%nat) fs).
    { apply (Forall_json_ok snd); [|exact Hvals].
      eapply Forall_impl; [|exact IH]. intros [k x] H Hokv.
      specialize (H Hokv (S n)). unfold member_text. cbn [fst snd] in *.
      rewrite !length_append. lia. }
    destruct fs as [|kx l]; [cbn; lia|].
    inversion Hall as [|? ? Hx Hl]; subst.
    cbn [List.map].
    pose proof (wrap_length "{" "}" n (member_text (S n) kx)
                  (List.map (member_text (S n)) l)) as Hw.
    pose proof (need_members_length (member_text (S n))
                  ("," ++ String LF (indent (S n))) l Hl
                  ltac:(cbn; lia) kx Hx) as Hn.
    cbn [List.map String.length] in *. lia.
Qed.

(** What [JSON.stringify] writes, [JSON.parse] reads back. *)
Lemma JSON_parse_stringify (v : value) :
  json_ok v = true -> JSON_parse (JSON_stringify v) = Some v.
Proof.
  intros Hok. unfold JSON_parse, JSON_stringify.
  pose proof (need_le_length v Hok 0) as Hfuel.
  pose proof (stringify_roundtrips v Hok 0%nat ""
                (2 * String.length (stringify_at 0 v) + 2)%nat eq_refl) as H.
  rewrite append_nil_r in H. rewrite H by lia. reflexivity.
Qed.

(** ** JSON text: what parses is a JSON value *)

Lemma has_key_set_field (k' k : string) (v : value)
    (acc : list (string * value)) :
  has_key k' (set_field k v acc) = has_key k' acc || String.eqb k' k.
Proof.
  induction acc as [|[k0 v0] acc IH]; cbn.
  - now rewrite orb_false_r.
  - destruct (String.eqb k k0) eqn:Hk; cbn.
    + apply String.eqb_eq in Hk. subst k0.
      destruct (String.eqb k' k), (has_key k' acc); reflexivity.
    + rewrite IH. now rewrite orb_assoc.
Qed.

Lemma set_field_ok (k : string) (v : value) (acc : list (string * value)) :
  json_ok (JObj acc) = true -> json_ok v = true ->
  json_ok (JObj (set_field k v acc)) = true.
Proof.
  rewrite !json_ok_obj. intros Hacc Hv.
  apply andb_true_iff in Hacc as [Hd Hvals]. apply andb_true_iff.
  induction acc as [|[k0 v0] acc IH]; cbn.
  - rewrite Hv. auto.
  - cbn in Hd, Hvals.
    apply andb_true_iff in Hd as [Hk0 Hd].
    apply andb_true_iff in Hvals as [Hv0 Hvals].
    destruct (IH Hd Hvals) as [IHd IHv].
    destruct (String.eqb k k0) eqn:Hk; cbn.
    + apply String.eqb_eq in Hk. subst k0.
      rewrite Hk0, Hd, Hv. auto.
    + rewrite has_key_set_field, String.eqb_sym, Hk, orb_false_r.
      rewrite Hk0, IHd, Hv0. auto.
Qed.

Lemma json_ok_snoc (acc : list value) (v : value) :
  json_ok (JArr acc) = true -> json_ok v = true ->
  json_ok (JArr (acc ++ [v])) = true.
Proof.
  rewrite !json_ok_arr, forallb_app. cbn. intros -> ->. reflexivity.
Qed.

Lemma literal_value (word : string) (v0 : value) (s : string) (v : value)
    (r : string) :
  literal word v0 s = Some (v, r) -> v = v0.
Proof.
  unfold literal. destruct (strip_prefix word s); intros H; inversion H.
  reflexivity.
Qed.

Lemma parse_number_value (s : string) (v : value) (r : string) :
  parse_number s = Some (v, r) -> json_ok v = true.
Proof.
  unfold parse_number.
  destruct (canonical _ && negb _); [|discriminate].
  destruct (NilZero.int_of_string _); intros H; inversion H. reflexivity.
Qed.

Lemma parse_sound (fuel : nat) :
  (forall s v r, parse_value fuel s = Some (v, r) -> json_ok v = true)
  /\ (forall acc s v r,
         json_ok (JObj acc) = true ->
         parse_members fuel acc s = Some (v, r) -> json_ok v = true)
  /\ (forall acc s v r,
         json_ok (JArr acc) = true ->
         parse_elements fuel acc s = Some (v, r) -> json_ok v = true).
Proof.
  induction fuel as [|f (IHv & IHm & IHe)];
    [repeat split; intros; discriminate|].
  split; [|split].
  - intros s v r H. cbn [parse_value] in H.
    destruct (skip_ws s) as [|c rest]; [discriminate|].
    destruct (Ascii.eqb c dquote).
    { destruct (parse_string_body rest) as [[str r0]|]; inversion H.
      reflexivity. }
    destruct (Ascii.eqb c "{").
    { destruct (skip_ws rest) as [|c' r0]; [discriminate|].
      destruct (Ascii.eqb c' "}"); [inversion H; reflexivity|].
      exact (IHm [] rest v r eq_refl H). }
    destruct (Ascii.eqb c "[").
    { destruct (skip_ws rest) as [|c' r0]; [discriminate|].
      destruct (Ascii.eqb c' "]"); [inversion H; reflexivity|].
      exact (IHe [] rest v r eq_refl H). }
    destruct (Ascii.eqb c "n");
      [apply literal_value in H; subst; reflexivity|].
    destruct (Ascii.eqb c "t");
      [apply literal_value in H; subst; reflexivity|].
    destruct (Ascii.eqb c "f");
      [apply literal_value in H; subst; reflexivity|].
    exact (parse_number_value _ v r H).
  - intros acc s v r Hacc H. cbn [parse_members] in H.
    destruct (skip_ws s) as [|c rest]; [discriminate|].
    destruct (Ascii.eqb c dquote); [|discriminate].
    destruct (parse_string_body rest) as [[k r1]|]; [|discriminate].
    destruct (skip_ws r1) as [|c1 r2]; [discriminate|].
    destruct (Ascii.eqb c1 ":"); [|discriminate].
    destruct (parse_value f r2) as [[x r3]|] eqn:Hx; [|discriminate].
    apply IHv in Hx.
    destruct (skip_ws r3) as [|c3 r4]; [discriminate|].
    destruct (Ascii.eqb c3 ",").
    { exact (IHm _ r4 v r (set_field_ok k x acc Hacc Hx) H). }
    destruct (Ascii.eqb c3 "}"); inversion H.
    exact (set_field_ok k x acc Hacc Hx).
  - intros acc s v r Hacc H. cbn [parse_elements] in H.
    destruct (parse_value f s) as [[x r1]|] eqn:Hx; [|discriminate].
    apply IHv in Hx.
    destruct (skip_ws r1) as [|c r2]; [discriminate|].
    destruct (Ascii.eqb c ",").
    { exact (IHe _ r2 v r (json_ok_snoc acc x Hacc Hx) H). }
    destruct (Ascii.eqb c "]"); inversion H.
    exact (json_ok_snoc acc x Hacc Hx).
Qed.

Lemma JSON_parse_ok (text : string) (v : value) :
  JSON_parse text = Some v -> json_ok v = true.
Proof.
  unfold JSON_parse.
  destruct (parse_value _ text) as [[x r]|] eqn:H; [|discriminate].
  destruct (skip_ws r); intros E; inversion E; subst.
  exact (proj1 (parse_sound _) _ _ _ H).
Qed.

(** ** The configuration: loading, setting, saving *)

Lemma start_bot_config (env : process_env) (path : string) (w : world)
    (i : nat) :
  config (snd (run w i (start_bot env path)))
  = if exists_at w i then
      match read_at w (S i) with
      | ReadOk text =>
          match JSON_parse text with
          | Some v => spread (default_config env) v
          | None => default_config env
          end
      | ReadErr _ => default_config env
      end
    else default_config env.
Proof.
  unfold start_bot, load_config. cbn -[JSON_parse spread default_config].
  destruct (exists_at w i); cbn -[JSON_parse spread default_config];
    [|reflexivity].
  destruct (read_at w (S i)); cbn -[JSON_parse spread default_config];
    [|reflexivity].
  destruct (JSON_parse text); reflexivity.
Qed.

Lemma handleSet_run (env : process_env) (path : string) (w : world) (i : nat)
    (interaction : Interaction) (b : Bot) :
  hasPermission env interaction = true ->
  let cfg := set_field "notificationChannelId"
               (JStr (channel_id interaction)) (config b) in
  let text := JSON_stringify (JObj cfg) in
  let r := run w i (handleSetNotificationChannel env path interaction b) in
  (exists rest, fst r = Obs (WriteFileSync path text) (write_at w i) :: rest)
  /\ snd r = (Normal tt, mkBot (apiClient b) cfg)
  /\ forall d, write_at w i = WriteOk -> disk_after (fst r) d path = Some text.
Proof.
  intros Hperm. unfold handleSetNotificationChannel. rewrite Hperm.
  cbn -[JSON_stringify set_field assoc].
  destruct (write_at w i) eqn:Hw; cbn -[JSON_stringify set_field assoc];
    (destruct (truthy (js_or _ _)); cbn -[JSON_stringify set_field assoc];
     [match goal with
      | |- context [fetch_at w ?j] =>
          destruct (fetch_at w j) as [[] []|];
          cbn -[JSON_stringify set_field assoc];
          try match goal with
              | |- context [write_at w ?k] =>
                  destruct (write_at w k);
                  cbn -[JSON_stringify set_field assoc]
              end
      end|]);
    (split; [eexists; reflexivity|]); (split; [reflexivity|]);
    intros d Hok; try discriminate Hok;
    unfold write_file; rewrite String.eqb_refl; reflexivity.
Qed.

Lemma assoc_set_field_same (k : string) (v : value)
    (cfg : list (string * value)) :
  assoc k (set_field k v cfg) = Some v.
Proof.
  induction cfg as [|[k0 v0] cfg IH]; cbn.
  - now rewrite String.eqb_refl.
  - destruct (String.eqb k k0) eqn:Hk; cbn.
    + now rewrite String.eqb_refl.
    + now rewrite Hk.
Qed.

Lemma assoc_set_field_other (k k' : string) (v : value)
    (cfg : list (string * value)) :
  String.eqb k' k = false -> assoc k' (set_field k v cfg) = assoc k' cfg.
Proof.
  intros Hne. induction cfg as [|[k0 v0] cfg IH]; cbn.
  - now rewrite Hne.
  - destruct (String.eqb k k0) eqn:Hk; cbn.
    + apply String.eqb_eq in Hk. subst k0. now rewrite Hne.
    + now rewrite IH.
Qed.

Lemma assoc_fold_absent (k : string) (fs : list (string * value)) :
  has_key k fs = false ->
  forall target,
    assoc k (List.fold_left (fun acc kv => set_field (fst kv) (snd kv) acc)
               fs target)
    = assoc k target.
Proof.
  induction fs as [|[k0 v0] fs IH]; cbn; intros H target; [reflexivity|].
  apply orb_false_iff in H as [Hk Hfs].
  rewrite (IH Hfs). now apply assoc_set_field_other.
Qed.

Lemma assoc_fold (k : string) (v : value) (fs : list (string * value)) :
  distinct_keys fs = true -> assoc k fs = Some v ->
  forall target,
    assoc k (List.fold_left (fun acc kv => set_field (fst kv) (snd kv) acc)
               fs target)
    = Some v.
Proof.
  induction fs as [|[k0 v0] fs IH]; cbn; intros Hd Ha target;
    [discriminate|].
  apply andb_true_iff in Hd as [Hk0 Hd]. apply negb_true_iff in Hk0.
  destruct (String.eqb k k0) eqn:Hk.
  - apply String.eqb_eq in Hk. subst k0. inversion Ha; subst.
    rewrite (assoc_fold_absent k fs Hk0). apply assoc_set_field_same.
  - now apply IH.
Qed.

Lemma fold_set_field_ok (props : list (string * value)) :
  values_ok props = true ->
  forall target,
    json_ok (JObj target) = true ->
    json_ok (JObj (List.fold_left
                     (fun acc kv => set_field (fst kv) (snd kv) acc)
                     props target)) = true.
Proof.
  induction props as [|[k v] props IH]; cbn; intros Hv target Ht;
    [exact Ht|].
  apply andb_true_iff in Hv as [Hv Hprops].
  apply (IH Hprops). now apply set_field_ok.
Qed.

Lemma indexed_ok (xs : list value) :
  forallb json_ok xs = true -> forall i, values_ok (indexed i xs) = true.
Proof.
  induction xs as [|x xs IH]; cbn; intros H i; [reflexivity|].
  apply andb_true_iff in H as [Hx Hxs]. rewrite Hx. now apply IH.
Qed.

Lemma characters_ok (s : string) : forallb json_ok (characters s) = true.
Proof. induction s as [|c s IH]; [reflexivity|exact IH]. Qed.

Lemma spread_ok (target : list (string * value)) (src : value) :
  json_ok (JObj target) = true -> json_ok src = true ->
  json_ok (JObj (spread target src)) = true.
Proof.
  intros Ht Hs. unfold spread. apply fold_set_field_ok; [|exact Ht].
  destruct src as [| |b|z|s|xs|fs]; try reflexivity.
  - apply indexed_ok, characters_ok.
  - apply indexed_ok. now rewrite json_ok_arr in Hs.
  - rewrite json_ok_obj in Hs. now apply andb_true_iff in Hs as [_ Hs].
Qed.

Lemma default_config_ok (env : process_env) :
  json_ok (JObj (default_config env)) = true.
Proof.
  unfold default_config.
  destruct (NOTIFICATION_CHANNEL_ID env) as [[|c s]|]; reflexivity.
Qed.

Lemma handleSet_config (env : process_env) (path : string) (w : world)
    (i : nat) (interaction : Interaction) (b : Bot) :
  config (snd (snd (run w i
            (handleSetNotificationChannel env path interaction b))))
  = if hasPermission env interaction then
      set_field "notificationChannelId" (JStr (channel_id interaction))
        (config b)
    else config b.
Proof.
  destruct (hasPermission env interaction) eqn:Hperm.
  - destruct (handleSet_run env path w i interaction b Hperm) as (_ & Hr & _).
    cbn zeta in Hr. now rewrite Hr.
  - unfold handleSetNotificationChannel. rewrite Hperm. reflexivity.
Qed.

(** Every configuration the bot can hold is a JSON object. *)
Lemma config_reachable_ok (env : process_env) (path : string)
    (cfg : list (string * value)) :
  config_reachable env path cfg -> json_ok (JObj cfg) = true.
Proof.
  induction 1 as [w i|cfg s w i interaction _ IH].
  - rewrite start_bot_config.
    destruct (exists_at w i); [|apply default_config_ok].
    destruct (read_at w (S i)); [|apply default_config_ok].
    destruct (JSON_parse text) eqn:Hp; [|apply default_config_ok].
    apply spread_ok; [apply default_config_ok|].
    exact (JSON_parse_ok _ _ Hp).
  - rewrite handleSet_config. cbn [config].
    destruct (hasPermission env interaction); [|exact IH].
    now apply set_field_ok.
Qed.

(** C9. For every channel the configuration command is given by someone
    allowed to give it, whatever configuration the bot holds: the command
    starts by writing the whole configuration, with the new channel in it,
    to the configuration file; and when that write succeeds, a load run
    afresh on the files the command left (as at startup, under any
    environment) holds that channel, not the environment's default. *)
Theorem notification_channel_persists (env : process_env) (path : string)
    (w : world) (i : nat) (interaction : Interaction) (b : Bot) :
  config_reachable env path (config b) ->
  hasPermission env interaction = true ->
  let r := run w i (handleSetNotificationChannel env path interaction b) in
  (exists text rest,
      fst r = Obs (WriteFileSync path text) (write_at w i) :: rest)
  /\ assoc "notificationChannelId" (config (snd (snd r)))
     = Some (JStr (channel_id interaction))
  /\ (write_at w i = WriteOk ->
      forall (d : disk) (env' : process_env) (w' : world) (i' : nat),
        reads_disk (disk_after (fst r) d) path w' i' ->
        assoc "notificationChannelId"
          (config (snd (run w' i' (start_bot env' path))))
        = Some (JStr (channel_id interaction))).
Proof.
  intros Hreach Hperm.
  destruct (handleSet_run env path w i interaction b Hperm)
    as ((rest & Htr) & Hr & Hdisk).
  cbn zeta in *. split; [eauto|]. split.
  - rewrite Hr. apply assoc_set_field_same.
  - intros Hw d env' w' i' Hreads. unfold reads_disk in Hreads.
    rewrite (Hdisk d Hw) in Hreads. destruct Hreads as [Hex Hread].
    rewrite start_bot_config, Hex, Hread.
    assert (Hok : json_ok (JObj (set_field "notificationChannelId"
                     (JStr (channel_id interaction)) (config b))) = true).
    { apply set_field_ok; [|reflexivity].
      exact (config_reachable_ok env path _ Hreach). }
    rewrite (JSON_parse_stringify _ Hok).
    rewrite json_ok_obj in Hok. apply andb_true_iff in Hok as [Hd _].
    apply (assoc_fold _ _ _ Hd). apply assoc_set_field_same.
Qed.

(** ** The reconciler *)

Lemma handlePingServer_run (env : process_env) (w : world) (i : nat)
    (b : Bot) :
  let g := run w (S i) (getResources (apiClient b)) in
  let after := ping_after env w (S i + List.length (fst g))
                 (mkBot (snd (snd g)) (config b)) (fst (snd g)) in
  run w i (handlePingServer env b)
  = (Obs DeferReply tt :: fst g ++ fst after, snd after)%list.
Proof.
  unfold handlePingServer, try_catch, bind, on_client.
  cbn -[getResources]. rewrite !run_pbind.
  destruct (run w (S i) (getResources (apiClient b))) as [trg [[result|e] s']].
  all: cbn -[errorEmbed onlineEmbed public_ip_of server_address].
  all: rewrite ?app_nil_r, ?Nat.add_0_r.
  2: reflexivity.
  destruct (public_ip_of result) as [ip|e];
    cbn -[errorEmbed onlineEmbed server_address];
    rewrite ?app_nil_r; [|reflexivity].
  destruct (truthy ip); cbn -[errorEmbed onlineEmbed server_address];
    rewrite ?app_nil_r; [|reflexivity].
  destruct (status_at w (S (S (i + List.length trg))));
    cbn -[errorEmbed onlineEmbed server_address];
    rewrite ?app_nil_r, <- ?app_assoc; reflexivity.
Qed.

Lemma updateBotStatus_run (env : process_env) (w : world) (i : nat)
    (b : Bot) :
  let g := run w i (getResources (apiClient b)) in
  let after := status_after env w (i + List.length (fst g))
                 (mkBot (snd (snd g)) (config b)) (fst (snd g)) in
  run w i (updateBotStatus env b) = (fst g ++ fst after, snd after)%list.
Proof.
  unfold updateBotStatus, try_catch, bind, on_client.
  cbn -[getResources]. rewrite !run_pbind.
  destruct (run w i (getResources (apiClient b))) as [trg [[result|e] s']].
  all: cbn -[public_ip_of server_address].
  all: rewrite ?app_nil_r, ?Nat.add_0_r.
  2: reflexivity.
  destruct (public_ip_of result) as [ip|e];
    cbn -[server_address]; rewrite ?app_nil_r; [|reflexivity].
  destruct (truthy ip); cbn -[server_address]; rewrite ?app_nil_r;
    [|reflexivity].
  destruct (status_at w (i + List.length trg));
    cbn -[server_address]; rewrite ?app_nil_r, <- ?app_assoc; reflexivity.
Qed.

Lemma authenticate_client_trace (w : world) (i : nat) (s : Session) :
  forallb client_obs (fst (run w i (authenticate s))) = true.
Proof.
  destruct (authenticate_outcome w i s) as
    [(d & tok & _ & _ & Htr & _) | (ans & error & _ & Htr & _ & _)];
    cbn zeta in Htr; rewrite Htr; reflexivity.
Qed.

Lemma call_client_trace (w : world) (i : nat) (op : api_op) (s : Session) :
  forallb client_obs (fst (run w i (call op s))) = true.
Proof.
  assert (Hreq : forall j s1,
             forallb client_obs (fst (run w j (op_request op s1))) = true).
  { intros j s1. rewrite op_request_outcome.
    destruct (http_at w j); destruct op; reflexivity. }
  rewrite call_run.
  destruct (token_held s) eqn:Ht;
    [destruct (expired (now_at w i) (tokenExpiry s)) eqn:He|].
  - rewrite (ensure_expired w i s Ht He). cbn [fst snd].
    pose proof (authenticate_client_trace w (S i) s) as Ha.
    destruct (snd (run w (S i) (authenticate s))) as [[a|e] s1];
      cbn [discard fst snd]; rewrite ?forallb_app; cbn [forallb client_obs];
      rewrite Ha, ?Hreq; reflexivity.
  - rewrite (ensure_fresh w i s Ht He). cbn [fst snd].
    rewrite forallb_app, Hreq. reflexivity.
  - rewrite (ensure_no_token w i s Ht). cbn [fst snd].
    pose proof (authenticate_client_trace w i s) as Ha.
    destruct (snd (run w i (authenticate s))) as [[a|e] s1];
      cbn [discard fst snd]; rewrite ?forallb_app, Ha, ?Hreq; reflexivity.
Qed.

Lemma client_trace_silent (tr : list obs) :
  forallb client_obs tr = true ->
  queries tr = [] /\ shown tr = [] /\ replies tr = []
  /\ query_answer tr = None.
Proof.
  induction tr as [|[X e x] tr IH]; [auto|].
  cbn [forallb]. intros H. apply andb_true_iff in H as [He Htr].
  destruct e; try discriminate He; exact (IH Htr).
Qed.

Lemma queries_app (a b : list obs) :
  queries (a ++ b) = (queries a ++ queries b)%list.
Proof.
  induction a as [|[X e x] a IH]; [reflexivity|].
  destruct e; cbn; rewrite IH; reflexivity.
Qed.

Lemma shown_app (a b : list obs) :
  shown (a ++ b) = (shown a ++ shown b)%list.
Proof.
  induction a as [|[X e x] a IH]; [reflexivity|].
  destruct e; cbn; rewrite IH; reflexivity.
Qed.

Lemma replies_app (a b : list obs) :
  replies (a ++ b) = (replies a ++ replies b)%list.
Proof.
  induction a as [|[X e x] a IH]; [reflexivity|].
  destruct e; cbn; rewrite IH; reflexivity.
Qed.

Lemma query_answer_app (a b : list obs) :
  query_answer (a ++ b)
  = match query_answer a with
    | Some r => Some r
    | None => query_answer b
    end.
Proof.
  induction a as [|[X e x] a IH]; [reflexivity|].
  destruct e; cbn; try exact IH; reflexivity.
Qed.

(** How [getResources] ends, read off the answer its request got. *)
Lemma getResources_outcome (w : world) (i : nat) (s : Session) :
  let r := run w i (getResources s) in
  match fst (snd r) with
  | Normal result =>
      http_answer (baseURL s ++ "/tetracubed/resources") (fst r)
      = Some (HttpOk result)
  | Thrown _ =>
      forall result,
        http_answer (baseURL s ++ "/tetracubed/resources") (fst r)
        <> Some (HttpOk result)
  end.
Proof.
  cbn zeta.
  destruct (call_shape w i OpGetResources s) as
    (pre & Hpre & [(j & s1 & Hb & Htr & Hr) | (Htr & Hr)]);
    change (call OpGetResources) with getResources in *;
    cbn [op_path] in Hpre; rewrite Htr, Hr.
  - pose proof (op_request_answer w j OpGetResources s1) as Hans.
    cbn [op_path] in Hans.
    rewrite http_answer_app, Hpre, <- Hb, Hans.
    rewrite op_request_outcome. destruct (http_at w j); cbn [fst snd].
    + reflexivity.
    + intros result H. discriminate H.
  - cbn [fst snd]. rewrite Hpre. intros result H. discriminate H.
Qed.

Lemma ping_after_no_request (env : process_env) (w : world) (j : nat)
    (b : Bot) (got : completion value) (url : string) :
  http_answer url (fst (ping_after env w j b got)) = None.
Proof.
  unfold ping_after, ping_failed.
  destruct got as [result|e]; [|reflexivity].
  destruct (public_ip_of result) as [ip|e]; [|reflexivity].
  destruct (truthy ip); [|reflexivity].
  destruct (status_at w (S j)); reflexivity.
Qed.

Lemma status_after_no_request (env : process_env) (w : world) (j : nat)
    (b : Bot) (got : completion value) (url : string) :
  http_answer url (fst (status_after env w j b got)) = None.
Proof.
  unfold status_after.
  destruct got as [result|e]; [|reflexivity].
  destruct (public_ip_of result) as [ip|e]; [|reflexivity].
  destruct (truthy ip); [|reflexivity].
  destruct (status_at w j); reflexivity.
Qed.

(** A run of [handlePingServer] in which [getResources] got [result]. *)
Lemma handlePingServer_got (env : process_env) (w : world) (i : nat)
    (b : Bot) (result : value) :
  http_answer (resources_url b) (fst (run w i (handlePingServer env b)))
  = Some (HttpOk result) ->
  exists pre j b',
    forallb client_obs pre = true
    /\ run w i (handlePingServer env b)
       = (Obs DeferReply tt :: pre
            ++ fst (ping_after env w j b' (Normal result)),
          snd (ping_after env w j b' (Normal result)))%list.
Proof.
  rewrite handlePingServer_run. cbn zeta. cbn [fst snd http_answer].
  rewrite http_answer_app, ping_after_no_request.
  pose proof (getResources_outcome w (S i) (apiClient b)) as Hg.
  cbn zeta in Hg. unfold resources_url. intros Ha.
  destruct (fst (snd (run w (S i) (getResources (apiClient b)))))
    as [result'|e] eqn:Hres.
  - rewrite Hg in Ha. inversion Ha; subst.
    eexists _, _, _. split; [|reflexivity].
    apply (call_client_trace w (S i) OpGetResources).
  - destruct (http_answer _ _) as [r|] eqn:Hr; [|discriminate Ha].
    inversion Ha; subst. now destruct (Hg result).
Qed.

(** A run of [updateBotStatus] in which [getResources] got [result]. *)
Lemma updateBotStatus_got (env : process_env) (w : world) (i : nat)
    (b : Bot) (result : value) :
  http_answer (resources_url b) (fst (run w i (updateBotStatus env b)))
  = Some (HttpOk result) ->
  exists pre j b',
    forallb client_obs pre = true
    /\ run w i (updateBotStatus env b)
       = (pre ++ fst (status_after env w j b' (Normal result)),
          snd (status_after env w j b' (Normal result)))%list.
Proof.
  rewrite updateBotStatus_run. cbn zeta. cbn [fst snd].
  rewrite http_answer_app, status_after_no_request.
  pose proof (getResources_outcome w i (apiClient b)) as Hg.
  cbn zeta in Hg. unfold resources_url. intros Ha.
  destruct (fst (snd (run w i (getResources (apiClient b)))))
    as [result'|e] eqn:Hres.
  - rewrite Hg in Ha. inversion Ha; subst.
    eexists _, _, _. split; [|reflexivity].
    apply (call_client_trace w i OpGetResources).
  - destruct (http_answer _ _) as [r|] eqn:Hr; [|discriminate Ha].
    inversion Ha; subst. now destruct (Hg result).
Qed.

Lemma public_ip_of_absent (result : value) :
  nullish result = false -> public_ip_entry result = None ->
  public_ip_of result = Normal JUndefined.
Proof.
  destruct result as [| |b|z|s|xs|fs]; try discriminate; try reflexivity.
  intros _. unfold public_ip_entry, public_ip_of. cbn [get_prop].
  destruct (assoc "outputs" fs) as [[| |b|z|s|xs|outs]|]; try reflexivity.
  unfold opt_prop. cbn [get_prop]. now intros ->.
Qed.

Lemma public_ip_of_present (result ip : value) :
  public_ip_entry result = Some ip -> public_ip_of result = Normal ip.
Proof.
  destruct result as [| |b|z|s|xs|fs]; try discriminate.
  unfold public_ip_entry, public_ip_of. cbn [get_prop].
  destruct (assoc "outputs" fs) as [[| |b|z|s|xs|outs]|]; try discriminate.
  unfold opt_prop. cbn [get_prop]. now intros ->.
Qed.

(** The observations of a reconciler run, once the silent part that
    belongs to the API client is set aside. *)
Lemma observed_after (pre rest : list obs) :
  forallb client_obs pre = true ->
  queries (pre ++ rest) = queries rest
  /\ shown (pre ++ rest) = shown rest
  /\ replies (pre ++ rest) = replies rest
  /\ query_answer (pre ++ rest) = query_answer rest.
Proof.
  intros H. destruct (client_trace_silent pre H) as (Hq & Hs & Hr & Ha).
  rewrite queries_app, shown_app, replies_app, query_answer_app.
  rewrite Hq, Hs, Hr, Ha. auto.
Qed.

Lemma observed_after_defer (pre rest : list obs) :
  forallb client_obs pre = true ->
  queries (Obs DeferReply tt :: pre ++ rest) = queries rest
  /\ shown (Obs DeferReply tt :: pre ++ rest) = shown rest
  /\ replies (Obs DeferReply tt :: pre ++ rest) = replies rest
  /\ query_answer (Obs DeferReply tt :: pre ++ rest) = query_answer rest.
Proof. exact (observed_after pre rest). Qed.

Lemma ping_after_present (env : process_env) (w : world) (j : nat) (b : Bot)
    (result ip : value) :
  public_ip_entry result = Some ip -> truthy ip = true ->
  ping_after env w j b (Normal result)
  = match status_at w (S j) with
    | StatusErr e =>
        (Obs DateNow (now_at w j)
           :: Obs (McStatus (server_address env ip) 25565 5000) (StatusErr e)
           :: fst (ping_failed e b),
         snd (ping_failed e b))
    | StatusOk st =>
        ([Obs DateNow (now_at w j);
          Obs (McStatus (server_address env ip) 25565 5000) (StatusOk st);
          Obs DateNow (now_at w (S (S j)));
          Obs (EditReply
                 (onlineEmbed (server_address env ip) st
                    (now_at w (S (S j)) - now_at w j))) tt],
         (Normal tt, b))
    end.
Proof.
  intros Hip Ht. unfold ping_after.
  rewrite (public_ip_of_present result ip Hip), Ht. reflexivity.
Qed.

Lemma status_after_present (env : process_env) (w : world) (j : nat)
    (b : Bot) (result ip : value) :
  public_ip_entry result = Some ip -> truthy ip = true ->
  status_after env w j b (Normal result)
  = match status_at w j with
    | StatusErr e =>
        ([Obs (McStatus (server_address env ip) 25565 3000) (StatusErr e);
          Obs (SetPresence "🟡 Server Starting..." 3 "dnd") tt],
         (Normal tt, b))
    | StatusOk st =>
        ([Obs (McStatus (server_address env ip) 25565 3000) (StatusOk st);
          Obs (SetPresence
                 ("🟢 " ++ string_of_Z (players_online st) ++ "/"
                  ++ string_of_Z (players_max st) ++ " players")
                 3 "online") tt],
         (Normal tt, b))
    end.
Proof.
  intros Hip Ht. unfold status_after.
  rewrite (public_ip_of_present result ip Hip), Ht. reflexivity.
Qed.

(** C5. With a stable hostname configured (set and not empty), whenever
    [getResources] returns a snapshot with a [public_ip], whatever its
    value, each path makes one game-protocol query, and makes it to the
    hostname, not to the address of the snapshot. *)
Theorem hostname_overrides_public_ip (env : process_env) (w : world)
    (i : nat) (b : Bot) (result ip : value) (hostname : string) :
  SERVER_HOSTNAME env = Some hostname -> hostname <> "" ->
  public_ip_entry result = Some ip -> truthy ip = true ->
  (let r := run w i (handlePingServer env b) in
   http_answer (resources_url b) (fst r) = Some (HttpOk result) ->
   queries (fst r) = [(JStr hostname, 25565, 5000)])
  /\ (let r := run w i (updateBotStatus env b) in
      http_answer (resources_url b) (fst r) = Some (HttpOk result) ->
      queries (fst r) = [(JStr hostname, 25565, 3000)]).
Proof.
  intros Hhost Hne Hip Ht.
  assert (Haddr : server_address env ip = JStr hostname).
  { unfold server_address. rewrite Hhost. cbn.
    destruct hostname; [now destruct Hne|reflexivity]. }
  split; cbn zeta; intros Hgot.
  - destruct (handlePingServer_got env w i b result Hgot)
      as (pre & j & b' & Hpre & ->).
    rewrite (ping_after_present env w j b' result ip Hip Ht), Haddr.
    cbn [fst snd].
    destruct (status_at w (S j)) as [st|e]; cbn [fst snd ping_failed];
      match goal with
      | |- context [(pre ++ ?t)%list] =>
          destruct (observed_after_defer pre t Hpre) as (-> & _)
      end; reflexivity.
  - destruct (updateBotStatus_got env w i b result Hgot)
      as (pre & j & b' & Hpre & ->).
    rewrite (status_after_present env w j b' result ip Hip Ht), Haddr.
    cbn [fst snd].
    destruct (status_at w j) as [st|e]; cbn [fst snd];
      match goal with
      | |- context [(pre ++ ?t)%list] =>
          destruct (observed_after pre t Hpre) as (-> & _)
      end; reflexivity.
Qed.

Lemma hostname_overrides_public_ip_witness :
  let env := example_env (Some "mc.example.org") in
  let w := reconciler_world (provisioned "1.2.3.4") (StatusErr refused) in
  let w' := reconciler_world (provisioned "5.6.7.8") (StatusErr refused) in
  queries (fst (run w 0 (handlePingServer env example_bot)))
  = [(JStr "mc.example.org", 25565, 5000)]
  /\ queries (fst (run w' 0 (updateBotStatus env example_bot)))
     = [(JStr "mc.example.org", 25565, 3000)].
Proof.
  intros env w w'.
  assert (Hne : "mc.example.org" <> "") by discriminate.
  split.
  - apply (proj1 (hostname_overrides_public_ip env w 0 example_bot
                    (provisioned "1.2.3.4") (JStr "1.2.3.4")
                    "mc.example.org" eq_refl Hne eq_refl eq_refl)).
    reflexivity.
  - apply (proj2 (hostname_overrides_public_ip env w' 0 example_bot
                    (provisioned "5.6.7.8") (JStr "5.6.7.8")
                    "mc.example.org" eq_refl Hne eq_refl eq_refl)).
    reflexivity.
Defined.

Lemma ping_after_queries (env : process_env) (w : world) (j : nat) (b : Bot)
    (got : completion value) :
  Forall (fun q => snd q = 5000 /\ snd (fst q) = 25565)
    (queries (fst (ping_after env w j b got))).
Proof.
  unfold ping_after, ping_failed.
  destruct got as [result|e]; [|constructor].
  destruct (public_ip_of result) as [ip|e]; [|constructor].
  destruct (truthy ip); [|constructor].
  destruct (status_at w (S j)); repeat constructor.
Qed.

Lemma status_after_queries (env : process_env) (w : world) (j : nat)
    (b : Bot) (got : completion value) :
  Forall (fun q => snd q = 3000 /\ snd (fst q) = 25565)
    (queries (fst (status_after env w j b got))).
Proof.
  unfold status_after.
  destruct got as [result|e]; [|constructor].
  destruct (public_ip_of result) as [ip|e]; [|constructor].
  destruct (truthy ip); [|constructor].
  destruct (status_at w j); repeat constructor.
Qed.

(** C8. Every game-protocol query of the on-demand path is made with a
    timeout of 5000 ms and every one of the periodic path with 3000 ms, on
    port 25565, in every run; and whenever [getResources] returns a
    snapshot with a [public_ip], the run makes exactly one such query. *)
Theorem query_timeouts (env : process_env) (w : world) (i : nat) (b : Bot) :
  Forall (fun q => snd q = 5000 /\ snd (fst q) = 25565)
    (queries (fst (run w i (handlePingServer env b))))
  /\ Forall (fun q => snd q = 3000 /\ snd (fst q) = 25565)
       (queries (fst (run w i (updateBotStatus env b))))
  /\ forall result ip,
       public_ip_entry result = Some ip -> truthy ip = true ->
       (http_answer (resources_url b) (fst (run w i (handlePingServer env b)))
        = Some (HttpOk result) ->
        queries (fst (run w i (handlePingServer env b)))
        = [(server_address env ip, 25565, 5000)])
       /\ (http_answer (resources_url b)
             (fst (run w i (updateBotStatus env b)))
           = Some (HttpOk result) ->
           queries (fst (run w i (updateBotStatus env b)))
           = [(server_address env ip, 25565, 3000)]).
Proof.
  split; [|split].
  - rewrite handlePingServer_run. cbn zeta. cbn [fst].
    pose proof (call_client_trace w (S i) OpGetResources (apiClient b)) as Hg.
    change (call OpGetResources) with getResources in Hg.
    match goal with
    | |- context [(?pre ++ ?t)%list] =>
        destruct (observed_after_defer pre t Hg) as (-> & _)
    end.
    apply ping_after_queries.
  - rewrite updateBotStatus_run. cbn zeta. cbn [fst].
    pose proof (call_client_trace w i OpGetResources (apiClient b)) as Hg.
    change (call OpGetResources) with getResources in Hg.
    match goal with
    | |- context [(?pre ++ ?t)%list] =>
        destruct (observed_after pre t Hg) as (-> & _)
    end.
    apply status_after_queries.
  - intros result ip Hip Ht. split; intros Hgot.
    + destruct (handlePingServer_got env w i b result Hgot)
        as (pre & j & b' & Hpre & ->).
      rewrite (ping_after_present env w j b' result ip Hip Ht).
      cbn [fst snd].
      destruct (status_at w (S j)) as [st|e]; cbn [fst snd ping_failed];
        match goal with
        | |- context [(pre ++ ?t)%list] =>
            destruct (observed_after_defer pre t Hpre) as (-> & _)
        end; reflexivity.
    + destruct (updateBotStatus_got env w i b result Hgot)
        as (pre & j & b' & Hpre & ->).
      rewrite (status_after_present env w j b' result ip Hip Ht).
      cbn [fst snd].
      destruct (status_at w j) as [st|e]; cbn [fst snd];
        match goal with
        | |- context [(pre ++ ?t)%list] =>
            destruct (observed_after pre t Hpre) as (-> & _)
        end; reflexivity.
Qed.

Lemma query_timeouts_witness :
  let env := example_env None in
  let w := reconciler_world (provisioned "1.2.3.4") (StatusErr timed_out) in
  queries (fst (run w 0 (handlePingServer env example_bot)))
  = [(JStr "1.2.3.4", 25565, 5000)]
  /\ queries (fst (run w 0 (updateBotStatus env example_bot)))
     = [(JStr "1.2.3.4", 25565, 3000)].
Proof.
  intros env w.
  destruct (query_timeouts env w 0 example_bot) as (_ & _ & H).
  destruct (H (provisioned "1.2.3.4") (JStr "1.2.3.4") eq_refl eq_refl)
    as (Hping & Hstatus).
  split; [apply Hping|apply Hstatus]; reflexivity.
Defined.

Lemma notification_channel_persists_witness :
  let env := example_env None in
  let path := "/srv/fox/config.json" in
  let started := snd (run quiet_world 0 (start_bot env path)) in
  let r := run quiet_world 0
             (handleSetNotificationChannel env path (an_admin "1234")
                started) in
  let files := disk_after (fst r) (fun _ => None) in
  let restarted :=
    with_files true (match files path with
                     | Some text => ReadOk text
                     | None => ReadOk ""
                     end) quiet_world in
  assoc "notificationChannelId"
    (config (snd (run restarted 0 (start_bot env path))))
  = Some (JStr "1234").
Proof.
  intros env path started r files restarted.
  destruct (notification_channel_persists env path quiet_world 0
              (an_admin "1234") started
              (config_loaded env path quiet_world 0) eq_refl)
    as (_ & _ & Hload).
  apply (Hload eq_refl (fun _ => None) env restarted 0%nat).
  vm_compute. split; reflexivity.
Defined.

(** * Further properties *)

(** ** The API client: the guard, the token and the request *)

(** The three ways a call can go: the guard lets it through, the guard
    authenticates and the request follows with the new token, or the
    authentication fails and nothing follows. *)
Lemma call_cases (w : world) (i : nat) (op : api_op) (s : Session) :
  let r := run w i (call op s) in
  (token_held s = true
   /\ expired (now_at w i) (tokenExpiry s) = false
   /\ r = (Obs DateNow (now_at w i) :: fst (run w (S i) (op_request op s)),
           snd (run w (S i) (op_request op s))))
  \/ (exists pre j d tok,
         (pre = [] \/ pre = [Obs DateNow (now_at w i)])
         /\ get_prop d "access_token" = Normal tok
         /\ r = ((pre ++ Obs (token_event s) (HttpOk d)
                    :: Obs DateNow (now_at w (S j))
                    :: fst (run w (S (S j))
                              (op_request op
                                 (set_token tok
                                    (now_at w (S j) + REFRESH_AFTER_MS) s))))%list,
                 snd (run w (S (S j))
                        (op_request op
                           (set_token tok
                              (now_at w (S j) + REFRESH_AFTER_MS) s)))))
  \/ (exists pre ans error,
         (pre = [] \/ pre = [Obs DateNow (now_at w i)])
         /\ (ans = HttpErr error
             \/ exists d, ans = HttpOk d
                          /\ get_prop d "access_token" = Thrown error)
         /\ r = ((pre ++ [Obs (token_event s) ans;
                          Obs (ConsoleError "Authentication failed:"
                                 (error_detail error)) tt])%list,
                 (Thrown (new_Error (JStr AUTH_FAILED)), s))).
Proof.
  cbn zeta. rewrite call_run.
  destruct (token_held s) eqn:Ht;
    [destruct (expired (now_at w i) (tokenExpiry s)) eqn:He|].
  - rewrite (ensure_expired w i s Ht He). right.
    destruct (authenticate_outcome w (S i) s) as
      [(d & tok & _ & Hg & Htr & Hr) | (ans & error & _ & Htr & Hc & Hr)];
      cbn zeta in Htr, Hr; rewrite Htr, Hr; cbn [fst snd discard].
    + left. exists [Obs DateNow (now_at w i)], (S i), d, tok.
      split; [auto|]. split; [exact Hg|].
      cbn [List.length app]. rewrite <- !plus_n_Sm, Nat.add_0_r. reflexivity.
    + right. exists [Obs DateNow (now_at w i)], ans, error. auto.
  - left. rewrite (ensure_fresh w i s Ht He). cbn [fst snd List.length app].
    rewrite Nat.add_1_r. auto.
  - rewrite (ensure_no_token w i s Ht). right.
    destruct (authenticate_outcome w i s) as
      [(d & tok & _ & Hg & Htr & Hr) | (ans & error & _ & Htr & Hc & Hr)];
      cbn zeta in Htr, Hr; rewrite Htr, Hr; cbn [fst snd discard].
    + left. exists [], i, d, tok.
      split; [auto|]. split; [exact Hg|].
      cbn [List.length app]. rewrite <- !plus_n_Sm, Nat.add_0_r. reflexivity.
    + right. exists [], ans, error. auto.
Qed.

(** X1. Whether a call authenticates is decided by the guard alone: it
    makes no token request when a token is held and the clock reads before
    the expiry, and exactly one otherwise, the reading that equals the
    expiry included. *)
Theorem authenticate_calls_of_call (w : world) (i : nat) (op : api_op)
    (s : Session) :
  authenticate_calls (baseURL s) (fst (run w i (call op s)))
  = if token_held s && negb (expired (now_at w i) (tokenExpiry s))
    then 0%nat else 1%nat.
Proof.
  destruct (token_held s) eqn:Ht;
    [destruct (expired (now_at w i) (tokenExpiry s)) eqn:He|]; cbn [andb negb].
  - destruct (call_with_expired_token w i op s Ht He)
      as (x & rest & -> & Hrest).
    change (Obs DateNow ?n :: ?t) with ([Obs DateNow n] ++ t)%list.
    rewrite authenticate_calls_app, authenticate_calls_token, Hrest.
    reflexivity.
  - now destruct (call_with_fresh_token w i op s Ht He) as (_ & _ & ->).
  - destruct (call_without_token w i op s Ht) as (x & rest & -> & Hrest).
    rewrite authenticate_calls_token, Hrest. reflexivity.
Qed.

Lemma call_authenticates_at_most_once (w : world) (i : nat) (op : api_op)
    (s : Session) :
  (authenticate_calls (baseURL s) (fst (run w i (call op s))) <= 1)%nat.
Proof.
  destruct (token_held s) eqn:Ht;
    [destruct (expired (now_at w i) (tokenExpiry s)) eqn:He|].
  - destruct (call_with_expired_token w i op s Ht He)
      as (x & rest & -> & Hrest).
    change (Obs DateNow ?n :: ?t) with ([Obs DateNow n] ++ t)%list.
    rewrite authenticate_calls_app, authenticate_calls_token, Hrest.
    apply le_n.
  - destruct (call_with_fresh_token w i op s Ht He) as (_ & _ & ->).
    apply Nat.le_0_1.
  - destruct (call_without_token w i op s Ht) as (x & rest & -> & Hrest).
    rewrite authenticate_calls_token, Hrest. apply le_n.
Qed.

(** X2. A sequence of operations never makes more token requests than it
    has operations, whatever the answers and the clock. *)
Theorem authenticate_calls_bounded (ops : list api_op) :
  forall (w : world) (i : nat) (s : Session),
    (authenticate_calls_of_log (baseURL s) (run_ops w i s ops)
     <= List.length ops)%nat.
Proof.
  induction ops as [|op ops IH]; intros w i s; cbn [run_ops]; [apply le_n|].
  cbn [authenticate_calls_of_log List.length].
  specialize (IH w (i + List.length (fst (run w i (call op s))))%nat
                (snd (snd (run w i (call op s))))).
  rewrite call_state in IH.
  pose proof (call_authenticates_at_most_once w i op s). lia.
Qed.

Ltac url_facts s :=
  let H1 := fresh in let H2 := fresh in let H3 := fresh in
  let H4 := fresh in let H5 := fresh in let H6 := fresh in
  pose proof (op_url_not_token (baseURL s) OpStart) as H1;
  pose proof (op_url_not_token (baseURL s) OpStop) as H2;
  pose proof (op_url_not_token (baseURL s) OpGetResources) as H3;
  pose proof (token_url_not_op (baseURL s) OpStart) as H4;
  pose proof (token_url_not_op (baseURL s) OpStop) as H5;
  pose proof (token_url_not_op (baseURL s) OpGetResources) as H6;
  cbn [op_path] in H1, H2, H3, H4, H5, H6.

Ltac url_rewrite :=
  repeat match goal with
         | H : String.eqb _ _ = false |- _ => rewrite H
         | |- context [String.eqb ?x ?x] => rewrite (String.eqb_refl x)
         end.

(** X3. The request of an operation carries the token the session holds at
    that moment: the one a token answer has just brought when the call
    authenticated, the one held before when it did not. *)
Theorem request_carries_current_token (w : world) (i : nat) (op : api_op)
    (s : Session) :
  let tr := fst (run w i (call op s)) in
  (forall d tok,
      http_answer (baseURL s ++ "/token") tr = Some (HttpOk d) ->
      get_prop d "access_token" = Normal tok ->
      request_headers (baseURL s ++ op_path op) tr
      = Some [("Authorization", "Bearer " ++ to_string tok)])
  /\ (http_answer (baseURL s ++ "/token") tr = None ->
      request_headers (baseURL s ++ op_path op) tr
      = Some [("Authorization", "Bearer " ++ to_string (accessToken s))]).
Proof.
  cbn zeta. url_facts s.
  destruct (call_cases w i op s) as
    [(Ht & He & Hr)
    | [(pre & j & d0 & tok0 & Hpre & Hg & Hr)
      | (pre & ans & error & Hpre & Hans & Hr)]];
    cbn zeta in Hr; rewrite Hr; clear Hr; cbn [fst];
    rewrite ?op_request_outcome.
  - split; [intros d tok Ha|intros _];
      destruct (http_at w (S i)); destruct op.
    1-6: exfalso; cbn in Ha; revert Ha; url_rewrite; discriminate.
    all: cbn; url_rewrite; reflexivity.
  - split; [intros d tok Ha Hg'|intros Ha].
    + assert (d = d0).
      { destruct Hpre as [-> | ->]; cbn in Ha; revert Ha; url_rewrite;
          intros Ha; now inversion Ha. }
      subst d0. rewrite Hg in Hg'. inversion Hg'; subst tok0.
      destruct Hpre as [-> | ->]; destruct (http_at w (S (S j)));
        destruct op; cbn; url_rewrite; reflexivity.
    + exfalso. destruct Hpre as [-> | ->]; cbn in Ha; revert Ha;
        url_rewrite; discriminate.
  - split; [intros d tok Ha Hg'|intros Ha].
    + exfalso.
      destruct Hpre as [-> | ->]; cbn in Ha; revert Ha; url_rewrite;
        intros Ha; inversion Ha; subst;
        destruct Hans as [Hans | (d' & Hans & Hthrown)];
        inversion Hans; subst; congruence.
    + exfalso. destruct Hpre as [-> | ->]; cbn in Ha; revert Ha;
        url_rewrite; discriminate.
Qed.

Lemma get_prop_thrown (d : value) (k : string) (e : js_error) :
  get_prop d k = Thrown e -> nullish d = true.
Proof. destruct d; cbn; intros H; try discriminate H; reflexivity. Qed.



(** X5. The form that carries the password is only ever posted to the token
    endpoint: no request a call makes to another URL has a form for a
    body. *)
Theorem form_only_to_token_endpoint (w : world) (i : nat) (op : api_op)
    (s : Session) :
  Forall (fun o => posts_form o = true ->
                   is_request (baseURL s ++ "/token") o = true)
    (fst (run w i (call op s))).
Proof.
  destruct (call_cases w i op s) as
    [(Ht & He & Hr)
    | [(pre & j & d0 & tok0 & Hpre & Hg & Hr)
      | (pre & ans0 & error & Hpre & Hans & Hr)]];
    cbn zeta in Hr; rewrite Hr; clear Hr; cbn [fst snd];
    rewrite ?op_request_outcome.
  - destruct (http_at w (S i)); destruct op;
      repeat constructor; cbn; intros Hf; discriminate Hf.
  - destruct Hpre as [-> | ->]; destruct (http_at w (S (S j))); destruct op;
      repeat constructor; cbn; intros Hf; try discriminate Hf;
      apply String.eqb_refl.
  - destruct Hpre as [-> | ->];
      repeat constructor; cbn; intros Hf; try discriminate Hf;
      apply String.eqb_refl.
Qed.

(** X6. A call makes its own request at most once, with no retry after a
    rejection, and whatever the answer the session it leaves holds exactly
    the token that request was sent with: a rejected request does not drop
    the token. *)
Theorem one_request_token_kept (w : world) (i : nat) (op : api_op)
    (s : Session) :
  let r := run w i (call op s) in
  (requests_to (baseURL s ++ op_path op) (fst r) <= 1)%nat
  /\ forall hs,
       request_headers (baseURL s ++ op_path op) (fst r) = Some hs ->
       hs = bearer (snd (snd r)).
Proof.
  cbn zeta. url_facts s. unfold requests_to.
  destruct (call_cases w i op s) as
    [(Ht & He & Hr)
    | [(pre & j & d0 & tok0 & Hpre & Hg & Hr)
      | (pre & ans0 & error & Hpre & Hans & Hr)]];
    cbn zeta in Hr; rewrite Hr; clear Hr; cbn [fst snd];
    rewrite ?op_request_outcome.
  - destruct (http_at w (S i)); destruct op; cbn; url_rewrite;
      (split; [cbn; lia|intros hs Hh; now inversion Hh]).
  - destruct Hpre as [-> | ->]; destruct (http_at w (S (S j))); destruct op;
      cbn; url_rewrite;
      (split; [cbn; lia|intros hs Hh; now inversion Hh]).
  - destruct Hpre as [-> | ->]; destruct op; cbn; url_rewrite;
      (split; [cbn; lia|intros hs Hh; discriminate Hh]).
Qed.

Lemma request_carries_current_token_witness :
  let w := with_clock (fun _ => 1000)
             (with_http (fun _ => token_response (JStr "new")) quiet_world) in
  request_headers "https://api.example/tetracubed/start"
    (fst (run w 0 (call OpStart stale_client)))
  = Some [("Authorization", "Bearer new")].
Proof.
  intros w.
  apply (proj1 (request_carries_current_token w 0 OpStart stale_client)
           (JObj [("access_token", JStr "new"); ("token_type", JStr "bearer")])
           (JStr "new")); reflexivity.
Defined.


Lemma form_only_to_token_endpoint_witness :
  let w := with_clock (fun _ => 1000)
             (with_http (fun _ => token_response (JStr "new")) quiet_world) in
  forallb (fun o => implb (posts_form o)
                      (is_request "https://api.example/token" o))
    (fst (run w 0 (call OpStart stale_client))) = true.
Proof.
  intros w. apply forallb_forall. intros o Hin.
  pose proof (form_only_to_token_endpoint w 0 OpStart stale_client) as H.
  rewrite Forall_forall in H. specialize (H o Hin).
  destruct (posts_form o); [|reflexivity]. exact (H eq_refl).
Defined.

Lemma one_request_token_kept_witness :
  let w := with_clock (fun _ => 1000)
             (with_http (fun i => match i with
                                  | 1%nat => token_response (JStr "new")
                                  | _ => HttpErr (axios_error "401" JNull)
                                  end) quiet_world) in
  [("Authorization", "Bearer new")]
  = bearer (snd (snd (run w 0 (call OpStart stale_client)))).
Proof.
  intros w.
  exact (proj2 (one_request_token_kept w 0 OpStart stale_client)
           [("Authorization", "Bearer new")] eq_refl).
Defined.

(** ** The configuration: saving, loading, and the file against the
    environment *)

Lemma set_field_head (k k0 : string) (v v0 : value)
    (fs : list (string * value)) :
  exists v' rest, set_field k v ((k0, v0) :: fs) = (k0, v') :: rest.
Proof.
  cbn. destruct (String.eqb k k0) eqn:Hk.
  - apply String.eqb_eq in Hk. subst k0. eauto.
  - eauto.
Qed.

Lemma fold_set_field_head (props : list (string * value)) :
  forall (k0 : string) (v0 : value) (fs : list (string * value)),
  exists v' rest,
    List.fold_left (fun acc kv => set_field (fst kv) (snd kv) acc) props
      ((k0, v0) :: fs)
    = (k0, v') :: rest.
Proof.
  induction props as [|[k v] props IH]; intros k0 v0 fs.
  - cbn. eauto.
  - cbn [List.fold_left fst snd].
    destruct (set_field_head k k0 v v0 fs) as (v' & rest & ->). apply IH.
Qed.

(** Every configuration the bot can hold starts with the notification
    channel. *)
Lemma config_reachable_head (env : process_env) (path : string)
    (cfg : list (string * value)) :
  config_reachable env path cfg ->
  exists v rest, cfg = ("notificationChannelId", v) :: rest.
Proof.
  induction 1 as [w i|cfg s w i interaction _ IH].
  - rewrite start_bot_config.
    assert (Hd : exists v rest,
               default_config env = ("notificationChannelId", v) :: rest)
      by (unfold default_config; eauto).
    destruct (exists_at w i); [|exact Hd].
    destruct (read_at w (S i)); [|exact Hd].
    destruct (JSON_parse text); [|exact Hd].
    unfold spread, default_config. apply fold_set_field_head.
  - rewrite handleSet_config. cbn [config].
    destruct (hasPermission env interaction); [|exact IH].
    destruct IH as (v & rest & ->). apply set_field_head.
Qed.

Lemma has_key_sym_absent (k : string) (acc rest : list (string * value))
    (v : value) :
  distinct_keys (acc ++ (k, v) :: rest)%list = true -> has_key k acc = false.
Proof.
  induction acc as [|[k0 v0] acc IH]; cbn; intros H; [reflexivity|].
  apply andb_true_iff in H as [Hk0 Hd]. apply negb_true_iff in Hk0.
  rewrite has_key_app in Hk0. apply orb_false_iff in Hk0 as [_ Hk0].
  cbn in Hk0. apply orb_false_iff in Hk0 as [Hk0 _].
  rewrite String.eqb_sym, Hk0. cbn. now apply IH.
Qed.

Lemma fold_set_field_fresh (rest : list (string * value)) :
  forall acc,
    distinct_keys (acc ++ rest)%list = true ->
    List.fold_left (fun acc kv => set_field (fst kv) (snd kv) acc) rest acc
    = (acc ++ rest)%list.
Proof.
  induction rest as [|[k v] rest IH]; intros acc Hd; cbn.
  - now rewrite app_nil_r.
  - rewrite (set_field_new k v acc (has_key_sym_absent _ _ _ _ Hd)).
    rewrite IH; rewrite <- app_assoc; [reflexivity|exact Hd].
Qed.

(** Spreading an object that starts with the one default key over the
    defaults gives the object back. *)
Lemma spread_default (env : process_env) (v : value)
    (rest : list (string * value)) :
  distinct_keys (("notificationChannelId", v) :: rest) = true ->
  spread (default_config env) (JObj (("notificationChannelId", v) :: rest))
  = ("notificationChannelId", v) :: rest.
Proof.
  intros Hd. unfold spread, default_config. cbn [List.fold_left fst snd].
  cbn [set_field]. rewrite String.eqb_refl.
  exact (fold_set_field_fresh rest [("notificationChannelId", v)] Hd).
Qed.

(** X7. Saving and loading are inverse on the configurations the bot can
    hold, as far as they are made of plain values (text in ASCII, integers
    a double holds exactly, no key of digits alone): when [saveConfig]
    succeeds in writing, a load run afresh on the files it left (as at
    startup, under any environment) holds exactly the configuration that
    was in memory, every key of it. *)
Theorem saved_config_reloads (env : process_env) (path : string) (w : world)
    (i : nat) (b : Bot) :
  config_reachable env path (config b) ->
  plain (JObj (config b)) = true ->
  write_at w i = WriteOk ->
  forall (d : disk) (env' : process_env) (w' : world) (i' : nat),
    reads_disk (disk_after (fst (run w i (saveConfig path b))) d) path w' i' ->
    config (snd (run w' i' (start_bot env' path))) = config b.
Proof.
  intros Hreach _ Hw d env' w' i' Hreads.
  unfold saveConfig in Hreads. cbn -[JSON_stringify] in Hreads.
  rewrite Hw in Hreads. cbn -[JSON_stringify] in Hreads.
  unfold reads_disk, write_file in Hreads. rewrite String.eqb_refl in Hreads.
  destruct Hreads as [Hex Hread].
  rewrite start_bot_config, Hex, Hread.
  pose proof (config_reachable_ok env path _ Hreach) as Hok.
  rewrite (JSON_parse_stringify _ Hok).
  destruct (config_reachable_head env path _ Hreach) as (v & rest & Hcfg).
  rewrite Hcfg in *. apply spread_default.
  rewrite json_ok_obj in Hok. now apply andb_true_iff in Hok as [Hd _].
Qed.

Lemma saved_config_reloads_witness :
  let env := example_env None in
  let b := mkBot example_client
             (config (snd (run (with_files true
                                  (ReadOk (JSON_stringify (JObj [("prefix", JNum 7)])))
                                  quiet_world) 0
                             (start_bot env "config.json")))) in
  let w' := world_of_disk
              (disk_after (fst (run quiet_world 0 (saveConfig "config.json" b)))
                 no_files) "config.json" quiet_world in
  config (snd (run w' 0 (start_bot (example_env (Some "mc.example"))
                           "config.json")))
  = [("notificationChannelId", JStr "999"); ("prefix", JNum 7)].
Proof.
  intros env b w'.
  apply (saved_config_reloads env "config.json" quiet_world 0 b
           (config_loaded env "config.json" _ 0) eq_refl eq_refl no_files
           (example_env (Some "mc.example")) w' 0).
  vm_compute. split; reflexivity.
Defined.

Lemma valid_of_number (s : string) (v : value) (r : string) :
  parse_number s = Some (v, r) -> valid_number s = Some r.
Proof.
  unfold parse_number, valid_number.
  destruct (canonical _) eqn:Hc; [|discriminate].
  destruct (starts_fraction _) eqn:Hf; [discriminate|]. cbn [andb negb].
  destruct (NilZero.int_of_string _); [|discriminate].
  intros H. inversion H; subst. clear H.
  destruct (snd (span_digits _)) as [|c t]; [reflexivity|].
  cbn [starts_fraction] in Hf.
  apply orb_false_iff in Hf as [Hf HE]. apply orb_false_iff in Hf as [Hdot He].
  unfold valid_exponent. now rewrite Hdot, He, HE.
Qed.

Lemma valid_of_literal (word : string) (v0 v : value) (s r : string) :
  literal word v0 s = Some (v, r) -> strip_prefix word s = Some r.
Proof.
  unfold literal. destruct (strip_prefix word s); intros H; inversion H.
  reflexivity.
Qed.

(** Whatever the model parses is JSON. *)
Lemma parse_valid (fuel : nat) :
  (forall s v r, parse_value fuel s = Some (v, r) ->
                 valid_value fuel s = Some r)
  /\ (forall acc s v r, parse_members fuel acc s = Some (v, r) ->
                        valid_members fuel s = Some r)
  /\ (forall acc s v r, parse_elements fuel acc s = Some (v, r) ->
                        valid_elements fuel s = Some r).
Proof.
  induction fuel as [|f (IHv & IHm & IHe)];
    [repeat split; intros; discriminate|].
  split; [|split].
  - intros s v r H. cbn [parse_value] in H. cbn [valid_value].
    destruct (skip_ws s) as [|c rest]; [discriminate|].
    destruct (Ascii.eqb c dquote).
    { destruct (parse_string_body rest) as [[str r0]|]; inversion H.
      reflexivity. }
    destruct (Ascii.eqb c "{").
    { destruct (skip_ws rest) as [|c' r0]; [discriminate|].
      destruct (Ascii.eqb c' "}"); [inversion H; reflexivity|].
      exact (IHm [] rest v r H). }
    destruct (Ascii.eqb c "[").
    { destruct (skip_ws rest) as [|c' r0]; [discriminate|].
      destruct (Ascii.eqb c' "]"); [inversion H; reflexivity|].
      exact (IHe [] rest v r H). }
    destruct (Ascii.eqb c "n"); [exact (valid_of_literal _ _ _ _ _ H)|].
    destruct (Ascii.eqb c "t"); [exact (valid_of_literal _ _ _ _ _ H)|].
    destruct (Ascii.eqb c "f"); [exact (valid_of_literal _ _ _ _ _ H)|].
    exact (valid_of_number _ v r H).
  - intros acc s v r H. cbn [parse_members] in H. cbn [valid_members].
    destruct (skip_ws s) as [|c rest]; [discriminate|].
    destruct (Ascii.eqb c dquote); [|discriminate].
    destruct (parse_string_body rest) as [[k r1]|]; [|discriminate].
    destruct (skip_ws r1) as [|c1 r2]; [discriminate|].
    destruct (Ascii.eqb c1 ":"); [|discriminate].
    destruct (parse_value f r2) as [[x r3]|] eqn:Hx; [|discriminate].
    rewrite (IHv _ _ _ Hx).
    destruct (skip_ws r3) as [|c3 r4]; [discriminate|].
    destruct (Ascii.eqb c3 ","); [exact (IHm _ r4 v r H)|].
    destruct (Ascii.eqb c3 "}"); inversion H. reflexivity.
  - intros acc s v r H. cbn [parse_elements] in H. cbn [valid_elements].
    destruct (parse_value f s) as [[x r1]|] eqn:Hx; [|discriminate].
    rewrite (IHv _ _ _ Hx).
    destruct (skip_ws r1) as [|c r2]; [discriminate|].
    destruct (Ascii.eqb c ","); [exact (IHe _ r2 v r H)|].
    destruct (Ascii.eqb c "]"); inversion H. reflexivity.
Qed.

(** A text that is not JSON is a [SyntaxError] in the model as well. *)
Lemma JSON_parse_invalid (text : string) :
  JSON_valid text = false -> JSON_parse text = None.
Proof.
  unfold JSON_valid, JSON_parse. intros H.
  destruct (parse_value _ text) as [[v rest]|] eqn:Hp; [|reflexivity].
  apply (proj1 (parse_valid _)) in Hp. rewrite Hp in H.
  destruct (skip_ws rest); [discriminate H|reflexivity].
Qed.

(** X8. Loading the configuration never fails, and never leaves the bot
    without one: with no file there, nothing is read or logged and the
    defaults stand; when the file cannot be read, or holds a text that is
    not JSON, the defaults stand as well and one line is logged under
    "Error loading config file:" (the message of the error that reading
    gave; for a text that is not JSON, whatever the engine words it). *)
Theorem load_config_falls_back (env : process_env) (path : string)
    (w : world) (i : nat) :
  let r := run w i (load_config path (default_config env)) in
  fst (snd r) = Normal tt
  /\ (exists_at w i = false ->
      fst r = [Obs (ExistsSync path) false]
      /\ snd (snd r) = default_config env)
  /\ (forall e, exists_at w i = true -> read_at w (S i) = ReadErr e ->
      logged "Error loading config file:" (fst r) = [JStr (message e)]
      /\ snd (snd r) = default_config env)
  /\ (forall text, exists_at w i = true -> read_at w (S i) = ReadOk text ->
      JSON_valid text = false ->
      List.length (logged "Error loading config file:" (fst r)) = 1%nat
      /\ snd (snd r) = default_config env).
Proof.
  assert (Hinv : forall text v, JSON_valid text = false ->
                                JSON_parse text = Some v -> False).
  { intros text v Hv Hp. rewrite (JSON_parse_invalid text Hv) in Hp.
    discriminate Hp. }
  unfold load_config. cbn -[JSON_parse spread default_config].
  destruct (exists_at w i); cbn -[JSON_parse spread default_config].
  - destruct (read_at w (S i)) as [text|e];
      cbn -[JSON_parse spread default_config].
    + destruct (JSON_parse text) eqn:Hp;
        cbn -[JSON_parse spread default_config].
      * repeat split; try discriminate; intros; try discriminate;
          exfalso;
          match goal with
          | H : ReadOk _ = ReadOk _ |- _ => inversion H; subst
          end; eauto.
      * repeat split; try discriminate; intros; try discriminate;
          reflexivity.
    + repeat split; try discriminate; intros; try discriminate;
        congruence.
  - repeat split; intros; discriminate.
Qed.

Lemma load_config_falls_back_witness :
  let env := example_env None in
  let w := with_files true (ReadOk "{ notificationChannelId: 5 ") quiet_world in
  let r := run w 0 (load_config "config.json" (default_config env)) in
  List.length (logged "Error loading config file:" (fst r)) = 1%nat
  /\ snd (snd r) = [("notificationChannelId", JStr "999")].
Proof.
  intros env w r.
  exact (proj2 (proj2 (proj2 (load_config_falls_back env "config.json" w 0)))
           "{ notificationChannelId: 5 " eq_refl eq_refl eq_refl).
Defined.

Lemma channel_key_not_index (xs : list value) :
  forall i, has_key "notificationChannelId" (indexed i xs) = false.
Proof.
  induction xs as [|x xs IH]; intros i; cbn [indexed has_key]; [reflexivity|].
  rewrite IH. destruct (string_of_Z_head (Z.of_nat i)) as (c & t & -> & Hc).
  assert (Hn : Ascii.eqb "n" c = false).
  { destruct Hc as [Hc| ->]; [|reflexivity].
    destruct (Ascii.eqb "n" c) eqn:Hn; [|reflexivity].
    apply Ascii.eqb_eq in Hn. subst c. discriminate Hc. }
  cbn [String.eqb]. now rewrite Hn.
Qed.

Lemma assoc_none_has_key (k : string) (fs : list (string * value)) :
  assoc k fs = None -> has_key k fs = false.
Proof.
  induction fs as [|[k0 v0] fs IH]; cbn; [reflexivity|].
  destruct (String.eqb k k0); [discriminate|exact IH].
Qed.

(** X9. For a file that holds JSON made of plain values (text in ASCII,
    integers a double holds exactly, no key of digits alone): the channel a
    load leaves in the configuration is the file's when the file holds an
    object with a [notificationChannelId], whatever its value (also [null]
    or an empty string), and the environment's default in every other
    case: an object without the key, an array, a string, a number, a
    boolean or [null]. *)
Theorem file_overrides_environment (env : process_env) (path : string)
    (w : world) (i : nat) (text : string) (v : value) :
  exists_at w i = true ->
  read_at w (S i) = ReadOk text ->
  JSON_parse text = Some v ->
  plain v = true ->
  assoc "notificationChannelId"
    (config (snd (run w i (start_bot env path))))
  = Some match v with
         | JObj fs =>
             match assoc "notificationChannelId" fs with
             | Some x => x
             | None => js_or (env_var (NOTIFICATION_CHANNEL_ID env)) JNull
             end
         | _ => js_or (env_var (NOTIFICATION_CHANNEL_ID env)) JNull
         end.
Proof.
  intros Hex Hread Hp _. rewrite start_bot_config, Hex, Hread, Hp.
  pose proof (JSON_parse_ok _ _ Hp) as Hok.
  unfold spread, default_config.
  destruct v as [| |b|z|s|xs|fs]; try reflexivity.
  - rewrite assoc_fold_absent by apply channel_key_not_index.
    cbn. reflexivity.
  - rewrite assoc_fold_absent by apply channel_key_not_index.
    cbn. reflexivity.
  - rewrite json_ok_obj in Hok. apply andb_true_iff in Hok as [Hd _].
    destruct (assoc "notificationChannelId" fs) as [x|] eqn:Ha.
    + now apply assoc_fold.
    + rewrite assoc_fold_absent by now apply assoc_none_has_key.
      cbn. reflexivity.
Qed.

Lemma file_overrides_environment_witness :
  let text := JSON_stringify (JObj [("notificationChannelId", JNull)]) in
  let w := with_files true (ReadOk text) quiet_world in
  assoc "notificationChannelId"
    (config (snd (run w 0 (start_bot (example_env None) "config.json"))))
  = Some JNull.
Proof.
  intros text w.
  exact (file_overrides_environment (example_env None) "config.json" w 0 text
           (JObj [("notificationChannelId", JNull)]) eq_refl eq_refl eq_refl
           eq_refl).
Defined.

(** ** [sendNotification] and the configuration command *)

(** [sendNotification], step by step. *)
Lemma sendNotification_run (env : process_env) (embed : Embed) (w : world)
    (i : nat) (b : Bot) :
  let channelId := notification_channel env b in
  let failed (e : js_error) :=
    Obs (ConsoleError "Failed to send notification:" (JStr (message e))) tt in
  run w i (sendNotification env embed b)
  = (if truthy channelId then
       Obs (ChannelsFetch channelId) (fetch_at w i)
       :: match fetch_at w i with
          | FetchErr e => [failed e]
          | FetchOk true true =>
              Obs (ChannelSend channelId embed) (write_at w (S i))
              :: match write_at w (S i) with
                 | WriteOk => []
                 | WriteErr e => [failed e]
                 | WriteCut e _ => [failed e]
                 end
          | FetchOk _ _ => []
          end
     else [],
     (Normal tt, b)).
Proof.
  unfold sendNotification, notification_channel. cbn -[assoc js_or truthy].
  destruct (truthy (js_or _ _)) eqn:Ht; cbn -[assoc js_or truthy];
    [|reflexivity].
  destruct (fetch_at w i) as [[] []|e]; cbn -[assoc js_or truthy];
    try destruct (write_at w (S i)); reflexivity.
Qed.

(** X10. [sendNotification] never throws and leaves the bot as it was.  The
    channel it uses is the configuration's, or the environment's when the
    configuration's is missing, [null] or empty; with neither it does
    nothing at all.  Otherwise it fetches that channel once, and sends the
    embed there, once, exactly when the fetch found a text channel; an
    error of the fetch or of the send is logged under
    "Failed to send notification:" and goes no further. *)
Theorem sendNotification_contained (env : process_env) (embed : Embed)
    (w : world) (i : nat) (b : Bot) :
  let channelId := notification_channel env b in
  let r := run w i (sendNotification env embed b) in
  snd r = (Normal tt, b)
  /\ (truthy channelId = false -> fst r = [])
  /\ (truthy channelId = true ->
      fetches (fst r) = [channelId]
      /\ sends (fst r)
         = match fetch_at w i with
           | FetchOk true true => [(channelId, embed)]
           | _ => []
           end
      /\ logged "Failed to send notification:" (fst r)
         = match fetch_at w i with
           | FetchErr e => [JStr (message e)]
           | FetchOk true true =>
               match write_at w (S i) with
               | WriteErr e => [JStr (message e)]
               | WriteCut e _ => [JStr (message e)]
               | WriteOk => []
               end
           | FetchOk _ _ => []
           end).
Proof.
  unfold sendNotification, notification_channel. cbn -[assoc js_or truthy].
  destruct (truthy (js_or _ _)) eqn:Ht; cbn -[assoc js_or truthy].
  - destruct (fetch_at w i) as [[] []|e]; cbn -[assoc js_or truthy];
      try destruct (write_at w (S i)); cbn -[assoc js_or truthy];
      (split; [reflexivity|]); (split; [discriminate|]); intros _;
      repeat split.
  - split; [reflexivity|]. split; [reflexivity|discriminate].
Qed.

Lemma sendNotification_contained_witness :
  let env := example_env None in
  let b := mkBot example_client [("notificationChannelId", JNull)] in
  let w := with_fetch (fun _ => FetchOk true true)
             (with_writes (fun _ => WriteErr disk_full) quiet_world) in
  let r := run w 0 (sendNotification env offlineEmbed b) in
  fetches (fst r) = [JStr "999"]
  /\ sends (fst r) = [(JStr "999", offlineEmbed)]
  /\ logged "Failed to send notification:" (fst r)
     = [JStr "ENOSPC: no space left on device, write"].
Proof.
  intros env b w r.
  exact (proj2 (proj2 (sendNotification_contained env offlineEmbed w 0 b))
           eq_refl).
Defined.

(** X11. The configuration command of someone without permission changes
    nothing: its one effect is the reply, to the caller alone, that
    permission is missing; the configuration in memory and the files are
    as before, and no channel is fetched or sent to. *)
Theorem set_channel_denied_is_inert (env : process_env) (path : string)
    (w : world) (i : nat) (interaction : Interaction) (b : Bot) :
  hasPermission env interaction = false ->
  let r := run w i (handleSetNotificationChannel env path interaction b) in
  fst r = [Obs (ReplyContent
                  "You do not have permission to use this command." true) tt]
  /\ snd r = (Normal tt, b)
  /\ forall d, disk_after (fst r) d = d.
Proof.
  intros Hperm. unfold handleSetNotificationChannel. rewrite Hperm.
  cbn. repeat split.
Qed.

Lemma set_channel_denied_is_inert_witness :
  let env := mkEnv "https://api.example" "fox" "secret" None (Some "77")
               (Some "42") None in
  let r := run quiet_world 0
             (handleSetNotificationChannel env "config.json" (an_admin "5")
                example_bot) in
  snd r = (Normal tt, example_bot)
  /\ disk_after (fst r) no_files = no_files.
Proof.
  intros env r.
  destruct (set_channel_denied_is_inert env "config.json" quiet_world 0
              (an_admin "5") example_bot eq_refl) as (_ & Hs & Hd).
  exact (conj Hs (Hd no_files)).
Defined.

Lemma disk_after_app (a b : list obs) (d : disk) :
  disk_after (a ++ b)%list d = disk_after b (disk_after a d).
Proof.
  revert d. induction a as [|[X e x] a IH]; intros d; [reflexivity|].
  destruct e; cbn; try apply IH. destruct x; apply IH.
Qed.

Lemma sendNotification_disk (env : process_env) (embed : Embed) (w : world)
    (i : nat) (b : Bot) (d : disk) :
  disk_after (fst (run w i (sendNotification env embed b))) d = d.
Proof.
  unfold sendNotification. cbn -[assoc js_or truthy].
  destruct (truthy (js_or _ _)); cbn -[assoc js_or truthy]; [|reflexivity].
  destruct (fetch_at w i) as [[] []|e]; cbn -[assoc js_or truthy];
    try destruct (write_at w (S i)); reflexivity.
Qed.

(** The configuration command of someone allowed, step by step. *)
Lemma handleSet_steps (env : process_env) (path : string) (w : world)
    (i : nat) (interaction : Interaction) (b : Bot) :
  hasPermission env interaction = true ->
  let cfg := set_field "notificationChannelId"
               (JStr (channel_id interaction)) (config b) in
  let b' := mkBot (apiClient b) cfg in
  let success :=
    mkEmbed "#00ff00" "✅ Notification Channel Set"
      ("Server notifications will now be posted to <#"
       ++ channel_id interaction ++ ">")
      [mkField "Channel" ("<#" ++ channel_id interaction ++ ">") true;
       mkField "Set By" ("<@" ++ user_id interaction ++ ">") true] in
  let test :=
    mkEmbed "#0099ff" "🔔 Notifications Enabled"
      "This channel will receive server start/stop notifications." [] in
  let saved := run w i (saveConfig path b') in
  let j := (i + List.length (fst saved))%nat in
  run w i (handleSetNotificationChannel env path interaction b)
  = ((fst saved ++ Obs (Reply success) tt
        :: fst (run w (S j) (sendNotification env test b')))%list,
     (Normal tt, b')).
Proof.
  intros Hperm. unfold handleSetNotificationChannel. rewrite Hperm.
  cbn -[JSON_stringify set_field sendNotification].
  unfold saveConfig. cbn -[JSON_stringify set_field sendNotification].
  destruct (write_at w i); cbn -[JSON_stringify set_field sendNotification];
    rewrite ?Nat.add_1_r, ?Nat.add_succ_r, ?Nat.add_0_r;
    match goal with
    | |- context [run w ?k (sendNotification env ?t ?b')] =>
        pose proof (f_equal snd (sendNotification_run env t w k b')) as Hs;
        cbn zeta in Hs; cbn [snd] in Hs;
        destruct (run w k (sendNotification env t b')) as [tr st];
        cbn [fst snd] in *; subst st
    end; reflexivity.
Qed.

Lemma fetches_app (a b : list obs) :
  fetches (a ++ b)%list = (fetches a ++ fetches b)%list.
Proof.
  induction a as [|[X e x] a IH]; [reflexivity|].
  destruct e; cbn; rewrite IH; reflexivity.
Qed.

Lemma sends_app (a b : list obs) :
  sends (a ++ b)%list = (sends a ++ sends b)%list.
Proof.
  induction a as [|[X e x] a IH]; [reflexivity|].
  destruct e; cbn; rewrite IH; reflexivity.
Qed.

Lemma logged_app (label : string) (a b : list obs) :
  logged label (a ++ b)%list = (logged label a ++ logged label b)%list.
Proof.
  induction a as [|[X e x] a IH]; [reflexivity|].
  destruct e; cbn; rewrite ?IH; try reflexivity.
  destruct (String.eqb label0 label); cbn; now rewrite ?IH.
Qed.

Lemma announced_app (a b : list obs) :
  announced (a ++ b)%list = (announced a ++ announced b)%list.
Proof.
  induction a as [|[X e x] a IH]; [reflexivity|].
  destruct e; cbn; rewrite IH; reflexivity.
Qed.

Lemma sendNotification_quiet (env : process_env) (embed : Embed) (w : world)
    (i : nat) (b : Bot) :
  announced (fst (run w i (sendNotification env embed b))) = []
  /\ logged "Error saving config file:"
       (fst (run w i (sendNotification env embed b))) = [].
Proof.
  unfold sendNotification. cbn -[assoc js_or truthy].
  destruct (truthy (js_or _ _)); cbn -[assoc js_or truthy]; [|now split].
  destruct (fetch_at w i) as [[] []|e]; cbn -[assoc js_or truthy];
    try destruct (write_at w (S i)); now split.
Qed.

(** X12. When the configuration file cannot be written, the configuration
    command of someone allowed goes on as if it had been: it completes, the
    new channel is in memory, the one reply is the success embed, and the
    error is only logged, under "Error saving config file:".  The file is as
    it was when the write failed before the file was opened; when it failed
    afterwards the file holds what the cut write kept of it, and if that is
    not JSON (an empty file, a broken-off text) a load run afresh on the
    files, as at startup, falls back to the defaults: the new channel is
    lost and so is whatever the file held before. *)
Theorem set_channel_unsaved (env : process_env) (path : string) (w : world)
    (i : nat) (interaction : Interaction) (b : Bot) (e : js_error) :
  hasPermission env interaction = true ->
  (write_at w i = WriteErr e \/ exists kept, write_at w i = WriteCut e kept) ->
  let r := run w i (handleSetNotificationChannel env path interaction b) in
  fst (snd r) = Normal tt
  /\ assoc "notificationChannelId" (config (snd (snd r)))
     = Some (JStr (channel_id interaction))
  /\ List.map title (announced (fst r)) = ["✅ Notification Channel Set"]
  /\ logged "Error saving config file:" (fst r) = [JStr (message e)]
  /\ (forall d,
        disk_after (fst r) d
        = match write_at w i with
          | WriteCut _ kept => write_file d path kept
          | _ => d
          end)
  /\ (forall kept d env' w' i',
        write_at w i = WriteCut e kept -> JSON_valid kept = false ->
        reads_disk (disk_after (fst r) d) path w' i' ->
        config (snd (run w' i' (start_bot env' path)))
        = default_config env').
Proof.
  intros Hperm Hw. cbn zeta.
  rewrite (handleSet_steps env path w i interaction b Hperm).
  cbn [fst snd config]. split; [reflexivity|].
  split; [apply assoc_set_field_same|].
  assert (Hsave : forall tr,
             announced (fst (run w i (saveConfig path
                (mkBot (apiClient b) (set_field "notificationChannelId"
                   (JStr (channel_id interaction)) (config b))))) ++ tr)%list
             = announced tr
             /\ logged "Error saving config file:"
                  (fst (run w i (saveConfig path
                     (mkBot (apiClient b) (set_field "notificationChannelId"
                        (JStr (channel_id interaction)) (config b))))) ++ tr)%list
                = JStr (message e) :: logged "Error saving config file:" tr
             /\ forall d,
                  disk_after (fst (run w i (saveConfig path
                     (mkBot (apiClient b) (set_field "notificationChannelId"
                        (JStr (channel_id interaction)) (config b))))) ++ tr)%list
                    d
                  = disk_after tr
                      match write_at w i with
                      | WriteCut _ kept => write_file d path kept
                      | _ => d
                      end).
  { intros tr. unfold saveConfig. cbn -[JSON_stringify set_field].
    destruct Hw as [Hw | (kept & Hw)]; rewrite Hw;
      cbn -[JSON_stringify set_field]; repeat split. }
  match goal with
  | |- context [(_ ++ ?t)%list] => destruct (Hsave t) as (Ha & Hl & Hd)
  end.
  rewrite Ha, Hl. cbn [announced logged].
  match goal with
  | |- context [run w ?k (sendNotification env ?t ?b')] =>
      destruct (sendNotification_quiet env t w k b') as [Ha' Hl'];
      pose proof (fun d => sendNotification_disk env t w k b' d) as Hd'
  end.
  rewrite Ha', Hl'.
  assert (Hdisk : forall d,
             disk_after
               (fst (run w i (saveConfig path
                  (mkBot (apiClient b) (set_field "notificationChannelId"
                     (JStr (channel_id interaction)) (config b)))))
                ++ Obs (Reply
                    (mkEmbed "#00ff00" "✅ Notification Channel Set"
                       ("Server notifications will now be posted to <#"
                        ++ channel_id interaction ++ ">")
                       [mkField "Channel"
                          ("<#" ++ channel_id interaction ++ ">") true;
                        mkField "Set By"
                          ("<@" ++ user_id interaction ++ ">") true])) tt
                :: fst (run w
                     (S (i + List.length (fst (run w i (saveConfig path
                        (mkBot (apiClient b)
                           (set_field "notificationChannelId"
                              (JStr (channel_id interaction)) (config b))))))))
                     (sendNotification env
                        (mkEmbed "#0099ff" "🔔 Notifications Enabled"
                           "This channel will receive server start/stop notifications."
                           [])
                        (mkBot (apiClient b)
                           (set_field "notificationChannelId"
                              (JStr (channel_id interaction)) (config b))))))%list
               d
             = match write_at w i with
               | WriteCut _ kept => write_file d path kept
               | _ => d
               end).
  { intros d. rewrite Hd. cbn [disk_after]. apply Hd'. }
  split; [reflexivity|]. split; [reflexivity|]. split; [exact Hdisk|].
  intros kept d env' w' i' Hcut Hbad Hreads.
  rewrite Hdisk, Hcut in Hreads.
  unfold reads_disk, write_file in Hreads. rewrite String.eqb_refl in Hreads.
  destruct Hreads as [Hex Hread].
  rewrite start_bot_config, Hex, Hread, (JSON_parse_invalid kept Hbad).
  reflexivity.
Qed.

Lemma set_channel_unsaved_witness :
  let env := example_env None in
  let command w :=
    run w 0 (handleSetNotificationChannel env "config.json" (an_admin "5")
               example_bot) in
  let refused := with_writes (fun _ => WriteErr read_only) quiet_world in
  let cut := with_writes (fun _ => cut_short) quiet_world in
  let restarted :=
    world_of_disk (disk_after (fst (command cut)) saved_before) "config.json"
      quiet_world in
  (assoc "notificationChannelId" (config (snd (snd (command refused))))
   = Some (JStr "5")
   /\ logged "Error saving config file:" (fst (command refused))
      = [JStr "EACCES: permission denied, open 'config.json'"]
   /\ disk_after (fst (command refused)) saved_before = saved_before)
  /\ (List.map title (announced (fst (command cut)))
      = ["✅ Notification Channel Set"]
      /\ disk_after (fst (command cut)) saved_before "config.json" = Some ""
      /\ config (snd (run restarted 0 (start_bot env "config.json")))
         = [("notificationChannelId", JStr "999")]).
Proof.
  intros env command refused cut restarted.
  destruct (set_channel_unsaved env "config.json" refused 0 (an_admin "5")
              example_bot read_only eq_refl (or_introl eq_refl))
    as (_ & Hc & _ & Hl & Hd & _).
  destruct (set_channel_unsaved env "config.json" cut 0 (an_admin "5")
              example_bot disk_full eq_refl
              (or_intror (ex_intro _ "" eq_refl)))
    as (_ & _ & Ha & _ & Hd' & Hload).
  split; [split; [exact Hc|split; [exact Hl|exact (Hd saved_before)]]|].
  split; [exact Ha|]. split.
  - unfold command. now rewrite (Hd' saved_before).
  - apply (Hload "" saved_before env restarted 0%nat eq_refl eq_refl).
    vm_compute. split; reflexivity.
Defined.

Lemma saveConfig_quiet (path : string) (w : world) (i : nat) (b : Bot) :
  fetches (fst (run w i (saveConfig path b))) = []
  /\ sends (fst (run w i (saveConfig path b))) = [].
Proof.
  unfold saveConfig. cbn -[JSON_stringify].
  destruct (write_at w i); now split.
Qed.

(** X13. The test notification of the configuration command goes to the
    channel just set, not to the one held before nor to the environment's:
    that channel is the one channel the command fetches, and nothing is
    sent anywhere else. *)
Theorem test_notification_to_new_channel (env : process_env) (path : string)
    (w : world) (i : nat) (interaction : Interaction) (b : Bot) :
  hasPermission env interaction = true ->
  channel_id interaction <> "" ->
  let r := run w i (handleSetNotificationChannel env path interaction b) in
  fetches (fst r) = [JStr (channel_id interaction)]
  /\ forall id em, In (id, em) (sends (fst r)) ->
       id = JStr (channel_id interaction)
       /\ title em = "🔔 Notifications Enabled".
Proof.
  intros Hperm Hne. cbn zeta.
  rewrite (handleSet_steps env path w i interaction b Hperm).
  cbn [fst snd].
  rewrite fetches_app, sends_app.
  destruct (saveConfig_quiet path w i (mkBot (apiClient b)
              (set_field "notificationChannelId"
                 (JStr (channel_id interaction)) (config b)))) as [Hf Hs].
  rewrite Hf, Hs. cbn [fetches sends app].
  match goal with
  | |- context [run w ?k (sendNotification env ?t ?b')] =>
      pose proof (f_equal fst (sendNotification_run env t w k b')) as Hc;
      assert (Hch : notification_channel env b'
                    = JStr (channel_id interaction))
  end.
  { unfold notification_channel. cbn [config].
    rewrite assoc_set_field_same. unfold js_or. cbn [truthy].
    destruct (channel_id interaction); [now destruct Hne|reflexivity]. }
  cbn zeta in Hc. cbn [fst] in Hc. rewrite Hch in Hc.
  assert (Ht : truthy (JStr (channel_id interaction)) = true).
  { cbn. destruct (channel_id interaction); [now destruct Hne|reflexivity]. }
  rewrite Ht in Hc. rewrite Hc. cbn [fetches sends].
  destruct (fetch_at w _) as [[] []|]; try destruct (write_at w _);
    cbn [fetches sends]; (split; [reflexivity|]);
    intros id em Hin; cbn in Hin; try contradiction;
    destruct Hin as [Hin|[]]; inversion Hin; now split.
Qed.

Lemma test_notification_to_new_channel_witness :
  let w := with_fetch (fun _ => FetchOk true true) quiet_world in
  let r := run w 0
             (handleSetNotificationChannel (example_env None) "config.json"
                (an_admin "5") example_bot) in
  fetches (fst r) = [JStr "5"]
  /\ List.map fst (sends (fst r)) = [JStr "5"].
Proof.
  intros w r.
  destruct (test_notification_to_new_channel (example_env None) "config.json"
              w 0 (an_admin "5") example_bot eq_refl) as [Hf _].
  - discriminate.
  - split; [exact Hf|reflexivity].
Defined.

(** ** Who may use the commands *)

Lemma split_on_free (sep : ascii) (s : string) :
  free_of sep s = true -> split_on sep s = [s].
Proof.
  induction s as [|c s IH]; cbn; [reflexivity|].
  intros H. apply andb_true_iff in H as [Hc Hs]. apply negb_true_iff in Hc.
  now rewrite Hc, (IH Hs).
Qed.

Lemma split_on_append (sep : ascii) (x rest : string) :
  free_of sep x = true ->
  split_on sep (x ++ String sep rest) = x :: split_on sep rest.
Proof.
  induction x as [|c x IH]; cbn.
  - intros _. now rewrite Ascii.eqb_refl.
  - intros H. apply andb_true_iff in H as [Hc Hx]. apply negb_true_iff in Hc.
    now rewrite Hc, (IH Hx).
Qed.

(** Splitting what was joined gives the list back. *)
Lemma split_on_concat (sep : ascii) (l : list string) :
  l <> [] -> forallb (free_of sep) l = true ->
  split_on sep (String.concat (String sep "") l) = l.
Proof.
  induction l as [|x l IH]; [now intros []|]. intros _ H.
  cbn [forallb] in H. apply andb_true_iff in H as [Hx Hl].
  destruct l as [|y l].
  - cbn. now apply split_on_free.
  - change (String.concat (String sep "") (x :: y :: l))
      with (x ++ String sep (String.concat (String sep "") (y :: l))).
    rewrite (split_on_append sep x _ Hx). f_equal.
    apply IH; [discriminate|exact Hl].
Qed.

Lemma existsb_eqb_In (x : string) (l : list string) :
  existsb (String.eqb x) l = true <-> In x l.
Proof.
  rewrite existsb_exists. split.
  - intros (y & Hin & Heq). apply String.eqb_eq in Heq. now subst.
  - intros Hin. exists x. split; [exact Hin|apply String.eqb_refl].
Qed.

(** X14. When a role is required, the role alone decides: who holds it may
    use the commands, who does not may not, be they a server administrator
    or on the list of admin users. *)
Theorem required_role_alone_decides (env : process_env) (role : string)
    (interaction : Interaction) :
  ALLOWED_ROLE_ID env = Some role -> role <> "" ->
  (hasPermission env interaction = true
   <-> In role (member_roles interaction)).
Proof.
  intros Hr Hne. unfold hasPermission. rewrite Hr. cbn [env_var truthy].
  destruct role as [|c role]; [now destruct Hne|].
  cbn [string_nonempty to_string]. apply existsb_eqb_In.
Qed.

Lemma required_role_alone_decides_witness :
  hasPermission
    (mkEnv "https://api.example" "fox" "secret" None (Some "77") (Some "42")
       None)
    (an_admin "5") = true
  <-> In "77" (member_roles (an_admin "5")).
Proof.
  apply (required_role_alone_decides
           (mkEnv "https://api.example" "fox" "secret" None (Some "77")
              (Some "42") None) "77" (an_admin "5") eq_refl).
  discriminate.
Defined.

(** X15. With no role required and the admin users given as ids joined by
    commas, the users who may use the commands are exactly the listed ones;
    being a server administrator neither helps nor is needed. *)
Theorem listed_admins_are_admitted (env : process_env) (ids : list string)
    (interaction : Interaction) :
  truthy (env_var (ALLOWED_ROLE_ID env)) = false ->
  ADMIN_USER_IDS env = Some (String.concat "," ids) ->
  String.concat "," ids <> "" ->
  forallb (free_of ",") ids = true ->
  (hasPermission env interaction = true <-> In (user_id interaction) ids).
Proof.
  intros Hrole Hids Hne Hfree. unfold hasPermission.
  rewrite Hrole, Hids. cbn [env_var truthy to_string].
  destruct (String.concat "," ids) as [|c s] eqn:Hc; [now destruct Hne|].
  cbn [string_nonempty]. rewrite <- Hc.
  rewrite (split_on_concat "," ids); [apply existsb_eqb_In| |exact Hfree].
  intros ->. discriminate Hc.
Qed.

Lemma listed_admins_are_admitted_witness :
  hasPermission
    (mkEnv "https://api.example" "fox" "secret" None None (Some "7,42,9")
       None)
    (mkInteraction "42" [] false "5") = true
  <-> In "42" ["7"; "42"; "9"].
Proof.
  apply (listed_admins_are_admitted
           (mkEnv "https://api.example" "fox" "secret" None None
              (Some "7,42,9") None)
           ["7"; "42"; "9"] (mkInteraction "42" [] false "5") eq_refl eq_refl).
  - discriminate.
  - reflexivity.
Defined.

(** ** The reconciler: the cases left *)

Lemma presences_app (a b : list obs) :
  presences (a ++ b)%list = (presences a ++ presences b)%list.
Proof.
  induction a as [|[X e x] a IH]; [reflexivity|].
  destruct e; cbn; rewrite IH; reflexivity.
Qed.

Lemma client_trace_no_presence (tr : list obs) :
  forallb client_obs tr = true -> presences tr = [].
Proof.
  induction tr as [|[X e x] tr IH]; [auto|].
  cbn [forallb]. intros H. apply andb_true_iff in H as [He Htr].
  destruct e; try discriminate He; exact (IH Htr).
Qed.

Lemma getResources_client_trace (w : world) (i : nat) (s : Session) :
  forallb client_obs (fst (run w i (getResources s))) = true.
Proof. exact (call_client_trace w i OpGetResources s). Qed.

Lemma ping_after_facts (env : process_env) (w : world) (j : nat) (b : Bot)
    (got : completion value) :
  let a := ping_after env w j b got in
  snd a = (Normal tt, b)
  /\ List.length (replies (fst a)) = 1%nat
  /\ (List.length (queries (fst a)) <= 1)%nat
  /\ presences (fst a) = [].
Proof.
  unfold ping_after, ping_failed.
  destruct got as [result|e]; [|cbn; auto].
  destruct (public_ip_of result) as [ip|e]; [|cbn; auto].
  destruct (truthy ip); [|cbn; auto].
  destruct (status_at w (S j)); cbn; auto.
Qed.

Lemma status_after_facts (env : process_env) (w : world) (j : nat) (b : Bot)
    (got : completion value) :
  let a := status_after env w j b got in
  snd a = (Normal tt, b)
  /\ replies (fst a) = []
  /\ (List.length (queries (fst a)) <= 1)%nat
  /\ (List.length (presences (fst a)) <= 1)%nat.
Proof.
  unfold status_after.
  destruct got as [result|e]; [|cbn; auto].
  destruct (public_ip_of result) as [ip|e]; [|cbn; auto].
  destruct (truthy ip); [|cbn; auto].
  destruct (status_at w j); cbn; auto.
Qed.

(** X16. Neither path of the reconciler can fail or touch the
    configuration, whatever the control plane and the game server answer:
    each completes normally with the configuration it found and makes at
    most one game-protocol query; the on-demand path edits its deferred
    reply exactly once and sets no presence, the periodic path sets at most
    one presence and replies to nothing. *)
Theorem reconciler_always_completes (env : process_env) (w : world)
    (i : nat) (b : Bot) :
  (let r := run w i (handlePingServer env b) in
   fst (snd r) = Normal tt /\ config (snd (snd r)) = config b
   /\ List.length (replies (fst r)) = 1%nat
   /\ (List.length (queries (fst r)) <= 1)%nat
   /\ presences (fst r) = [])
  /\ (let r := run w i (updateBotStatus env b) in
      fst (snd r) = Normal tt /\ config (snd (snd r)) = config b
      /\ replies (fst r) = []
      /\ (List.length (queries (fst r)) <= 1)%nat
      /\ (List.length (presences (fst r)) <= 1)%nat).
Proof.
  split; cbn zeta.
  - rewrite handlePingServer_run. cbn zeta. cbn [fst snd].
    pose proof (getResources_client_trace w (S i) (apiClient b)) as Hpre.
    match goal with
    | |- context [ping_after env w ?j ?b' ?got] =>
        destruct (ping_after_facts env w j b' got) as (Hs & Hr & Hq & Hp);
        cbn zeta in Hs, Hr, Hq, Hp;
        destruct (observed_after_defer _ (fst (ping_after env w j b' got))
                    Hpre) as (-> & _ & -> & _);
        rewrite Hs
    end.
    change (presences (Obs DeferReply tt :: ?t)) with (presences t).
    rewrite presences_app, (client_trace_no_presence _ Hpre), Hp.
    repeat split; assumption.
  - rewrite updateBotStatus_run. cbn zeta. cbn [fst snd].
    pose proof (getResources_client_trace w i (apiClient b)) as Hpre.
    match goal with
    | |- context [status_after env w ?j ?b' ?got] =>
        destruct (status_after_facts env w j b' got) as (Hs & Hr & Hq & Hp);
        cbn zeta in Hs, Hr, Hq, Hp;
        destruct (observed_after _ (fst (status_after env w j b' got))
                    Hpre) as (-> & _ & -> & _);
        rewrite Hs
    end.
    rewrite presences_app, (client_trace_no_presence _ Hpre).
    repeat split; assumption.
Qed.

Lemma public_ip_of_nullish (result : value) :
  nullish result = true ->
  public_ip_of result = Thrown (TypeError_read result "outputs").
Proof. destruct result; try discriminate; reflexivity. Qed.

(** What is left of the reconciler when [getResources] gives no snapshot
    to read: it threw, or it returned [null] or [undefined]. *)
Lemma no_snapshot_after (w : world) (i : nat) (s : Session) :
  let g := run w i (getResources s) in
  match http_answer (baseURL s ++ "/tetracubed/resources") (fst g) with
  | Some (HttpOk result) => nullish result = true
  | _ => True
  end ->
  exists e,
    match fst (snd g) with
    | Normal result => public_ip_of result = Thrown e
    | Thrown e' => e' = e
    end.
Proof.
  cbn zeta. intros H.
  pose proof (getResources_outcome w i s) as Hg. cbn zeta in Hg.
  destruct (fst (snd (run w i (getResources s)))) as [result|e].
  - rewrite Hg in H. eexists. now apply public_ip_of_nullish.
  - now exists e.
Qed.

Lemma labels_app (a b : list obs) :
  labels (a ++ b)%list = (labels a ++ labels b)%list.
Proof.
  induction a as [|[X e x] a IH]; [reflexivity|].
  destruct e; cbn; rewrite IH; reflexivity.
Qed.

Lemma logged_labels (label : string) (tr : list obs) :
  ~ In label (labels tr) -> logged label tr = [].
Proof.
  induction tr as [|[X e x] tr IH]; [reflexivity|].
  destruct e; cbn; try exact IH.
  intros H. destruct (String.eqb label0 label) eqn:Hl.
  - apply String.eqb_eq in Hl. destruct H. now left.
  - apply IH. intros Hin. apply H. now right.
Qed.

Lemma requests_to_app (url : string) (a b : list obs) :
  requests_to url (a ++ b)%list
  = (requests_to url a + requests_to url b)%nat.
Proof. unfold requests_to. now rewrite List.filter_app, length_app. Qed.

Lemma requests_to_token (s : Session) (op : api_op) (x : http_outcome)
    (tr : list obs) :
  requests_to (baseURL s ++ op_path op) (Obs (token_event s) x :: tr)
  = requests_to (baseURL s ++ op_path op) tr.
Proof.
  unfold requests_to. cbn [List.filter is_request token_event event_url].
  now rewrite (token_url_not_op (baseURL s) op).
Qed.

(** X18. A call of the API client logs when it throws and only then: a
    call that returns has logged nothing, a call that throws has logged one
    line, under "Authentication failed:" when it is the token request that
    failed and under the operation's own label otherwise. *)
Theorem call_logs_iff_throws (w : world) (i : nat) (op : api_op)
    (s : Session) :
  let r := run w i (call op s) in
  match fst (snd r) with
  | Normal _ => labels (fst r) = []
  | Thrown _ =>
      labels (fst r)
      = [match requests_to (baseURL s ++ op_path op) (fst r) with
         | O => "Authentication failed:"
         | S _ => op_label op
         end]
  end.
Proof.
  cbn zeta. url_facts s.
  assert (Hreq : forall j s1, baseURL s1 = baseURL s ->
             match fst (snd (run w j (op_request op s1))) with
             | Normal _ => labels (fst (run w j (op_request op s1))) = []
             | Thrown _ =>
                 labels (fst (run w j (op_request op s1))) = [op_label op]
             end
             /\ requests_to (baseURL s ++ op_path op)
                  (fst (run w j (op_request op s1))) = 1%nat).
  { intros j s1 Hb. rewrite op_request_outcome. unfold requests_to.
    destruct (http_at w j); destruct op; cbn; rewrite Hb, String.eqb_refl;
      split; reflexivity. }
  destruct (call_cases w i op s)
    as [(_ & _ & ->)
       | [(pre & j & d & tok & Hpre & _ & ->)
         | (pre & ans & error & Hpre & _ & ->)]].
  - destruct (Hreq (S i) s eq_refl) as [Hl Hn]. cbn [fst snd labels].
    change (requests_to ?u (Obs DateNow ?x :: ?t)) with (requests_to u t).
    rewrite Hn.
    destruct (fst (snd (run w (S i) (op_request op s)))); exact Hl.
  - destruct (Hreq (S (S j))
                (set_token tok (now_at w (S j) + REFRESH_AFTER_MS) s) eq_refl)
      as [Hl Hn].
    cbn [fst snd]. rewrite labels_app, requests_to_app, requests_to_token.
    change (requests_to ?u (Obs DateNow ?x :: ?t)) with (requests_to u t).
    rewrite Hn. cbn [labels token_event].
    assert (Hp : labels pre = []) by (destruct Hpre as [-> | ->]; reflexivity).
    rewrite Hp, Nat.add_1_r. cbn [app].
    destruct (fst (snd (run w (S (S j)) _))); exact Hl.
  - cbn [fst snd]. rewrite labels_app, requests_to_app, requests_to_token.
    assert (Hp : labels pre = [] /\ requests_to (baseURL s ++ op_path op) pre
                                   = 0%nat)
      by (destruct Hpre as [-> | ->]; split; reflexivity).
    destruct Hp as [-> ->]. reflexivity.
Qed.

Lemma call_logs_iff_throws_witness :
  let w := failing_world (axios_error "Request failed with status code 401"
                            (JObj [("detail", JStr "Incorrect password")])) in
  labels (fst (run w 0 (call OpStop example_client)))
  = ["Authentication failed:"].
Proof.
  intros w. exact (call_logs_iff_throws w 0 OpStop example_client).
Defined.


(** The lines a call logs are the client's own. *)
Lemma call_labels_in (w : world) (i : nat) (op : api_op) (s : Session)
    (l : string) :
  In l (labels (fst (run w i (call op s)))) ->
  l = "Authentication failed:" \/ l = op_label op.
Proof.
  assert (Hreq : forall j s1,
             In l (labels (fst (run w j (op_request op s1)))) ->
             l = op_label op).
  { intros j s1. rewrite op_request_outcome.
    destruct (http_at w j); cbn; destruct op; cbn; intuition. }
  destruct (call_cases w i op s)
    as [(_ & _ & ->)
       | [(pre & j & d & tok & Hpre & _ & ->)
         | (pre & ans & error & Hpre & _ & ->)]]; cbn [fst snd].
  - cbn [labels]. intros H. right. exact (Hreq _ _ H).
  - rewrite labels_app. cbn [labels token_event].
    assert (Hp : labels pre = []) by (destruct Hpre as [-> | ->]; reflexivity).
    rewrite Hp. cbn [app]. intros H. right. exact (Hreq _ _ H).
  - rewrite labels_app. cbn [labels token_event].
    assert (Hp : labels pre = []) by (destruct Hpre as [-> | ->]; reflexivity).
    rewrite Hp. cbn. intuition.
Qed.

Lemma getResources_not_status_label (w : world) (i : nat) (s : Session) :
  ~ In "Error updating bot status:"
      (labels (fst (run w i (getResources s)))).
Proof.
  intros H. destruct (call_labels_in w i OpGetResources s _ H) as [Hl|Hl];
    discriminate Hl.
Qed.

(** X17. When the control plane gives no snapshot to read (authentication
    fails, the resources request fails, or its answer is [null]), no
    game-protocol query is made and the two paths part: the on-demand path
    shows Starting, with the embed "Cannot Reach Server", while the
    periodic path sets no presence at all and leaves the one from before. *)
Theorem no_snapshot_paths_part (env : process_env) (w : world) (i : nat)
    (b : Bot) :
  (let r := run w i (handlePingServer env b) in
   match http_answer (resources_url b) (fst r) with
   | Some (HttpOk result) => nullish result = true
   | _ => True
   end ->
   shown (fst r) = [Some Starting] /\ queries (fst r) = []
   /\ List.map title (replies (fst r)) = ["⚠️ Cannot Reach Server"])
  /\ (let r := run w i (updateBotStatus env b) in
      match http_answer (resources_url b) (fst r) with
      | Some (HttpOk result) => nullish result = true
      | _ => True
      end ->
      shown (fst r) = [] /\ queries (fst r) = [] /\ presences (fst r) = []
      /\ List.length (logged "Error updating bot status:" (fst r)) = 1%nat).
Proof.
  split; cbn zeta.
  - rewrite handlePingServer_run. cbn zeta. cbn [fst snd http_answer].
    rewrite http_answer_app, ping_after_no_request. unfold resources_url.
    pose proof (getResources_client_trace w (S i) (apiClient b)) as Hpre.
    intros H.
    assert (H' : match http_answer (baseURL (apiClient b)
                          ++ "/tetracubed/resources")
                         (fst (run w (S i) (getResources (apiClient b)))) with
                 | Some (HttpOk result) => nullish result = true
                 | _ => True
                 end).
    { destruct (http_answer _ _); exact H. }
    destruct (no_snapshot_after w (S i) (apiClient b) H') as (e & He).
    match goal with
    | |- context [ping_after env w ?j ?b' ?got] =>
        assert (Ha : ping_after env w j b' got = ping_failed e b')
    end.
    { unfold ping_after.
      destruct (fst (snd (run w (S i) (getResources (apiClient b)))));
        [now rewrite He|now subst]. }
    rewrite Ha. unfold ping_failed. cbn [fst snd].
    match goal with
    | |- context [(?p ++ ?t)%list] =>
        destruct (observed_after_defer p t Hpre) as (-> & -> & -> & _)
    end.
    repeat split.
  - rewrite updateBotStatus_run. cbn zeta. cbn [fst snd].
    rewrite http_answer_app, status_after_no_request. unfold resources_url.
    pose proof (getResources_client_trace w i (apiClient b)) as Hpre.
    intros H.
    assert (H' : match http_answer (baseURL (apiClient b)
                          ++ "/tetracubed/resources")
                         (fst (run w i (getResources (apiClient b)))) with
                 | Some (HttpOk result) => nullish result = true
                 | _ => True
                 end).
    { destruct (http_answer _ _); exact H. }
    destruct (no_snapshot_after w i (apiClient b) H') as (e & He).
    match goal with
    | |- context [status_after env w ?j ?b' ?got] =>
        assert (Ha : fst (status_after env w j b' got)
                     = [Obs (ConsoleError "Error updating bot status:"
                               (JStr (message e))) tt])
    end.
    { unfold status_after.
      destruct (fst (snd (run w i (getResources (apiClient b)))));
        [now rewrite He|now subst]. }
    rewrite Ha.
    match goal with
    | |- context [(?p ++ ?t)%list] =>
        destruct (observed_after p t Hpre) as (-> & -> & _ & _)
    end.
    rewrite presences_app, (client_trace_no_presence _ Hpre), logged_app.
    split; [reflexivity|]. split; [reflexivity|]. split; [reflexivity|].
    rewrite (logged_labels _ _ (getResources_not_status_label w i _)).
    reflexivity.
Qed.

Lemma no_snapshot_paths_part_witness :
  let w := with_clock (fun _ => 1000)
             (with_http (fun _ => HttpErr (axios_error "timeout of 5000ms"
                                             JUndefined)) quiet_world) in
  shown (fst (run w 0 (handlePingServer (example_env None) example_bot)))
  = [Some Starting]
  /\ presences
       (fst (run w 0 (updateBotStatus (example_env None) example_bot))) = [].
Proof.
  intros w.
  destruct (no_snapshot_paths_part (example_env None) w 0 example_bot)
    as [Hping Hstatus].
  split.
  - exact (proj1 (Hping I)).
  - exact (proj1 (proj2 (proj2 (Hstatus I)))).
Defined.



(** ** The API client: what a call returns, and sequences of calls *)

(** X21. A call returns exactly what its own request was answered with:
    it returns [d] when, and only when, the request to the operation's URL
    got the response data [d]; when that request failed, or was never made
    because authentication failed, the call throws. *)
Theorem call_returns_response_data (w : world) (i : nat) (op : api_op)
    (s : Session) :
  let r := run w i (call op s) in
  match fst (snd r) with
  | Normal d => Some d
  | Thrown _ => None
  end
  = match http_answer (baseURL s ++ op_path op) (fst r) with
    | Some (HttpOk d) => Some d
    | _ => None
    end.
Proof.
  cbn zeta.
  destruct (call_shape w i op s) as
    (pre & Hpre & [(j & s1 & Hb & Htr & Hr) | (Htr & Hr)]);
    rewrite Htr, Hr.
  - pose proof (op_request_answer w j op s1) as Hans.
    rewrite http_answer_app, Hpre, <- Hb, Hans.
    rewrite op_request_outcome. destruct (http_at w j); reflexivity.
  - cbn [fst snd]. now rewrite Hpre.
Qed.

Lemma final_session_cons (s s0 s1 : Session) (tr : list obs)
    (log : list (Session * list obs * Session)) :
  final_session s ((s0, tr, s1) :: log) = final_session s1 log.
Proof.
  unfold final_session. cbn [List.map snd].
  destruct log as [|e log]; [reflexivity|].
  cbn [List.map]. set (l := snd e :: List.map snd log).
  change (List.last (s1 :: l) s = List.last l s1). subst l.
  cbn [List.last]. generalize (snd e) as x.
  induction (List.map snd log) as [|y l IH]; intros x; [reflexivity|].
  cbn [List.last] in *. apply IH.
Qed.

(** X22. While the token is fresh, the client never authenticates again,
    however many operations run: with a token held whose expiry lies beyond
    every reading of the clock, a sequence of operations makes no token
    request at all and ends with the session it started with. *)
Theorem fresh_session_never_authenticates (ops : list api_op) (w : world)
    (s : Session) :
  token_held s = true ->
  (forall j, expired (now_at w j) (tokenExpiry s) = false) ->
  forall i,
    authenticate_calls_of_log (baseURL s) (run_ops w i s ops) = 0%nat
    /\ final_session s (run_ops w i s ops) = s.
Proof.
  intros Ht Hfresh.
  induction ops as [|op ops IH]; intros i; [split; reflexivity|].
  cbn [run_ops authenticate_calls_of_log].
  destruct (call_with_fresh_token w i op s Ht (Hfresh i)) as (_ & Hs & ->).
  assert (Hst : snd (snd (run w i (call op s))) = s).
  { rewrite Hs, op_request_outcome. now destruct (http_at w (S i)). }
  rewrite final_session_cons, Hst.
  destruct (IH (i + List.length (fst (run w i (call op s))))%nat) as [-> ->].
  split; reflexivity.
Qed.

Lemma fresh_session_never_authenticates_witness :
  let w := with_clock (fun j => Z.min (Z.of_nat j) 4000) quiet_world in
  let s := set_token (JStr "abc") 5000 example_client in
  authenticate_calls_of_log "https://api.example"
    (run_ops w 0 s [OpStart; OpGetResources; OpStop]) = 0%nat.
Proof.
  intros w s.
  refine (proj1 (fresh_session_never_authenticates
                   [OpStart; OpGetResources; OpStop] w s eq_refl _ 0%nat)).
  intros j. unfold expired, s, w. cbn [tokenExpiry set_token now_at with_clock].
  rewrite Z.leb_gt. lia.
Defined.

(** A call without a token whose token request fails. *)
Lemma call_authentication_fails (w : world) (i : nat) (op : api_op)
    (s : Session) (e : js_error) :
  token_held s = false -> http_at w i = HttpErr e ->
  run w i (call op s)
  = ([Obs (token_event s) (HttpErr e);
      Obs (ConsoleError "Authentication failed:" (error_detail e)) tt],
     (Thrown (new_Error (JStr AUTH_FAILED)), s)).
Proof.
  intros Ht He. rewrite call_run, (ensure_no_token w i s Ht).
  destruct (authenticate_outcome w i s)
    as [(d & tok & Hd & _) | (ans & error & Hans & Htr & Hcase & Hr)];
    cbn zeta in *.
  - rewrite He in Hd. discriminate Hd.
  - rewrite He in Hans. subst ans.
    destruct Hcase as [Herr | (d & Hd & _)]; [|discriminate Hd].
    inversion Herr; subst error.
    rewrite Hr, Htr. reflexivity.
Qed.

(** X23. The client does not remember that authentication failed: without
    a token, and with every request failing, each operation of a sequence
    asks for a token again, once, throws, makes no request of its own, and
    leaves the session as it was. *)
Theorem failed_authentication_is_retried (ops : list api_op) (w : world)
    (s : Session) :
  token_held s = false ->
  (forall j, exists e, http_at w j = HttpErr e) ->
  forall i,
    authenticate_calls_of_log (baseURL s) (run_ops w i s ops)
    = List.length ops
    /\ final_session s (run_ops w i s ops) = s
    /\ Forall (fun entry =>
                 forall op, requests_to (baseURL s ++ op_path op)
                              (snd (fst entry)) = 0%nat)
         (run_ops w i s ops).
Proof.
  intros Ht Hfail.
  induction ops as [|op ops IH]; intros i; [repeat split; constructor|].
  cbn [run_ops authenticate_calls_of_log List.length].
  destruct (Hfail i) as (e & He).
  rewrite (call_authentication_fails w i op s e Ht He).
  cbn [fst snd List.length].
  rewrite final_session_cons.
  destruct (IH (i + 2)%nat) as (-> & -> & Hall).
  split; [|split; [reflexivity|]].
  - unfold authenticate_calls, token_event.
    cbn [List.filter is_request event_url]. rewrite String.eqb_refl.
    reflexivity.
  - constructor; [|exact Hall]. intros op'. cbn [fst snd].
    rewrite requests_to_token. reflexivity.
Qed.

Lemma failed_authentication_is_retried_witness :
  let w := failing_world (axios_error "connect ECONNREFUSED" JUndefined) in
  authenticate_calls_of_log "https://api.example"
    (run_ops w 0 example_client [OpStart; OpStart; OpGetResources]) = 3%nat.
Proof.
  intros w.
  refine (proj1 (failed_authentication_is_retried
                   [OpStart; OpStart; OpGetResources] w example_client
                   eq_refl _ 0%nat)).
  intros j. eexists. reflexivity.
Defined.

(** ** The reconciler: the address queried *)

(** X24. With no stable hostname configured (unset or empty), whenever
    [getResources] returns a snapshot with a [public_ip], each path makes
    one game-protocol query and makes it to that address, on port 25565,
    with five seconds to answer on the on-demand path and three on the
    periodic one. *)
Theorem public_ip_is_queried (env : process_env) (w : world) (i : nat)
    (b : Bot) (result ip : value) :
  truthy (env_var (SERVER_HOSTNAME env)) = false ->
  public_ip_entry result = Some ip -> truthy ip = true ->
  (let r := run w i (handlePingServer env b) in
   http_answer (resources_url b) (fst r) = Some (HttpOk result) ->
   queries (fst r) = [(ip, 25565, 5000)])
  /\ (let r := run w i (updateBotStatus env b) in
      http_answer (resources_url b) (fst r) = Some (HttpOk result) ->
      queries (fst r) = [(ip, 25565, 3000)]).
Proof.
  intros Hhost Hip Ht.
  assert (Haddr : server_address env ip = ip).
  { unfold server_address, js_or. now rewrite Hhost. }
  split; cbn zeta; intros Hgot.
  - destruct (handlePingServer_got env w i b result Hgot)
      as (pre & j & b' & Hpre & ->).
    rewrite (ping_after_present env w j b' result ip Hip Ht), Haddr.
    cbn [fst snd].
    destruct (status_at w (S j)) as [st|e]; cbn [fst snd ping_failed];
      match goal with
      | |- context [(pre ++ ?t)%list] =>
          destruct (observed_after_defer pre t Hpre) as (-> & _)
      end; reflexivity.
  - destruct (updateBotStatus_got env w i b result Hgot)
      as (pre & j & b' & Hpre & ->).
    rewrite (status_after_present env w j b' result ip Hip Ht), Haddr.
    cbn [fst snd].
    destruct (status_at w j) as [st|e]; cbn [fst snd];
      match goal with
      | |- context [(pre ++ ?t)%list] =>
          destruct (observed_after pre t Hpre) as (-> & _)
      end; reflexivity.
Qed.

Lemma public_ip_is_queried_witness :
  let w := reconciler_world (provisioned "1.2.3.4") (StatusErr refused) in
  queries (fst (run w 0 (handlePingServer (example_env (Some ""))
                           example_bot)))
  = [(JStr "1.2.3.4", 25565, 5000)]
  /\ queries (fst (run w 0 (updateBotStatus (example_env (Some ""))
                              example_bot)))
     = [(JStr "1.2.3.4", 25565, 3000)].
Proof.
  intros w.
  destruct (public_ip_is_queried (example_env (Some "")) w 0 example_bot
              (provisioned "1.2.3.4") (JStr "1.2.3.4") eq_refl eq_refl
              eq_refl) as (Hping & Hstatus).
  split; [exact (Hping eq_refl)|exact (Hstatus eq_refl)].
Defined.

(** ** The start and stop commands *)

(** [handleStart] of someone allowed, step by step. *)
Lemma handleStart_run (env : process_env) (w : world) (i : nat)
    (interaction : Interaction) (b : Bot) :
  hasPermission env interaction = true ->
  let g := run w (S (S i)) (startServer (apiClient b)) in
  let b' := mkBot (snd (snd g)) (config b) in
  let j := (S (S i) + List.length (fst g))%nat in
  let before := [Obs DeferReply tt;
                 Obs (EditReply (startEmbed (user_id interaction))) tt] in
  run w i (handleStart env interaction b)
  = match fst (snd g) with
    | Thrown e => ((before ++ fst g)%list, (Thrown e, b'))
    | Normal result =>
        match started_address env result with
        | Thrown e => ((before ++ fst g)%list, (Thrown e, b'))
        | Normal serverAddress =>
            let successEmbed :=
              startedEmbed serverAddress (user_id interaction) in
            ((before ++ fst g
                ++ Obs (EditReply successEmbed) tt
                :: fst (run w (S j) (sendNotification env successEmbed b')))%list,
             (Normal tt, b'))
        end
    end.
Proof.
  intros Hperm. unfold handleStart. rewrite Hperm.
  unfold try_catch, bind, on_client.
  cbn -[startServer sendNotification startedEmbed startEmbed started_address].
  rewrite !run_pbind.
  destruct (run w (S (S i)) (startServer (apiClient b)))
    as [trg [[result|e] s']].
  all: cbn -[sendNotification startedEmbed startEmbed started_address].
  all: rewrite ?app_nil_r, ?Nat.add_0_r.
  2: reflexivity.
  destruct (started_address env result) as [addr|e];
    cbn -[sendNotification startedEmbed startEmbed];
    rewrite ?app_nil_r; [|reflexivity].
  match goal with
  | |- context [run w ?k (sendNotification env ?t ?b')] =>
      pose proof (f_equal snd (sendNotification_run env t w k b')) as Hs;
      cbn zeta in Hs; cbn [snd] in Hs; rewrite Hs
  end.
  reflexivity.
Qed.

(** [handleStop] of someone allowed, step by step. *)
Lemma handleStop_run (env : process_env) (w : world) (i : nat)
    (interaction : Interaction) (b : Bot) :
  hasPermission env interaction = true ->
  let g := run w (S (S i)) (stopServer (apiClient b)) in
  let b' := mkBot (snd (snd g)) (config b) in
  let j := (S (S i) + List.length (fst g))%nat in
  let before := [Obs DeferReply tt;
                 Obs (EditReply (stopEmbed (user_id interaction))) tt] in
  run w i (handleStop env interaction b)
  = match fst (snd g) with
    | Thrown e => ((before ++ fst g)%list, (Thrown e, b'))
    | Normal _ =>
        let successEmbed := stoppedEmbed (user_id interaction) in
        ((before ++ fst g
            ++ Obs (EditReply successEmbed) tt
            :: fst (run w (S j) (sendNotification env successEmbed b')))%list,
         (Normal tt, b'))
    end.
Proof.
  intros Hperm. unfold handleStop. rewrite Hperm.
  unfold try_catch, bind, on_client.
  cbn -[stopServer sendNotification stoppedEmbed stopEmbed].
  rewrite !run_pbind.
  destruct (run w (S (S i)) (stopServer (apiClient b)))
    as [trg [[result|e] s']].
  all: cbn -[sendNotification stoppedEmbed stopEmbed].
  all: rewrite ?app_nil_r, ?Nat.add_0_r.
  2: reflexivity.
  match goal with
  | |- context [run w ?k (sendNotification env ?t ?b')] =>
      pose proof (f_equal snd (sendNotification_run env t w k b')) as Hs;
      cbn zeta in Hs; cbn [snd] in Hs; rewrite Hs
  end.
  reflexivity.
Qed.

(** How a call ends, read off the answer its request got. *)
Lemma call_outcome (w : world) (i : nat) (op : api_op) (s : Session) :
  let r := run w i (call op s) in
  match fst (snd r) with
  | Normal d =>
      http_answer (baseURL s ++ op_path op) (fst r) = Some (HttpOk d)
  | Thrown _ =>
      match http_answer (baseURL s ++ op_path op) (fst r) with
      | Some (HttpOk _) => False
      | _ => True
      end
  end.
Proof.
  cbn zeta.
  destruct (call_shape w i op s) as
    (pre & Hpre & [(j & s1 & Hb & Htr & Hr) | (Htr & Hr)]);
    rewrite Htr, Hr.
  - pose proof (op_request_answer w j op s1) as Hans.
    rewrite http_answer_app, Hpre, <- Hb, Hans.
    rewrite op_request_outcome. destruct (http_at w j); cbn [fst snd]; auto.
  - cbn [fst snd]. now rewrite Hpre.
Qed.

Lemma client_trace_no_channel (tr : list obs) :
  forallb client_obs tr = true -> fetches tr = [] /\ sends tr = [].
Proof.
  induction tr as [|[X e x] tr IH]; [auto|].
  cbn [forallb]. intros H. apply andb_true_iff in H as [He Htr].
  destruct e; try discriminate He; exact (IH Htr).
Qed.

Lemma sendNotification_no_request (env : process_env) (embed : Embed)
    (w : world) (i : nat) (b : Bot) (url : string) :
  http_answer url (fst (run w i (sendNotification env embed b))) = None
  /\ replies (fst (run w i (sendNotification env embed b))) = [].
Proof.
  rewrite sendNotification_run. cbn zeta. cbn [fst].
  destruct (truthy (notification_channel env b)); [|now split].
  destruct (fetch_at w i) as [[] []|e]; try destruct (write_at w (S i));
    now split.
Qed.

(** X25. The start and stop commands of someone without permission reach
    nothing: the one effect is the reply, to the caller alone, that
    permission is missing; no request goes to the control plane, nothing
    is deferred, edited or notified, and the bot is as before. *)
Theorem power_command_denied (env : process_env) (w : world) (i : nat)
    (c : power_command) (interaction : Interaction) (b : Bot) :
  hasPermission env interaction = false ->
  run w i (handle_power env c interaction b)
  = ([Obs (ReplyContent
             "You do not have permission to use this command." true) tt],
     (Normal tt, b)).
Proof.
  intros Hperm. destruct c; cbn [handle_power];
    unfold handleStart, handleStop; rewrite Hperm; reflexivity.
Qed.

Lemma power_command_denied_witness :
  let env := mkEnv "https://api.example" "fox" "secret" None (Some "77")
               (Some "42") None in
  run quiet_world 0 (handle_power env CmdStop (an_admin "5") example_bot)
  = ([Obs (ReplyContent
             "You do not have permission to use this command." true) tt],
     (Normal tt, example_bot)).
Proof.
  intros env.
  exact (power_command_denied env quiet_world 0 CmdStop (an_admin "5")
           example_bot eq_refl).
Defined.

(** X26. When the request of a start or stop command is not answered with
    data (it fails, or authentication fails before it), the command throws
    to its caller: the progress embed is the one edit it has made, no
    notification is fetched or sent, and the configuration is as before. *)
Theorem power_command_failure (env : process_env) (w : world) (i : nat)
    (c : power_command) (interaction : Interaction) (b : Bot) :
  hasPermission env interaction = true ->
  let r := run w i (handle_power env c interaction b) in
  match http_answer (command_url c b) (fst r) with
  | Some (HttpOk _) => False
  | _ => True
  end ->
  (exists e, fst (snd r) = Thrown e)
  /\ config (snd (snd r)) = config b
  /\ replies (fst r) = [progress_embed c (user_id interaction)]
  /\ fetches (fst r) = [] /\ sends (fst r) = [].
Proof.
  intros Hperm. cbn zeta. unfold command_url.
  destruct c; cbn [handle_power command_op progress_embed].
  - rewrite (handleStart_run env w i interaction b Hperm). cbn zeta.
    pose proof (call_outcome w (S (S i)) OpStart (apiClient b)) as Hg.
    pose proof (call_client_trace w (S (S i)) OpStart (apiClient b)) as Hpre.
    change (call OpStart) with startServer in *. cbn zeta in Hg.
    destruct (client_trace_silent _ Hpre) as (_ & _ & Hrep & _).
    destruct (client_trace_no_channel _ Hpre) as (Hfe & Hse).
    destruct (fst (snd (run w (S (S i)) (startServer (apiClient b)))))
      as [result|e].
    + destruct (started_address env result); cbn [fst snd app http_answer];
        rewrite ?http_answer_app, Hg; intros [].
    + intros _. cbn [fst snd app replies fetches sends config].
      rewrite Hrep, Hfe, Hse. eauto 6.
  - rewrite (handleStop_run env w i interaction b Hperm). cbn zeta.
    pose proof (call_outcome w (S (S i)) OpStop (apiClient b)) as Hg.
    pose proof (call_client_trace w (S (S i)) OpStop (apiClient b)) as Hpre.
    change (call OpStop) with stopServer in *. cbn zeta in Hg.
    destruct (client_trace_silent _ Hpre) as (_ & _ & Hrep & _).
    destruct (client_trace_no_channel _ Hpre) as (Hfe & Hse).
    destruct (fst (snd (run w (S (S i)) (stopServer (apiClient b)))))
      as [result|e].
    + cbn [fst snd app http_answer]. rewrite http_answer_app, Hg. intros [].
    + intros _. cbn [fst snd app replies fetches sends config].
      rewrite Hrep, Hfe, Hse. eauto 6.
Qed.

Lemma power_command_failure_witness :
  let w := failing_world (axios_error "Request failed with status code 500"
                            (JObj [("detail", JStr "Stack is busy")])) in
  let r := run w 0 (handle_power (example_env None) CmdStart (an_admin "5")
                      example_bot) in
  replies (fst r) = [startEmbed "42"] /\ fetches (fst r) = []
  /\ sends (fst r) = [].
Proof.
  intros w r.
  exact (proj2 (proj2 (power_command_failure (example_env None) w 0 CmdStart
                         (an_admin "5") example_bot eq_refl I))).
Defined.

(** What the notification at the end of a command fetches and sends. *)
Lemma sendNotification_channel (env : process_env) (embed : Embed)
    (w : world) (i : nat) (b : Bot) :
  let tr := fst (run w i (sendNotification env embed b)) in
  fetches tr = (if truthy (notification_channel env b)
                then [notification_channel env b] else [])
  /\ forall id em, In (id, em) (sends tr) ->
       id = notification_channel env b /\ em = embed.
Proof.
  rewrite sendNotification_run. cbn zeta. cbn [fst].
  destruct (truthy (notification_channel env b));
    [|split; [reflexivity|intros id em []]].
  destruct (fetch_at w i) as [[] []|e]; try destruct (write_at w (S i));
    cbn [fetches sends]; (split; [reflexivity|]);
    intros id em Hin; cbn in Hin; try contradiction;
    destruct Hin as [Hin|[]]; inversion Hin; now split.
Qed.

(** X27. When the request of the start command is answered with data, the
    command completes: the deferred reply is edited twice, first to the
    progress embed and then to the success embed with the address, and the
    notification, if a channel is set, is that same success embed, sent to
    that channel and nowhere else. *)
Theorem start_success_is_announced (env : process_env) (w : world)
    (i : nat) (interaction : Interaction) (b : Bot) (result addr : value) :
  hasPermission env interaction = true ->
  let r := run w i (handleStart env interaction b) in
  http_answer (command_url CmdStart b) (fst r) = Some (HttpOk result) ->
  started_address env result = Normal addr ->
  fst (snd r) = Normal tt
  /\ replies (fst r)
     = [startEmbed (user_id interaction);
        startedEmbed addr (user_id interaction)]
  /\ fetches (fst r) = (if truthy (notification_channel env b)
                        then [notification_channel env b] else [])
  /\ forall id em, In (id, em) (sends (fst r)) ->
       id = notification_channel env b
       /\ em = startedEmbed addr (user_id interaction).
Proof.
  intros Hperm. cbn zeta. unfold command_url. cbn [command_op].
  rewrite (handleStart_run env w i interaction b Hperm). cbn zeta.
  pose proof (call_outcome w (S (S i)) OpStart (apiClient b)) as Hg.
  pose proof (call_client_trace w (S (S i)) OpStart (apiClient b)) as Hpre.
  change (call OpStart) with startServer in *. cbn zeta in Hg.
  destruct (client_trace_silent _ Hpre) as (_ & _ & Hrep & _).
  destruct (client_trace_no_channel _ Hpre) as (Hfe & Hse).
  destruct (fst (snd (run w (S (S i)) (startServer (apiClient b)))))
    as [result'|e].
  - assert (Hres : forall tr,
               http_answer (baseURL (apiClient b) ++ op_path OpStart)
                 ([Obs DeferReply tt;
                   Obs (EditReply (startEmbed (user_id interaction))) tt]
                  ++ fst (run w (S (S i)) (startServer (apiClient b)))
                  ++ tr)%list = Some (HttpOk result) ->
               result' = result).
    { intros tr. cbn [app http_answer]. rewrite http_answer_app, Hg.
      intros H. now inversion H. }
    destruct (started_address env result') as [addr'|e] eqn:Haddr;
      cbn [fst snd]; intros Hans Ha.
    + apply Hres in Hans. subst result'. rewrite Haddr in Ha.
      inversion Ha; subst addr'. split; [reflexivity|].
      match goal with
      | |- context [run w ?k (sendNotification env ?t ?b')] =>
          destruct (sendNotification_channel env t w k b') as [Hf Hs];
          destruct (sendNotification_no_request env t w k b' "") as [_ Hr]
      end.
      cbn zeta in Hf, Hs.
      cbn [app replies fetches sends].
      rewrite replies_app, fetches_app, sends_app, Hrep, Hfe, Hse.
      cbn [app replies fetches sends]. rewrite Hr.
      split; [reflexivity|]. split; [exact Hf|exact Hs].
    + rewrite <- (app_nil_r (fst (run w (S (S i)) _))) in Hans.
      apply Hres in Hans. subst result'. rewrite Haddr in Ha.
      discriminate Ha.
  - cbn [fst snd app http_answer]. intros Hans. rewrite Hans in Hg.
    destruct Hg.
Qed.

Lemma start_success_is_announced_witness :
  let w := with_fetch (fun _ => FetchOk true true)
             (with_clock (fun _ => 1000)
                (with_http (fun _ => HttpOk (started "1.2.3.4")) quiet_world)) in
  let r := run w 0 (handleStart (example_env None) (an_admin "5")
                      example_bot) in
  replies (fst r) = [startEmbed "42"; startedEmbed (JStr "1.2.3.4") "42"]
  /\ fetches (fst r) = [JStr "999"].
Proof.
  intros w r.
  destruct (start_success_is_announced (example_env None) w 0 (an_admin "5")
              example_bot (started "1.2.3.4") (JStr "1.2.3.4") eq_refl
              eq_refl eq_refl) as (_ & Hr & Hf & _).
  exact (conj Hr Hf).
Defined.

(** X28. When the request of the stop command is answered, with whatever
    data, the command completes: the deferred reply is edited twice, first
    to the progress embed and then to the success embed, and the
    notification, if a channel is set, is that same success embed, sent to
    that channel and nowhere else. *)
Theorem stop_success_is_announced (env : process_env) (w : world)
    (i : nat) (interaction : Interaction) (b : Bot) (result : value) :
  hasPermission env interaction = true ->
  let r := run w i (handleStop env interaction b) in
  http_answer (command_url CmdStop b) (fst r) = Some (HttpOk result) ->
  fst (snd r) = Normal tt
  /\ replies (fst r)
     = [stopEmbed (user_id interaction); stoppedEmbed (user_id interaction)]
  /\ fetches (fst r) = (if truthy (notification_channel env b)
                        then [notification_channel env b] else [])
  /\ forall id em, In (id, em) (sends (fst r)) ->
       id = notification_channel env b
       /\ em = stoppedEmbed (user_id interaction).
Proof.
  intros Hperm. cbn zeta. unfold command_url. cbn [command_op].
  rewrite (handleStop_run env w i interaction b Hperm). cbn zeta.
  pose proof (call_outcome w (S (S i)) OpStop (apiClient b)) as Hg.
  pose proof (call_client_trace w (S (S i)) OpStop (apiClient b)) as Hpre.
  change (call OpStop) with stopServer in *. cbn zeta in Hg.
  destruct (client_trace_silent _ Hpre) as (_ & _ & Hrep & _).
  destruct (client_trace_no_channel _ Hpre) as (Hfe & Hse).
  destruct (fst (snd (run w (S (S i)) (stopServer (apiClient b)))))
    as [result'|e].
  - cbn [fst snd]. intros _. split; [reflexivity|].
    match goal with
    | |- context [run w ?k (sendNotification env ?t ?b')] =>
        destruct (sendNotification_channel env t w k b') as [Hf Hs];
        destruct (sendNotification_no_request env t w k b' "") as [_ Hr]
    end.
    cbn zeta in Hf, Hs.
    cbn [app replies fetches sends].
    rewrite replies_app, fetches_app, sends_app, Hrep, Hfe, Hse.
    cbn [app replies fetches sends]. rewrite Hr.
    split; [reflexivity|]. split; [exact Hf|exact Hs].
  - cbn [fst snd app http_answer]. intros Hans. rewrite Hans in Hg.
    destruct Hg.
Qed.

Lemma stop_success_is_announced_witness :
  let w := with_fetch (fun _ => FetchOk true true)
             (with_clock (fun _ => 1000)
                (with_http (fun _ => HttpOk JNull) quiet_world)) in
  let r := run w 0 (handleStop (example_env None) (an_admin "5")
                      example_bot) in
  replies (fst r) = [stopEmbed "42"; stoppedEmbed "42"]
  /\ fetches (fst r) = [JStr "999"].
Proof.
  intros w r.
  destruct (stop_success_is_announced (example_env None) w 0 (an_admin "5")
              example_bot JNull eq_refl eq_refl) as (_ & Hr & Hf & _).
  exact (conj Hr Hf).
Defined.

(** A run of [handleStart] in which [startServer] got [result]. *)
Lemma handleStart_got (env : process_env) (w : world) (i : nat)
    (interaction : Interaction) (b : Bot) (result : value) :
  hasPermission env interaction = true ->
  http_answer (command_url CmdStart b)
    (fst (run w i (handleStart env interaction b))) = Some (HttpOk result) ->
  fst (snd (run w (S (S i)) (startServer (apiClient b)))) = Normal result.
Proof.
  intros Hperm. unfold command_url. cbn [command_op].
  rewrite (handleStart_run env w i interaction b Hperm). cbn zeta.
  pose proof (call_outcome w (S (S i)) OpStart (apiClient b)) as Hg.
  change (call OpStart) with startServer in *. cbn zeta in Hg.
  destruct (fst (snd (run w (S (S i)) (startServer (apiClient b)))))
    as [result'|e].
  - destruct (started_address env result'); cbn [fst snd app http_answer];
      rewrite ?http_answer_app, Hg; intros H; now inversion H.
  - cbn [fst snd app http_answer]. intros Hans. rewrite Hans in Hg.
    destruct Hg.
Qed.

(** X29. With no hostname configured, a start request answered with
    [null] makes the command throw although the control plane accepted the
    request: reading [public_ip] of the answer is a [TypeError], the
    progress embed is the one edit made, and no notification is fetched or
    sent. *)
Theorem start_null_answer_throws (env : process_env) (w : world) (i : nat)
    (interaction : Interaction) (b : Bot) (result : value) :
  hasPermission env interaction = true ->
  truthy (env_var (SERVER_HOSTNAME env)) = false ->
  nullish result = true ->
  let r := run w i (handleStart env interaction b) in
  http_answer (command_url CmdStart b) (fst r) = Some (HttpOk result) ->
  fst (snd r) = Thrown (TypeError_read result "public_ip")
  /\ replies (fst r) = [startEmbed (user_id interaction)]
  /\ fetches (fst r) = [] /\ sends (fst r) = [].
Proof.
  intros Hperm Hhost Hnull. cbn zeta. intros Hans.
  pose proof (handleStart_got env w i interaction b result Hperm Hans) as Hg.
  rewrite (handleStart_run env w i interaction b Hperm). cbn zeta.
  rewrite Hg. unfold started_address. rewrite Hhost.
  pose proof (call_client_trace w (S (S i)) OpStart (apiClient b)) as Hpre.
  change (call OpStart) with startServer in *.
  destruct (client_trace_silent _ Hpre) as (_ & _ & Hrep & _).
  destruct (client_trace_no_channel _ Hpre) as (Hfe & Hse).
  destruct result; try discriminate Hnull;
    cbn [get_prop fst snd app replies fetches sends];
    rewrite Hrep, Hfe, Hse; repeat split.
Qed.

Lemma start_null_answer_throws_witness :
  let w := with_clock (fun _ => 1000)
             (with_http (fun _ => HttpOk JNull) quiet_world) in
  let r := run w 0 (handleStart (example_env None) (an_admin "5")
                      example_bot) in
  fst (snd r) = Thrown (TypeError_read JNull "public_ip")
  /\ replies (fst r) = [startEmbed "42"].
Proof.
  intros w r.
  destruct (start_null_answer_throws (example_env None) w 0 (an_admin "5")
              example_bot JNull eq_refl eq_refl eq_refl eq_refl)
    as (Ht & Hr & _).
  exact (conj Ht Hr).
Defined.

(** X30. The address the start command shows is the configured hostname
    when there is one, set and not empty, whatever the answer holds, even
    [null]; with none configured, and an answer that has no [public_ip],
    the success embed still goes out: its description reads
    "Connect using: `undefined`" and its address field "`N/A`". *)
Theorem start_address_shown (env : process_env) (w : world) (i : nat)
    (interaction : Interaction) (b : Bot) (result : value) :
  hasPermission env interaction = true ->
  let r := run w i (handleStart env interaction b) in
  http_answer (command_url CmdStart b) (fst r) = Some (HttpOk result) ->
  (forall hostname,
      SERVER_HOSTNAME env = Some hostname -> hostname <> "" ->
      replies (fst r)
      = [startEmbed (user_id interaction);
         startedEmbed (JStr hostname) (user_id interaction)])
  /\ (truthy (env_var (SERVER_HOSTNAME env)) = false ->
      get_prop result "public_ip" = Normal JUndefined ->
      exists embed,
        replies (fst r) = [startEmbed (user_id interaction); embed]
        /\ description embed
           = "**The Minecraft server is now online!**"
             ++ String LF (String LF "Connect using: `undefined`")
        /\ field_of "🌐 Server Address" embed = Some "`N/A`").
Proof.
  intros Hperm. cbn zeta. intros Hans.
  pose proof (handleStart_got env w i interaction b result Hperm Hans) as Hg.
  rewrite (handleStart_run env w i interaction b Hperm). cbn zeta.
  rewrite Hg.
  pose proof (call_client_trace w (S (S i)) OpStart (apiClient b)) as Hpre.
  change (call OpStart) with startServer in *.
  destruct (client_trace_silent _ Hpre) as (_ & _ & Hrep & _).
  assert (Hshown : forall addr,
             started_address env result = Normal addr ->
             replies (fst
               match started_address env result with
               | Normal serverAddress =>
                   (([Obs DeferReply tt;
                      Obs (EditReply (startEmbed (user_id interaction))) tt]
                     ++ fst (run w (S (S i)) (startServer (apiClient b)))
                     ++ Obs (EditReply
                               (startedEmbed serverAddress
                                  (user_id interaction))) tt
                     :: fst (run w
                               (S (S (S i)
                                   + List.length
                                       (fst (run w (S (S i))
                                          (startServer (apiClient b))))))
                               (sendNotification env
                                  (startedEmbed serverAddress
                                     (user_id interaction))
                                  (mkBot
                                     (snd (snd (run w (S (S i))
                                        (startServer (apiClient b)))))
                                     (config b)))))%list,
                    (@Normal unit tt,
                     mkBot (snd (snd (run w (S (S i))
                                        (startServer (apiClient b)))))
                       (config b)))
               | Thrown e =>
                   (([Obs DeferReply tt;
                      Obs (EditReply (startEmbed (user_id interaction))) tt]
                     ++ fst (run w (S (S i)) (startServer (apiClient b))))%list,
                    (Thrown e,
                     mkBot (snd (snd (run w (S (S i))
                                        (startServer (apiClient b)))))
                       (config b)))
               end)
             = [startEmbed (user_id interaction);
                startedEmbed addr (user_id interaction)]).
  { intros addr ->. cbn [fst app replies].
    match goal with
    | |- context [run w ?k (sendNotification env ?t ?b')] =>
        destruct (sendNotification_no_request env t w k b' "") as [_ Hr]
    end.
    rewrite replies_app, Hrep. cbn [app replies]. now rewrite Hr. }
  split.
  - intros hostname Hhost Hne. apply Hshown.
    unfold started_address. rewrite Hhost. cbn [env_var truthy].
    destruct hostname; [now destruct Hne|reflexivity].
  - intros Hhost Hip. eexists. split.
    + apply Hshown. unfold started_address. rewrite Hhost. exact Hip.
    + split; reflexivity.
Qed.

Lemma start_address_shown_witness :
  let w := with_clock (fun _ => 1000)
             (with_http (fun _ => HttpOk JNull) quiet_world) in
  replies (fst (run w 0 (handleStart (example_env (Some "mc.example"))
                           (an_admin "5") example_bot)))
  = [startEmbed "42"; startedEmbed (JStr "mc.example") "42"].
Proof.
  intros w.
  apply (proj1 (start_address_shown (example_env (Some "mc.example")) w 0
                  (an_admin "5") example_bot JNull eq_refl eq_refl)
           "mc.example" eq_refl).
  discriminate.
Defined.

(** ** The reconciler, from what [getResources] returns *)

(** A run of [handlePingServer] in which [getResources] ends with [got]. *)
Lemma handlePingServer_from (env : process_env) (w : world) (i : nat)
    (b : Bot) (got : completion value) :
  resources_got w (S i) b = got ->
  exists pre b',
    forallb client_obs pre = true
    /\ List.length pre = resources_steps w (S i) b
    /\ config b' = config b
    /\ run w i (handlePingServer env b)
       = ((Obs DeferReply tt
             :: pre ++ fst (ping_after env w (S i + List.length pre) b' got))%list,
          snd (ping_after env w (S i + List.length pre) b' got)).
Proof.
  unfold resources_got, resources_steps. intros <-.
  rewrite handlePingServer_run. cbn zeta.
  exists (fst (run w (S i) (getResources (apiClient b)))),
    (mkBot (snd (snd (run w (S i) (getResources (apiClient b))))) (config b)).
  split; [apply getResources_client_trace|].
  split; [reflexivity|]. split; reflexivity.
Qed.

(** A run of [updateBotStatus] in which [getResources] ends with [got]. *)
Lemma updateBotStatus_from (env : process_env) (w : world) (i : nat)
    (b : Bot) (got : completion value) :
  resources_got w i b = got ->
  exists pre b',
    forallb client_obs pre = true
    /\ List.length pre = resources_steps w i b
    /\ config b' = config b
    /\ run w i (updateBotStatus env b)
       = ((pre ++ fst (status_after env w (i + List.length pre) b' got))%list,
          snd (status_after env w (i + List.length pre) b' got)).
Proof.
  unfold resources_got, resources_steps. intros <-.
  rewrite updateBotStatus_run. cbn zeta.
  exists (fst (run w i (getResources (apiClient b)))),
    (mkBot (snd (snd (run w i (getResources (apiClient b))))) (config b)).
  split; [apply getResources_client_trace|].
  split; [reflexivity|]. split; reflexivity.
Qed.

(** What a trace shows once the silent part of the API client is set
    aside, presences included. *)
Lemma observed_from (pre rest : list obs) :
  forallb client_obs pre = true ->
  queries (pre ++ rest) = queries rest
  /\ shown (pre ++ rest) = shown rest
  /\ replies (pre ++ rest) = replies rest
  /\ presences (pre ++ rest) = presences rest.
Proof.
  intros H. destruct (observed_after pre rest H) as (Hq & Hs & Hr & _).
  rewrite presences_app, (client_trace_no_presence _ H). auto.
Qed.

(** Both paths once [public_ip] has been read and found missing or
    empty. *)
Lemma offline_paths (env : process_env) (w : world) (i : nat) (b : Bot)
    (result ip : value) :
  public_ip_of result = Normal ip -> truthy ip = false ->
  (resources_got w (S i) b = Normal result ->
   let r := run w i (handlePingServer env b) in
   shown (fst r) = [Some Offline] /\ replies (fst r) = [offlineEmbed]
   /\ queries (fst r) = [] /\ fst (snd r) = Normal tt)
  /\ (resources_got w i b = Normal result ->
      let r := run w i (updateBotStatus env b) in
      shown (fst r) = [Some Offline]
      /\ presences (fst r) = [("🔴 Server Offline", 3, "idle")]
      /\ queries (fst r) = [] /\ fst (snd r) = Normal tt).
Proof.
  intros Hip Ht. split; intros Hgot; cbn zeta.
  - destruct (handlePingServer_from env w i b _ Hgot)
      as (pre & b' & Hpre & _ & _ & ->).
    unfold ping_after. rewrite Hip, Ht. cbn [negb fst snd].
    change (Obs DeferReply tt :: ?l) with ([Obs DeferReply tt] ++ l)%list.
    rewrite queries_app, shown_app, replies_app. cbn [queries shown replies app].
    destruct (observed_from pre [Obs (EditReply offlineEmbed) tt] Hpre)
      as (-> & -> & -> & _).
    repeat split.
  - destruct (updateBotStatus_from env w i b _ Hgot)
      as (pre & b' & Hpre & _ & _ & ->).
    unfold status_after. rewrite Hip, Ht. cbn [negb fst snd].
    destruct (observed_from pre
                [Obs (SetPresence "🔴 Server Offline" 3 "idle") tt] Hpre)
      as (-> & -> & _ & ->).
    repeat split.
Qed.

(** C3. Whenever [getResources] returns a result other than [null] or
    [undefined] whose outputs have no [public_ip] entry, or that has no
    outputs at all, the on-demand path replies with the offline embed and
    the periodic path sets the offline presence; that is all either shows,
    both complete, and neither makes a game-protocol query. *)
Theorem no_public_ip_is_offline (env : process_env) (w : world) (i : nat)
    (b : Bot) (result : value) :
  nullish result = false -> public_ip_entry result = None ->
  (resources_got w (S i) b = Normal result ->
   let r := run w i (handlePingServer env b) in
   shown (fst r) = [Some Offline] /\ replies (fst r) = [offlineEmbed]
   /\ queries (fst r) = [] /\ fst (snd r) = Normal tt)
  /\ (resources_got w i b = Normal result ->
      let r := run w i (updateBotStatus env b) in
      shown (fst r) = [Some Offline]
      /\ presences (fst r) = [("🔴 Server Offline", 3, "idle")]
      /\ queries (fst r) = [] /\ fst (snd r) = Normal tt).
Proof.
  intros Hobj Hnone.
  apply (offline_paths env w i b result JUndefined); [|reflexivity].
  now apply public_ip_of_absent.
Qed.

Lemma no_public_ip_is_offline_witness :
  let env := example_env None in
  let w := reconciler_world unprovisioned (StatusOk (answered 3 None)) in
  let w' := reconciler_world empty_outputs (StatusOk (answered 3 None)) in
  let ping w := fst (run w 0 (handlePingServer env example_bot)) in
  let periodic w := fst (run w 0 (updateBotStatus env example_bot)) in
  (shown (ping w) = [Some Offline] /\ replies (ping w) = [offlineEmbed]
   /\ queries (ping w) = [])
  /\ (shown (periodic w) = [Some Offline]
      /\ presences (periodic w) = [("🔴 Server Offline", 3, "idle")]
      /\ queries (periodic w) = [])
  /\ (shown (ping w') = [Some Offline] /\ queries (ping w') = [])
  /\ (shown (periodic w') = [Some Offline] /\ queries (periodic w') = []).
Proof.
  intros env w w' ping periodic.
  destruct (no_public_ip_is_offline env w 0 example_bot unprovisioned
              eq_refl eq_refl) as (Hping & Hstatus).
  destruct (no_public_ip_is_offline env w' 0 example_bot empty_outputs
              eq_refl eq_refl) as (Hping' & Hstatus').
  destruct (Hping eq_refl) as (H1 & H2 & H3 & _).
  destruct (Hstatus eq_refl) as (H4 & H5 & H6 & _).
  destruct (Hping' eq_refl) as (H7 & _ & H8 & _).
  destruct (Hstatus' eq_refl) as (H9 & _ & H10 & _).
  repeat split; assumption.
Defined.

(** Without its proviso C3 fails: [getResources] returns what the
    control plane answered, unchecked, and when that is [null] there is no
    [public_ip], yet reading [result.outputs] throws: the on-demand path
    shows Starting and the periodic path shows nothing. *)
Lemma no_public_ip_is_offline_counterexample :
  let env := example_env None in
  let w := reconciler_world JNull (StatusOk (answered 3 None)) in
  resources_got w 1 example_bot = Normal JNull
  /\ resources_got w 0 example_bot = Normal JNull
  /\ public_ip_entry JNull = None
  /\ shown (fst (run w 0 (handlePingServer env example_bot)))
     = [Some Starting]
  /\ shown (fst (run w 0 (updateBotStatus env example_bot))) = []
  /\ presences (fst (run w 0 (updateBotStatus env example_bot))) = [].
Proof. repeat split. Qed.

(** X19. A result whose [public_ip] is there but empty ([null], the empty
    string, zero or [false]) counts as having none: the on-demand path
    replies with the offline embed, the periodic path sets the offline
    presence, both complete, and neither makes a game-protocol query. *)
Theorem empty_public_ip_is_offline (env : process_env) (w : world) (i : nat)
    (b : Bot) (result ip : value) :
  public_ip_entry result = Some ip -> truthy ip = false ->
  (resources_got w (S i) b = Normal result ->
   let r := run w i (handlePingServer env b) in
   shown (fst r) = [Some Offline] /\ replies (fst r) = [offlineEmbed]
   /\ queries (fst r) = [] /\ fst (snd r) = Normal tt)
  /\ (resources_got w i b = Normal result ->
      let r := run w i (updateBotStatus env b) in
      shown (fst r) = [Some Offline]
      /\ presences (fst r) = [("🔴 Server Offline", 3, "idle")]
      /\ queries (fst r) = [] /\ fst (snd r) = Normal tt).
Proof.
  intros Hentry Ht.
  apply (offline_paths env w i b result ip); [|exact Ht].
  now apply public_ip_of_present.
Qed.

Lemma empty_public_ip_is_offline_witness :
  let env := example_env None in
  let w := reconciler_world null_public_ip (StatusOk (answered 3 None)) in
  let ping := fst (run w 0 (handlePingServer env example_bot)) in
  let periodic := fst (run w 0 (updateBotStatus env example_bot)) in
  (shown ping = [Some Offline] /\ replies ping = [offlineEmbed]
   /\ queries ping = [])
  /\ (shown periodic = [Some Offline]
      /\ presences periodic = [("🔴 Server Offline", 3, "idle")]
      /\ queries periodic = []).
Proof.
  intros env w ping periodic.
  destruct (empty_public_ip_is_offline env w 0 example_bot null_public_ip
              JNull eq_refl eq_refl) as (Hping & Hstatus).
  destruct (Hping eq_refl) as (H1 & H2 & H3 & _).
  destruct (Hstatus eq_refl) as (H4 & H5 & H6 & _).
  repeat split; assumption.
Defined.

(** The hint of the [catch] block, by the two tests the block makes. *)
Lemma errorEmbed_hint (error : js_error) :
  hint (errorEmbed error)
  = Some (if includes (message error) "timeout"
             || match code error with
                | JStr c => String.eqb c "ETIMEDOUT"
                | _ => false
                end
          then timeout_hint
          else if match code error with
                  | JStr c => String.eqb c "ECONNREFUSED"
                  | _ => false
                  end
               then refused_hint
               else generic_hint).
Proof.
  unfold errorEmbed, hint. cbn [fields List.find field_name field_value].
  cbn [String.eqb Ascii.eqb Bool.eqb]. reflexivity.
Qed.

(** Both paths when [getResources] returns a result with a [public_ip] and
    the game-protocol query fails, with whatever error: both complete and
    show Starting, and nothing else; the on-demand reply is the embed of the
    [catch] block for that error. *)
Lemma query_failure_paths (env : process_env) (w : world) (i : nat)
    (b : Bot) (result ip : value) (error : js_error) :
  public_ip_entry result = Some ip -> truthy ip = true ->
  (resources_got w (S i) b = Normal result ->
   status_at w (ping_query_step w i b) = StatusErr error ->
   let r := run w i (handlePingServer env b) in
   fst (snd r) = Normal tt /\ shown (fst r) = [Some Starting]
   /\ replies (fst r) = [errorEmbed error]
   /\ queries (fst r) = [(server_address env ip, 25565, 5000)])
  /\ (resources_got w i b = Normal result ->
      status_at w (status_query_step w i b) = StatusErr error ->
      let r := run w i (updateBotStatus env b) in
      fst (snd r) = Normal tt /\ shown (fst r) = [Some Starting]
      /\ presences (fst r) = [("🟡 Server Starting...", 3, "dnd")]
      /\ queries (fst r) = [(server_address env ip, 25565, 3000)]).
Proof.
  intros Hip Ht. unfold ping_query_step, status_query_step.
  split; intros Hgot Hq; cbn zeta.
  - destruct (handlePingServer_from env w i b _ Hgot)
      as (pre & b' & Hpre & Hlen & _ & ->).
    rewrite <- Hlen in Hq.
    rewrite (ping_after_present env w _ b' result ip Hip Ht), Hq.
    cbn [fst snd ping_failed].
    change (Obs DeferReply tt :: ?l) with ([Obs DeferReply tt] ++ l)%list.
    rewrite queries_app, shown_app, replies_app.
    cbn [queries shown replies app].
    match goal with
    | |- context [(pre ++ ?t)%list] =>
        destruct (observed_from pre t Hpre) as (-> & -> & -> & _)
    end.
    repeat split.
  - destruct (updateBotStatus_from env w i b _ Hgot)
      as (pre & b' & Hpre & Hlen & _ & ->).
    rewrite <- Hlen in Hq.
    rewrite (status_after_present env w _ b' result ip Hip Ht), Hq.
    cbn [fst snd].
    match goal with
    | |- context [(pre ++ ?t)%list] =>
        destruct (observed_from pre t Hpre) as (-> & -> & _ & ->)
    end.
    repeat split.
Qed.

(** C4. The failing input: [getResources] returns a result with a
    [public_ip] and the game-protocol query runs out of time, which the
    status library reports by rejecting with [timed_out].  Both paths show
    Starting.  The hint of the on-demand path, though,
    is not the one the [catch] block keeps for timeouts: its test looks for
    "timeout" in the message or for the code [ETIMEDOUT], this error has
    neither, and the reply carries the generic hint, the same as for a name
    that does not resolve.  A connection refused and a connection attempt
    the operating system gave up on get their own hints. *)
Theorem library_timeout_gets_generic_hint :
  let env := example_env None in
  let world_with error :=
    reconciler_world (provisioned "1.2.3.4") (StatusErr error) in
  let ping error :=
    fst (run (world_with error) 0 (handlePingServer env example_bot)) in
  let periodic error :=
    fst (run (world_with error) 0 (updateBotStatus env example_bot)) in
  (query_answer (ping timed_out) = Some (StatusErr timed_out)
   /\ shown (ping timed_out) = [Some Starting]
   /\ shown (periodic timed_out) = [Some Starting])
  /\ List.map hint (replies (ping timed_out)) = [Some generic_hint]
  /\ List.map hint (replies (ping not_found)) = [Some generic_hint]
  /\ List.map hint (replies (ping refused)) = [Some refused_hint]
  /\ List.map hint (replies (ping connect_timed_out)) = [Some timeout_hint]
  /\ generic_hint <> timeout_hint.
Proof.
  intros env world_with ping periodic.
  assert (Hpaths : forall error,
             shown (ping error) = [Some Starting]
             /\ replies (ping error) = [errorEmbed error]
             /\ shown (periodic error) = [Some Starting]).
  { intros error.
    destruct (query_failure_paths env (world_with error) 0 example_bot
                (provisioned "1.2.3.4") (JStr "1.2.3.4") error
                eq_refl eq_refl) as (Hping & Hstatus).
    destruct (Hping eq_refl eq_refl) as (_ & Hs & Hr & _).
    destruct (Hstatus eq_refl eq_refl) as (_ & Hs' & _).
    auto. }
  split; [|split; [|split; [|split; [|split]]]].
  - split; [reflexivity|].
    split; [apply (Hpaths timed_out)|apply (Hpaths timed_out)].
  - destruct (Hpaths timed_out) as (_ & -> & _). cbn [List.map].
    now rewrite errorEmbed_hint.
  - destruct (Hpaths not_found) as (_ & -> & _). cbn [List.map].
    now rewrite errorEmbed_hint.
  - destruct (Hpaths refused) as (_ & -> & _). cbn [List.map].
    now rewrite errorEmbed_hint.
  - destruct (Hpaths connect_timed_out) as (_ & -> & _). cbn [List.map].
    now rewrite errorEmbed_hint.
  - discriminate.
Qed.

(** ** The API client: the messages of failures *)

(** C7. When the guard has let a call of [startServer], [stopServer] or
    [getResources] through and its request is rejected, the call throws an
    error whose message is the [detail] of the upstream response when there
    is one (a non-empty string is carried as it is) and the operation's
    fixed fallback text when there is none; a rejected token request makes
    [authenticate] throw the same fixed text whatever the upstream sent,
    which goes to [console.error] only. *)
Theorem failure_messages :
  (forall (w : world) (i : nat) (op : api_op) (s s' : Session)
          (error : js_error),
      snd (run w i (ensureAuthenticated s)) = (Normal tt, s') ->
      http_at w (i + List.length (fst (run w i (ensureAuthenticated s))))
      = HttpErr error ->
      let detail := opt_prop (opt_prop (response error) "data") "detail" in
      exists thrown,
        snd (run w i (call op s)) = (Thrown thrown, s')
        /\ (truthy detail = true -> message thrown = to_string detail)
        /\ (forall m, detail = JStr m -> m <> "" -> message thrown = m)
        /\ (truthy detail = false -> message thrown = op_fallback op))
  /\ (forall (w : world) (i : nat) (s : Session) (error : js_error),
         http_at w i = HttpErr error ->
         exists thrown,
           snd (run w i (authenticate s)) = (Thrown thrown, s)
           /\ message thrown = "Failed to authenticate with Tetracubed API"
           /\ logged "Authentication failed:" (fst (run w i (authenticate s)))
              = [error_detail error]).
Proof.
  split.
  - intros w i op s s' error Hguard Hreq detail.
    rewrite call_run, Hguard, op_request_outcome, Hreq. cbn [snd].
    eexists. split; [reflexivity|].
    rewrite message_detail_or. fold detail.
    split; [|split].
    + now intros ->.
    + intros m Hm Hne. rewrite Hm. destruct m; [now destruct Hne|reflexivity].
    + now intros ->.
  - intros w i s error Hh. cbn. rewrite Hh. cbn.
    eexists. repeat split.
Qed.

Lemma failure_messages_witness :
  let refused := axios_error "Request failed with status code 409"
                   (JObj [("detail", JStr "Stack is already running")]) in
  let silent := mkError "socket hang up" (JStr "ECONNRESET") JUndefined in
  let fresh := set_token (JStr "abc") 5000 example_client in
  let thrown_by w op :=
    match fst (snd (run w 0 (call op fresh))) with
    | Thrown e => Some (message e)
    | Normal _ => None
    end in
  (thrown_by (failing_world refused) OpStart = Some "Stack is already running"
   /\ thrown_by (failing_world refused) OpStop
      = Some "Stack is already running"
   /\ thrown_by (failing_world refused) OpGetResources
      = Some "Stack is already running")
  /\ (thrown_by (failing_world silent) OpStart = Some "Failed to start server"
      /\ thrown_by (failing_world silent) OpStop = Some "Failed to stop server"
      /\ thrown_by (failing_world silent) OpGetResources
         = Some "Failed to get resources")
  /\ (exists thrown,
         snd (run (failing_world refused) 0 (authenticate fresh))
         = (Thrown thrown, fresh)
         /\ message thrown = "Failed to authenticate with Tetracubed API"
         /\ logged "Authentication failed:"
              (fst (run (failing_world refused) 0 (authenticate fresh)))
            = [JObj [("detail", JStr "Stack is already running")]]).
Proof.
  intros refused silent fresh thrown_by.
  destruct failure_messages as (Hop & Hauth).
  assert (Hdetail : forall op,
             thrown_by (failing_world refused) op
             = Some "Stack is already running").
  { intros op.
    destruct (Hop (failing_world refused) 0%nat op fresh fresh refused
                eq_refl eq_refl) as (thrown & Hr & _ & Hm & _).
    unfold thrown_by. rewrite Hr. cbn [fst]. f_equal.
    apply Hm; [reflexivity|discriminate]. }
  assert (Hfallback : forall op,
             thrown_by (failing_world silent) op = Some (op_fallback op)).
  { intros op.
    destruct (Hop (failing_world silent) 0%nat op fresh fresh silent
                eq_refl eq_refl) as (thrown & Hr & _ & _ & Hm).
    unfold thrown_by. rewrite Hr. cbn [fst]. f_equal.
    apply Hm. reflexivity. }
  split; [|split].
  - repeat split; apply Hdetail.
  - repeat split; apply Hfallback.
  - destruct (Hauth (failing_world refused) 0%nat fresh refused eq_refl)
      as (thrown & Hr & Hm & Hl).
    exists thrown. split; [exact Hr|]. split; [exact Hm|exact Hl].
Defined.
